(** * paast: the paste store, its counter and its submission throttle

    A shallow embedding of [main.go].  Go strings and byte slices are both
    byte sequences and are modelled as [list ascii]; [int64] values are
    integers in [Z] with the wrap-around written out; the file system, the
    mutex, the throttle table and the clock form an explicit [World] on
    which the handlers run as programs over atomic operations. *)

From Stdlib Require Import ZArith Ascii String List Lia Bool.
From stdpp Require Import gmap strings list.

Open Scope Z_scope.

(** ** Bytes and text *)

Abbreviation bytes := (list ascii).

Definition str (s : string) : bytes := list_ascii_of_string s.
Definition code (c : ascii) : Z := Z.of_N (N_of_ascii c).
Definition chr (z : Z) : ascii := ascii_of_N (Z.to_N z).

(** ** Constants of [main.go] *)

Definition MaxBodyLen : Z := Z.shiftl 1 20.
Definition Second : Z := 1000000000.
Definition PasteCooldown : Z := 5 * Second.
Definition Alphabet : bytes := str "abcdefghijklmnopqrstuvwxyz1234567890".
Definition DataDir : bytes := str "/var/lib/paast".

(** ** 64-bit integers *)

Definition minInt64 : Z := - 2 ^ 63.
Definition maxInt64 : Z := 2 ^ 63 - 1.
Definition maxUint64 : Z := 2 ^ 64 - 1.

(** [counter++] on an [int64]. *)
Definition wrap64 (z : Z) : Z := (z + 2 ^ 63) mod 2 ^ 64 - 2 ^ 63.

(** ** The Go library functions the handlers call

    These follow the Go standard library: [fmt] for the integer verbs,
    [strconv.ParseInt], [strings.TrimSpace], [strings.Split],
    [strings.HasPrefix], [strings.HasSuffix] and [path.Join]. *)

Module GoLib.

(** [fmt]'s integer formatting writes the digits right to left into a
    buffer: [for u >= 10 { next := u / 10; buf[i] = '0' + u - next*10;
    u = next }], then the last digit.  A [uint64] has at most 20 digits. *)
Fixpoint fmtDigits (fuel : nat) (u : Z) (buf : bytes) : bytes :=
  match fuel with
  | O => buf
  | S fuel' =>
      if u <? 10 then chr (48 + u) :: buf
      else
        let next := u / 10 in
        fmtDigits fuel' next (chr (48 + (u - next * 10)) :: buf)
  end.

(** [fmtInteger] for base 10: [prec] is the number of digits asked for by a
    zero-padding width ([%09d] gives 9, plain [%d] gives 0), one less when a
    sign takes a column. *)
Definition fmtInteger (wid : nat) (v : Z) : bytes :=
  let negative := v <? 0 in
  let u := Z.abs v in
  let prec := if negative then Nat.pred wid else wid in
  let ds := fmtDigits 20 u [] in
  let padded := repeat "0"%char (prec - length ds)%nat ++ ds in
  if negative then "-"%char :: padded else padded.

(** [fmt.Sprint(value)] for an [int64]. *)
Definition Sprint (v : Z) : bytes := fmtInteger 0 v.

(** The verb [%09d]. *)
Definition Sprintf09d (v : Z) : bytes := fmtInteger 9 v.

Definition isDigit (c : ascii) : bool := (48 <=? code c) && (code c <=? 57).

(** The loop of [strconv.ParseUint] for base 10 and bit size 64: [cutoff]
    is [maxUint64/10 + 1]; [None] stands for any error (syntax or range). *)
Fixpoint parseUintLoop (n : Z) (s : bytes) : option Z :=
  match s with
  | [] => Some n
  | c :: rest =>
      if isDigit c then
        let d := code c - 48 in
        if maxUint64 / 10 + 1 <=? n then None
        else
          let n10 := n * 10 in
          let n1 := (n10 + d) mod 2 ^ 64 in
          if (n1 <? n10) || (maxUint64 <? n1) then None
          else parseUintLoop n1 rest
      else None
  end.

Definition ParseUint (s : bytes) : option Z :=
  match s with
  | [] => None
  | _ => parseUintLoop 0 s
  end.

(** [strconv.ParseInt(s, 10, 64)]: an optional sign, then [ParseUint], then
    the range check against [1 << 63]. *)
Definition ParseInt (s : bytes) : option Z :=
  match s with
  | [] => None
  | c :: rest =>
      let neg := Ascii.eqb c "-" in
      let s' := if Ascii.eqb c "+" || neg then rest else s in
      match ParseUint s' with
      | None => None
      | Some un =>
          if negb neg && (2 ^ 63 <=? un) then None
          else if neg && (2 ^ 63 <? un) then None
          else Some (if neg then - un else un)
      end
  end.

(** White space as [unicode.IsSpace] sees it, in UTF-8: the six ASCII
    characters, and the encodings of U+0085, U+00A0, U+1680,
    U+2000..U+200A, U+2028, U+2029, U+202F, U+205F and U+3000. *)
Definition asciiSpace (c : ascii) : bool :=
  let n := code c in
  (n =? 9) || (n =? 10) || (n =? 11) || (n =? 12) || (n =? 13) || (n =? 32).

Definition unicodeSpaces : list (list Z) :=
  [ [194; 133]; [194; 160]; [225; 154; 128];
    [226; 128; 128]; [226; 128; 129]; [226; 128; 130]; [226; 128; 131];
    [226; 128; 132]; [226; 128; 133]; [226; 128; 134]; [226; 128; 135];
    [226; 128; 136]; [226; 128; 137]; [226; 128; 138];
    [226; 128; 168]; [226; 128; 169]; [226; 128; 175];
    [226; 129; 159]; [227; 128; 128] ].

Fixpoint stripPrefix (p : list Z) (s : bytes) : option bytes :=
  match p, s with
  | [], _ => Some s
  | x :: p', c :: s' => if code c =? x then stripPrefix p' s' else None
  | _ :: _, [] => None
  end.

Fixpoint firstStrip (ps : list (list Z)) (s : bytes) : option bytes :=
  match ps with
  | [] => None
  | p :: ps' =>
      match stripPrefix p s with
      | Some rest => Some rest
      | None => firstStrip ps' s
      end
  end.

(** What is left of [s] after one leading white-space rune, if it has one;
    [pats] are the multi-byte encodings to look for. *)
Definition dropSpace (pats : list (list Z)) (s : bytes) : option bytes :=
  match s with
  | [] => None
  | c :: rest => if asciiSpace c then Some rest else firstStrip pats s
  end.

Fixpoint trimLeading (fuel : nat) (pats : list (list Z)) (s : bytes) : bytes :=
  match fuel with
  | O => s
  | S fuel' =>
      match dropSpace pats s with
      | Some rest => trimLeading fuel' pats rest
      | None => s
      end
  end.

Definition TrimLeft (s : bytes) : bytes :=
  trimLeading (length s) unicodeSpaces s.

(** Trailing white space is leading white space of the reversed string,
    with the encodings reversed. *)
Definition TrimRight (s : bytes) : bytes :=
  rev (trimLeading (length s) (map (@rev Z) unicodeSpaces) (rev s)).

Definition TrimSpace (s : bytes) : bytes := TrimRight (TrimLeft s).

(** [strings.Split(s, sep)] for a one-byte separator: one more part than
    there are separators. *)
Fixpoint Split (s : bytes) (sep : ascii) : list bytes :=
  match s with
  | [] => [[]]
  | c :: rest =>
      if Ascii.eqb c sep then [] :: Split rest sep
      else
        match Split rest sep with
        | p :: ps => (c :: p) :: ps
        | [] => [[c]]
        end
  end.

Fixpoint HasPrefix (s prefix : bytes) : bool :=
  match prefix, s with
  | [], _ => true
  | p :: prefix', c :: s' => Ascii.eqb c p && HasPrefix s' prefix'
  | _ :: _, [] => false
  end.

Definition HasSuffix (s suffix : bytes) : bool :=
  HasPrefix (rev s) (rev suffix).

(** [path.Join(dir, name)].  The names joined in [main.go] are made of
    digits, an underscore and identifier characters, and [DataDir] is
    clean, so [path.Clean] leaves the joined path as it is. *)
Definition Join (dir name : bytes) : bytes := dir ++ str "/" ++ name.

End GoLib.

Import GoLib.

(** ** Reading numbers off their text *)

(** The number a string of decimal digits denotes, read left to right. *)
Fixpoint digitsValue (acc : Z) (s : bytes) : Z :=
  match s with
  | [] => acc
  | c :: rest => digitsValue (acc * 10 + (code c - 48)) rest
  end.

(** The characters of a formatted integer: a digit or the sign. *)
Definition numChar (c : ascii) : bool := isDigit c || Ascii.eqb c "-".

(** ** Errors, requests and responses *)

(** Go [error] values, as far as the handlers tell them apart:
    [os.IsNotExist], [errors.Is(err, io.EOF)], and the text of [Error()]. *)
Inductive error : Type :=
| ErrNotExist (msg : bytes)
| ErrEOF
| ErrOther (msg : bytes).

Definition Error (e : error) : bytes :=
  match e with
  | ErrNotExist msg => msg
  | ErrEOF => str "EOF"
  | ErrOther msg => msg
  end.

Definition IsNotExist (e : error) : bool :=
  match e with ErrNotExist _ => true | _ => false end.

Definition IsEOF (e : error) : bool :=
  match e with ErrEOF => true | _ => false end.

Inductive result (A : Type) : Type :=
| Ok (a : A)
| Err (e : error).
Arguments Ok {A} a.
Arguments Err {A} e.

(** The request body as the server receives it: delivered in full, or cut
    by a transport error after a prefix. *)
Inductive BodyStream : Type :=
| Delivered (data : bytes)
| Broken (received : bytes) (e : error).

(** What [mime/multipart] finds in the size-limited body:
    [r.MultipartReader()] may refuse the request; [mr.NextPart()] gives
    [io.EOF], an error, or a first part, and [ioutil.ReadAll(part)] its
    content or an error (a body over the limit shows as an error whose text
    ends in that of [http.MaxBytesReader]). *)
Inductive PartResult : Type :=
| NextPartErr (e : error)
| NextPartOk (readAll : result bytes).

Record Request : Type := mkRequest {
  ContentType : bytes;
  Body : BodyStream;
  Multipart : result PartResult;
  Host : bytes;
  URLScheme : bytes;
  RemoteAddr : bytes;
  VarsHash : bytes
}.

Record Response : Type := mkResponse {
  Status : Z;
  Headers : list (bytes * bytes);
  Written : bytes
}.

(** ** The world the handlers run in *)

(** An open [*os.File]: its name and its offset. *)
Record File : Type := mkFile { fname : bytes; fpos : nat }.

Inductive Event : Type :=
| EvLock
| EvUnlock
| EvOpen (name : bytes)
| EvReadAll (name : bytes)
| EvSeek (name : bytes)
| EvWrite (name : bytes) (pos : nat) (data : bytes)
| EvClose (name : bytes)
| EvNow
| EvMapGet (key : bytes)
| EvMapSet (key : bytes) (t : Z).

(** [files] is the data directory, [lock] the mutex [hr.lock],
    [addrTimeMap] the global of that name (times are nanoseconds since the
    zero [time.Time], which an absent key reads as).  [clock] and [faults]
    are what the environment will do: the readings [time.Now()] will
    return, and for each file-system call to come whether it fails.
    [trace] records the calls made, oldest first. *)
Record World : Type := mkWorld {
  files : gmap bytes bytes;
  lock : bool;
  addrTimeMap : gmap bytes Z;
  clock : list Z;
  faults : list (option error);
  trace : list Event
}.

Definition setFiles (fs : gmap bytes bytes) (w : World) : World :=
  mkWorld fs (lock w) (addrTimeMap w) (clock w) (faults w) (trace w).
Definition setLock (b : bool) (w : World) : World :=
  mkWorld (files w) b (addrTimeMap w) (clock w) (faults w) (trace w).
Definition setAddrTimeMap (m : gmap bytes Z) (w : World) : World :=
  mkWorld (files w) (lock w) m (clock w) (faults w) (trace w).
Definition setClock (c : list Z) (w : World) : World :=
  mkWorld (files w) (lock w) (addrTimeMap w) c (faults w) (trace w).
Definition setFaults (fl : list (option error)) (w : World) : World :=
  mkWorld (files w) (lock w) (addrTimeMap w) (clock w) fl (trace w).
Definition logEvent (ev : Event) (w : World) : World :=
  mkWorld (files w) (lock w) (addrTimeMap w) (clock w) (faults w)
          (trace w ++ [ev]).

(** The next decision of the environment for a fallible call. *)
Definition nextFault (w : World) : option error * World :=
  match faults w with
  | [] => (None, w)
  | f :: rest => (f, setFaults rest w)
  end.

(** A write of [data] at offset [pos]: bytes after the written range stay
    (the files are opened without [O_TRUNC]); a gap is zero-filled. *)
Definition writeAt (pos : nat) (data old : bytes) : bytes :=
  take pos (old ++ repeat "000"%char (pos - length old)%nat)
    ++ data ++ drop (pos + length data)%nat old.

(** The atomic operations, indexed by the type of what they return. *)
Inductive Op : Type -> Type :=
| OpLock : Op unit
| OpUnlock : Op unit
| OpOpenFile (name : bytes) (create : bool) : Op (result File)
| OpReadAll (f : File) : Op (result bytes)
| OpSeek (f : File) (offset : nat) : Op (result File)
| OpWrite (f : File) (data : bytes) : Op (result unit)
| OpClose (f : File) : Op unit
| OpNow : Op Z
| OpMapGet (key : bytes) : Op Z
| OpMapSet (key : bytes) (t : Z) : Op unit.

Definition notExistError (name : bytes) : error :=
  ErrNotExist (str "open " ++ name ++ str ": no such file or directory").

(** One operation on the world; [None] when it cannot proceed (a [Lock] on
    a held mutex waits).  A failing call leaves the files as they are.
    Whether a call fails is for [faults] to say, also where the call is
    bound to fail, as the open of a name longer than the file system
    takes. *)
Definition exec {X : Type} (op : Op X) (w : World) : option (X * World) :=
  match op in Op X return option (X * World) with
  | OpLock =>
      if lock w then None else Some (tt, logEvent EvLock (setLock true w))
  | OpUnlock => Some (tt, logEvent EvUnlock (setLock false w))
  | OpOpenFile name create =>
      let '(fault, w1) := nextFault (logEvent (EvOpen name) w) in
      match fault with
      | Some e => Some (Err e, w1)
      | None =>
          match files w1 !! name with
          | Some _ => Some (Ok (mkFile name 0), w1)
          | None =>
              if create
              then Some (Ok (mkFile name 0), setFiles (<[name := []]> (files w1)) w1)
              else Some (Err (notExistError name), w1)
          end
      end
  | OpReadAll f =>
      let '(fault, w1) := nextFault (logEvent (EvReadAll (fname f)) w) in
      match fault with
      | Some e => Some (Err e, w1)
      | None => Some (Ok (drop (fpos f) (default [] (files w1 !! fname f))), w1)
      end
  | OpSeek f offset =>
      let '(fault, w1) := nextFault (logEvent (EvSeek (fname f)) w) in
      match fault with
      | Some e => Some (Err e, w1)
      | None => Some (Ok (mkFile (fname f) offset), w1)
      end
  | OpWrite f data =>
      let '(fault, w1) := nextFault (logEvent (EvWrite (fname f) (fpos f) data) w) in
      match fault with
      | Some e => Some (Err e, w1)
      | None =>
          let old := default [] (files w1 !! fname f) in
          Some (Ok tt, setFiles (<[fname f := writeAt (fpos f) data old]> (files w1)) w1)
      end
  | OpClose f => Some (tt, logEvent (EvClose (fname f)) w)
  | OpNow =>
      match clock w with
      | [] => Some (0, logEvent EvNow w)
      | t :: rest => Some (t, logEvent EvNow (setClock rest w))
      end
  | OpMapGet key =>
      Some (default 0 (addrTimeMap w !! key), logEvent (EvMapGet key) w)
  | OpMapSet key t =>
      Some (tt, logEvent (EvMapSet key t) (setAddrTimeMap (<[key := t]> (addrTimeMap w)) w))
  end.

(** ** Programs over the operations *)

Inductive Prog (A : Type) : Type :=
| Ret (a : A)
| Vis {X : Type} (op : Op X) (k : X -> Prog A).
Arguments Ret {A} a.
Arguments Vis {A X} op k.

Fixpoint bind {A B : Type} (p : Prog A) (f : A -> Prog B) : Prog B :=
  match p with
  | Ret a => f a
  | Vis op k => Vis op (fun x => bind (k x) f)
  end.

Definition call {X : Type} (op : Op X) : Prog X := Vis op Ret.

Declare Scope prog_scope.
Delimit Scope prog_scope with prog.
Notation "x <- p ;; k" := (bind p (fun x => k))
  (at level 100, p at next level, right associativity) : prog_scope.
Notation "p ;;; k" := (bind p (fun _ => k))
  (at level 100, right associativity) : prog_scope.
(** [x <-! p ;; k]: [p] returns a value or an error, and the error is
    passed on ([if err != nil { return err }], or a [panic(err)] on its way
    to the [recover]). *)
Notation "x <-! p ;; k" :=
  (bind p (fun r => match r with Ok x => k | Err e => Ret (Err e) end))
  (at level 100, p at next level, right associativity) : prog_scope.
Open Scope prog_scope.

(** One step of a program: its first operation, if the world allows it. *)
Definition threadStep {A : Type} (p : Prog A) (w : World) : option (Prog A * World) :=
  match p with
  | Ret _ => None
  | Vis op k =>
      match exec op w with
      | Some (x, w') => Some (k x, w')
      | None => None
      end
  end.

(** A program run alone to its end; [None] if it has to wait for ever. *)
Fixpoint run {A : Type} (p : Prog A) (w : World) : option (A * World) :=
  match p with
  | Ret a => Some (a, w)
  | Vis op k =>
      match exec op w with
      | Some (x, w') => run (k x) w'
      | None => None
      end
  end.

(** Two programs that make the same operations and, whatever these
    return, go on in the same way. *)
Fixpoint sameProg {A : Type} (p q : Prog A) : Prop :=
  match p with
  | Ret a => q = Ret a
  | Vis op k => exists k', q = Vis op k' /\ forall x, sameProg (k x) (k' x)
  end.

(** ** The handlers of [main.go] *)

(** [hashids.HashID], the identifier codec of the library
    [github.com/speps/go-hashids]: the two methods the handlers call.
    [NewHttpRoutes] builds it from the salt [ID_SALT], [Alphabet] and the
    minimum length 3. *)
Record HashID : Type := mkHashID {
  EncodeInt64 : list Z -> result bytes;
  DecodeInt64WithError : bytes -> list Z * option error
}.

(** [HttpRoutes]; its mutex is the [lock] of the world. *)
Record HttpRoutes : Type := mkHttpRoutes { hashidMaker : HashID }.

Definition nl : bytes := [chr 10].
Definition quote : bytes := [chr 34].

Definition ReadCounter (file : File) : Prog (result Z) :=
  r <- call (OpReadAll file) ;;
  match r with
  | Err err => Ret (Err (ErrOther (str "read counter: " ++ Error err)))
  | Ok content =>
      match ParseInt (TrimSpace content) with
      | None => Ret (Ok 0)
      | Some value => Ret (Ok value)
      end
  end.

Definition WriteCounter (file : File) (value : Z) : Prog (result unit) :=
  r <- call (OpSeek file 0) ;;
  match r with
  | Err err => Ret (Err (ErrOther (str "write counter: " ++ Error err)))
  | Ok file =>
      r <- call (OpWrite file (Sprint value)) ;;
      match r with
      | Err err => Ret (Err (ErrOther (str "write counter: " ++ Error err)))
      | Ok _ => Ret (Ok tt)
      end
  end.

(** [http.MaxBytesReader(rw, body, n)]: reading more than [n] bytes fails. *)
Definition tooLarge : error := ErrOther (str "http: request body too large").

Definition MaxBytesReader (n : Z) (b : BodyStream) : BodyStream :=
  match b with
  | Delivered data =>
      if n <? Z.of_nat (length data) then Broken (take (Z.to_nat n) data) tooLarge
      else Delivered data
  | Broken received e =>
      if n <? Z.of_nat (length received) then Broken (take (Z.to_nat n) received) tooLarge
      else Broken received e
  end.

(** [ioutil.ReadAll] on a request body. *)
Definition ReadAllBody (b : BodyStream) : result bytes :=
  match b with
  | Delivered data => Ok data
  | Broken _ e => Err e
  end.

Definition PasteFromMultipart (r : Request) : result bytes :=
  match Multipart r with
  | Err err => Err err
  | Ok (NextPartErr err) =>
      if IsEOF err then Err (ErrOther (str "no parts in multipart body"))
      else Err err
  | Ok (NextPartOk readAll) => readAll
  end.

Definition PasteFromBody (r : Request) : result bytes := ReadAllBody (Body r).

(** [defer f.Close()]: the file is closed when the rest returns or panics. *)
Definition deferClose {A : Type} (f : File) (rest : Prog A) : Prog A :=
  a <- rest ;; call (OpClose f) ;;; Ret a.

Definition pasteName (counter : Z) (hash : bytes) : bytes :=
  Join DataDir (str "pastes/" ++ Sprintf09d counter ++ str "_" ++ hash).

Definition counterName : bytes := Join DataDir (str "counter.dat").

(** The ways [CreatePaste] ends: its three [return]s, and a panic caught by
    the deferred [recover]. *)
Inductive Reply : Type :=
| ReplyTooLarge
| ReplyEmpty
| ReplyCreated (counter : Z) (counterHash : bytes)
| ReplyPanic (msg : bytes).

(** [CreatePaste] between taking the lock and releasing it; [Err] is a
    [panic(err)]. *)
Definition CreatePasteLocked (hr : HttpRoutes) (r : Request) : Prog (result Reply) :=
  let body := MaxBytesReader MaxBodyLen (Body r) in
  let r := mkRequest (ContentType r) body (Multipart r) (Host r) (URLScheme r)
                     (RemoteAddr r) (VarsHash r) in
  let parsed :=
    if HasPrefix (ContentType r) (str "multipart/form-data")
    then PasteFromMultipart r
    else PasteFromBody r in
  match parsed with
  | Err err =>
      if HasSuffix (Error err) (str "http: request body too large")
      then Ret (Ok ReplyTooLarge)
      else Ret (Err err)
  | Ok pasteContent =>
      if (length pasteContent =? 0)%nat then Ret (Ok ReplyEmpty)
      else
        counterFile <-! call (OpOpenFile counterName true) ;;
        deferClose counterFile (
          counter <-! ReadCounter counterFile ;;
          let counter := wrap64 (counter + 1) in
          _ <-! WriteCounter counterFile counter ;;
          match EncodeInt64 (hashidMaker hr) [counter] with
          | Err err => Ret (Err err)
          | Ok counterHash =>
              pasteFile <-! call (OpOpenFile (pasteName counter counterHash) true) ;;
              deferClose pasteFile (
                _ <-! call (OpWrite pasteFile pasteContent) ;;
                Ret (Ok (ReplyCreated counter counterHash)))
          end)
  end.

Definition CreatePasteReply (hr : HttpRoutes) (r : Request) : Prog Reply :=
  call OpLock ;;;
  res <- CreatePasteLocked hr r ;;
  call OpUnlock ;;;
  Ret (match res with
       | Ok reply => reply
       | Err err => ReplyPanic (Error err)
       end).

(** What each ending writes to the [http.ResponseWriter]. *)
Definition CreatePasteResponse (r : Request) (reply : Reply) : Response :=
  match reply with
  | ReplyTooLarge =>
      mkResponse 413 [] (str "error: request body too large" ++ nl)
  | ReplyEmpty =>
      mkResponse 400 [] (str "error: your paste is empty!" ++ nl)
  | ReplyCreated _ counterHash =>
      let scheme := match URLScheme r with [] => str "http" | s => s end in
      mkResponse 200 [] (scheme ++ str "://" ++ Host r ++ str "/" ++ counterHash ++ nl)
  | ReplyPanic msg => mkResponse 500 [] msg
  end.

Definition CreatePaste (hr : HttpRoutes) (r : Request) : Prog Response :=
  reply <- CreatePasteReply hr r ;; Ret (CreatePasteResponse r reply).

(** The ways [RetrievePaste] ends. *)
Inductive Fetched : Type :=
| FetchedContent (content : bytes)
| FetchedNotFound
| FetchedPanic (msg : bytes).

(** The file [RetrievePaste] looks for. *)
Definition lookupName (hr : HttpRoutes) (hash : bytes) : bytes :=
  let counters := fst (DecodeInt64WithError (hashidMaker hr) hash) in
  let counters := if (length counters =? 0)%nat then counters ++ [0] else counters in
  pasteName (hd 0 counters) hash.

Definition RetrievePasteReply (hr : HttpRoutes) (r : Request) : Prog Fetched :=
  let hash := VarsHash r in
  res <- (opened <- call (OpOpenFile (lookupName hr hash) false) ;;
          match opened with
          | Err err =>
              if IsNotExist err then Ret (Ok FetchedNotFound) else Ret (Err err)
          | Ok pasteFile =>
              deferClose pasteFile (
                content <-! call (OpReadAll pasteFile) ;;
                Ret (Ok (FetchedContent content)))
          end) ;;
  Ret (match res with
       | Ok fetched => fetched
       | Err err => FetchedPanic (Error err)
       end).

Definition RetrievePasteResponse (r : Request) (fetched : Fetched) : Response :=
  match fetched with
  | FetchedContent content => mkResponse 200 [] content
  | FetchedNotFound =>
      mkResponse 404 []
        (str "paste with id " ++ quote ++ VarsHash r ++ quote ++ str " was not found" ++ nl)
  | FetchedPanic msg => mkResponse 500 [] msg
  end.

Definition RetrievePaste (hr : HttpRoutes) (r : Request) : Prog Response :=
  fetched <- RetrievePasteReply hr r ;; Ret (RetrievePasteResponse r fetched).

(** [t.Sub(u)]: a [Duration] is an [int64] of nanoseconds and the
    difference saturates. *)
Definition Sub (t u : Z) : Z := Z.max minInt64 (Z.min maxInt64 (t - u)).

(** [int64(math.Ceil(d.Seconds()))], computed on the integer nanoseconds.
    The code goes through a [float64], which gives the same sign for every
    duration and the same value for the durations up to [PasteCooldown]
    that a wait can have. *)
Definition ceilSeconds (d : Z) : Z := - ((- d) / Second).

(** The key of a client in [addrTimeMap], when the address has a colon. *)
Definition clientKey (remoteAddr : bytes) : option bytes :=
  let addrParts := Split remoteAddr ":" in
  if (1 <? length addrParts)%nat then Some (hd [] addrParts) else None.

Definition tooManyResponse (retryAfter : Z) : Response :=
  mkResponse 429 [(str "Retry-After", Sprint retryAfter)]
    (str "error: please wait " ++ Sprint retryAfter
       ++ str " seconds before creating new paste" ++ nl).

Definition RateLimit (fn : Request -> Prog Response) (r : Request) : Prog Response :=
  match clientKey (RemoteAddr r) with
  | Some key =>
      lastTime <- call (OpMapGet key) ;;
      let nextTry := lastTime + PasteCooldown in
      now <- call OpNow ;;
      let retryAfter := ceilSeconds (Sub nextTry now) in
      if 0 <? retryAfter then Ret (tooManyResponse retryAfter)
      else
        now <- call OpNow ;;
        call (OpMapSet key now) ;;;
        fn r
  | None => fn r
  end.


(** * [CreatePaste] as a machine

    The program points of [CreatePasteReply], one before each operation,
    with the local variables alive there.  [code] gives the rest of the
    program at a point and [stageStep] the move to the next point; the
    machine is the program ([sameProg_AtLock]) and steps as it does
    ([threadStep_code]). *)

Module Machine.

Inductive Stage : Type :=
| AtLock (r : Request)
| AtOpenCounter (pasteContent : bytes)
| AtReadCounter (pasteContent : bytes) (counterFile : File)
| AtSeek (pasteContent : bytes) (counterFile : File) (counter : Z)
| AtWriteCounter (pasteContent : bytes) (counterFile file : File) (counter : Z)
| AtOpenPaste (pasteContent : bytes) (counterFile : File) (counter : Z) (counterHash : bytes)
| AtWritePaste (pasteContent : bytes) (counterFile : File) (counter : Z) (counterHash : bytes)
               (pasteFile : File)
| AtClosePaste (counterFile pasteFile : File) (res : result Reply)
| AtCloseCounter (counterFile : File) (res : result Reply)
| AtUnlock (res : result Reply)
| Done (reply : Reply).

Definition recovered (res : result Reply) : Reply :=
  match res with
  | Ok reply => reply
  | Err err => ReplyPanic (Error err)
  end.

Definition parseRequest (r : Request) : result bytes :=
  let body := MaxBytesReader MaxBodyLen (Body r) in
  let r := mkRequest (ContentType r) body (Multipart r) (Host r) (URLScheme r)
                     (RemoteAddr r) (VarsHash r) in
  if HasPrefix (ContentType r) (str "multipart/form-data")
  then PasteFromMultipart r
  else PasteFromBody r.

Section WithRoutes.

Variable hr : HttpRoutes.

(** Where the program stands once it holds the lock and has parsed the
    request, and once it has written the counter and encoded it. *)
Definition afterLock (r : Request) : Stage :=
  match parseRequest r with
  | Err err =>
      if HasSuffix (Error err) (str "http: request body too large")
      then AtUnlock (Ok ReplyTooLarge)
      else AtUnlock (Err err)
  | Ok pasteContent =>
      if (length pasteContent =? 0)%nat then AtUnlock (Ok ReplyEmpty)
      else AtOpenCounter pasteContent
  end.

Definition afterWriteCounter (pasteContent : bytes) (counterFile : File) (counter : Z) : Stage :=
  match EncodeInt64 (hashidMaker hr) [counter] with
  | Err err => AtCloseCounter counterFile (Err err)
  | Ok counterHash => AtOpenPaste pasteContent counterFile counter counterHash
  end.

Definition readValue (content : bytes) : Z :=
  match ParseInt (TrimSpace content) with
  | None => 0
  | Some value => value
  end.

Definition stageStep (st : Stage) (w : World) : option (Stage * World) :=
  match st with
  | AtLock r =>
      '(_, w') ← exec OpLock w; Some (afterLock r, w')
  | AtOpenCounter pasteContent =>
      '(res, w') ← exec (OpOpenFile counterName true) w;
      Some (match res with
            | Ok counterFile => AtReadCounter pasteContent counterFile
            | Err err => AtUnlock (Err err)
            end, w')
  | AtReadCounter pasteContent counterFile =>
      '(res, w') ← exec (OpReadAll counterFile) w;
      Some (match res with
            | Ok content =>
                AtSeek pasteContent counterFile (wrap64 (readValue content + 1))
            | Err err =>
                AtCloseCounter counterFile
                  (Err (ErrOther (str "read counter: " ++ Error err)))
            end, w')
  | AtSeek pasteContent counterFile counter =>
      '(res, w') ← exec (OpSeek counterFile 0) w;
      Some (match res with
            | Ok file => AtWriteCounter pasteContent counterFile file counter
            | Err err =>
                AtCloseCounter counterFile
                  (Err (ErrOther (str "write counter: " ++ Error err)))
            end, w')
  | AtWriteCounter pasteContent counterFile file counter =>
      '(res, w') ← exec (OpWrite file (Sprint counter)) w;
      Some (match res with
            | Ok _ => afterWriteCounter pasteContent counterFile counter
            | Err err =>
                AtCloseCounter counterFile
                  (Err (ErrOther (str "write counter: " ++ Error err)))
            end, w')
  | AtOpenPaste pasteContent counterFile counter counterHash =>
      '(res, w') ← exec (OpOpenFile (pasteName counter counterHash) true) w;
      Some (match res with
            | Ok pasteFile =>
                AtWritePaste pasteContent counterFile counter counterHash pasteFile
            | Err err => AtCloseCounter counterFile (Err err)
            end, w')
  | AtWritePaste pasteContent counterFile counter counterHash pasteFile =>
      '(res, w') ← exec (OpWrite pasteFile pasteContent) w;
      Some (match res with
            | Ok _ =>
                AtClosePaste counterFile pasteFile (Ok (ReplyCreated counter counterHash))
            | Err err => AtClosePaste counterFile pasteFile (Err err)
            end, w')
  | AtClosePaste counterFile pasteFile res =>
      '(_, w') ← exec (OpClose pasteFile) w; Some (AtCloseCounter counterFile res, w')
  | AtCloseCounter counterFile res =>
      '(_, w') ← exec (OpClose counterFile) w; Some (AtUnlock res, w')
  | AtUnlock res =>
      '(_, w') ← exec OpUnlock w; Some (Done (recovered res), w')
  | Done _ => None
  end.

Definition codeUnlock (res : result Reply) : Prog Reply :=
  Vis OpUnlock (fun _ => Ret (recovered res)).

Definition codeCloseCounter (counterFile : File) (res : result Reply) : Prog Reply :=
  Vis (OpClose counterFile) (fun _ => codeUnlock res).

Definition codeClosePaste (counterFile pasteFile : File) (res : result Reply) : Prog Reply :=
  Vis (OpClose pasteFile) (fun _ => codeCloseCounter counterFile res).

Definition codeWritePaste (pasteContent : bytes) (counterFile : File) (counter : Z)
    (counterHash : bytes) (pasteFile : File) : Prog Reply :=
  Vis (OpWrite pasteFile pasteContent) (fun res =>
    match res with
    | Ok _ => codeClosePaste counterFile pasteFile (Ok (ReplyCreated counter counterHash))
    | Err err => codeClosePaste counterFile pasteFile (Err err)
    end).

Definition codeOpenPaste (pasteContent : bytes) (counterFile : File) (counter : Z)
    (counterHash : bytes) : Prog Reply :=
  Vis (OpOpenFile (pasteName counter counterHash) true) (fun res =>
    match res with
    | Ok pasteFile => codeWritePaste pasteContent counterFile counter counterHash pasteFile
    | Err err => codeCloseCounter counterFile (Err err)
    end).

Definition codeAfterWriteCounter (pasteContent : bytes) (counterFile : File) (counter : Z)
    : Prog Reply :=
  match EncodeInt64 (hashidMaker hr) [counter] with
  | Err err => codeCloseCounter counterFile (Err err)
  | Ok counterHash => codeOpenPaste pasteContent counterFile counter counterHash
  end.

Definition codeWriteCounter (pasteContent : bytes) (counterFile file : File) (counter : Z)
    : Prog Reply :=
  Vis (OpWrite file (Sprint counter)) (fun res =>
    match res with
    | Ok _ => codeAfterWriteCounter pasteContent counterFile counter
    | Err err =>
        codeCloseCounter counterFile (Err (ErrOther (str "write counter: " ++ Error err)))
    end).

Definition codeSeek (pasteContent : bytes) (counterFile : File) (counter : Z) : Prog Reply :=
  Vis (OpSeek counterFile 0) (fun res =>
    match res with
    | Ok file => codeWriteCounter pasteContent counterFile file counter
    | Err err =>
        codeCloseCounter counterFile (Err (ErrOther (str "write counter: " ++ Error err)))
    end).

Definition codeReadCounter (pasteContent : bytes) (counterFile : File) : Prog Reply :=
  Vis (OpReadAll counterFile) (fun res =>
    match res with
    | Ok content => codeSeek pasteContent counterFile (wrap64 (readValue content + 1))
    | Err err =>
        codeCloseCounter counterFile (Err (ErrOther (str "read counter: " ++ Error err)))
    end).

Definition codeOpenCounter (pasteContent : bytes) : Prog Reply :=
  Vis (OpOpenFile counterName true) (fun res =>
    match res with
    | Ok counterFile => codeReadCounter pasteContent counterFile
    | Err err => codeUnlock (Err err)
    end).

Definition code (st : Stage) : Prog Reply :=
  match st with
  | AtLock r =>
      Vis OpLock (fun _ =>
        match afterLock r with
        | AtOpenCounter pasteContent => codeOpenCounter pasteContent
        | AtUnlock res => codeUnlock res
        | _ => Ret (ReplyPanic [])
        end)
  | AtOpenCounter pasteContent => codeOpenCounter pasteContent
  | AtReadCounter pasteContent counterFile => codeReadCounter pasteContent counterFile
  | AtSeek pasteContent counterFile counter => codeSeek pasteContent counterFile counter
  | AtWriteCounter pasteContent counterFile file counter =>
      codeWriteCounter pasteContent counterFile file counter
  | AtOpenPaste pasteContent counterFile counter counterHash =>
      codeOpenPaste pasteContent counterFile counter counterHash
  | AtWritePaste pasteContent counterFile counter counterHash pasteFile =>
      codeWritePaste pasteContent counterFile counter counterHash pasteFile
  | AtClosePaste counterFile pasteFile res => codeClosePaste counterFile pasteFile res
  | AtCloseCounter counterFile res => codeCloseCounter counterFile res
  | AtUnlock res => codeUnlock res
  | Done reply => Ret reply
  end.

End WithRoutes.

End Machine.

(** * The store and its invariant *)

(** The ordinal the counter record stands for: what [ReadCounter] returns
    for the file, 0 when it is absent or does not parse. *)
Definition counterValue (fs : gmap bytes bytes) : Z :=
  Machine.readValue (default [] (fs !! counterName)).

(** The counter record is empty (just created) or the decimal text of a
    non-negative [int64]. *)
Definition counterText (fs : gmap bytes bytes) : Prop :=
  forall content, fs !! counterName = Some content ->
    content = [] \/ exists n, 0 <= n <= maxInt64 /\ content = Sprint n.

(** Every other file is the record of an ordinal already counted, under
    the identifier the codec gives that ordinal. *)
Definition pastesIssued (hr : HttpRoutes) (fs : gmap bytes bytes) : Prop :=
  forall name content, fs !! name = Some content ->
    name = counterName \/
    exists k h, name = pasteName k h /\ 1 <= k <= counterValue fs /\
                EncodeInt64 (hashidMaker hr) [k] = Ok h.

Definition storeOk (hr : HttpRoutes) (fs : gmap bytes bytes) : Prop :=
  counterText fs /\ pastesIssued hr fs.

(** No call of the environment is going to fail. *)
Definition noFaults (w : World) : Prop := faults w = [].

Module Pool.
Import Machine.

(** Between [Lock] and [Unlock]. *)
Definition inCS (st : Stage) : bool :=
  match st with
  | AtLock _ | Done _ => false
  | _ => true
  end.

(** The thread may still write the counter. *)
Definition pending (st : Stage) : Z :=
  match st with
  | AtLock _ | AtOpenCounter _ | AtReadCounter _ _ | AtSeek _ _ _
  | AtWriteCounter _ _ _ _ => 1
  | _ => 0
  end.

Definition createdOrdinal (res : result Reply) : option Z :=
  match res with
  | Ok (ReplyCreated counter _) => Some counter
  | _ => None
  end.

(** The ordinal a thread has written to the counter record for itself. *)
Definition owned (st : Stage) : option Z :=
  match st with
  | AtOpenPaste _ _ counter _ => Some counter
  | AtWritePaste _ _ counter _ _ => Some counter
  | AtClosePaste _ _ res => createdOrdinal res
  | AtCloseCounter _ res => createdOrdinal res
  | AtUnlock res => createdOrdinal res
  | Done reply => createdOrdinal (Ok reply)
  | _ => None
  end.

(** What a thread inside the critical section knows about the files. *)
Definition stageOk (hr : HttpRoutes) (st : Stage) (fs : gmap bytes bytes) : Prop :=
  match st with
  | AtReadCounter _ counterFile => counterFile = mkFile counterName 0
  | AtSeek _ counterFile counter =>
      counterFile = mkFile counterName 0 /\ counter = counterValue fs + 1
  | AtWriteCounter _ _ file counter =>
      file = mkFile counterName 0 /\ counter = counterValue fs + 1
  | AtOpenPaste _ _ counter counterHash =>
      counter = counterValue fs /\ 1 <= counter /\
      EncodeInt64 (hashidMaker hr) [counter] = Ok counterHash
  | AtWritePaste _ _ counter counterHash pasteFile =>
      counter = counterValue fs /\ 1 <= counter /\
      EncodeInt64 (hashidMaker hr) [counter] = Ok counterHash /\
      pasteFile = mkFile (pasteName counter counterHash) 0
  | AtClosePaste _ _ res | AtCloseCounter _ res | AtUnlock res =>
      forall c, createdOrdinal res = Some c -> c = counterValue fs
  | _ => True
  end.

(** A pool of request handlers sharing one world: any thread whose next
    operation can proceed may take a step. *)
Definition poolStep {A : Type} (s s' : list (Prog A) * World) : Prop :=
  exists i p p',
    s.1 !! i = Some p /\
    threadStep p s.2 = Some (p', s'.2) /\
    s'.1 = <[i := p']> s.1.

Inductive poolSteps {A : Type} : list (Prog A) * World -> list (Prog A) * World -> Prop :=
| poolSteps_refl s : poolSteps s s
| poolSteps_step s s' s'' : poolSteps s s' -> poolStep s' s'' -> poolSteps s s''.

(** A handler of the pool is between its [Lock] and its [Unlock] when it
    has started (its next operation is not the [Lock]) and not returned. *)
Definition insideCS {A : Type} (p : Prog A) : bool :=
  match p with
  | Ret _ => false
  | Vis op _ => match op with OpLock => false | _ => true end
  end.

(** The same on program points. *)
Definition stagePoolStep (hr : HttpRoutes) (s s' : list Stage * World) : Prop :=
  exists i st st',
    s.1 !! i = Some st /\
    stageStep hr st s.2 = Some (st', s'.2) /\
    s'.1 = <[i := st']> s.1.

(** What one step of a thread keeps and brings about. *)
Record stepOk (hr : HttpRoutes) (st : Stage) (w : World) (st' : Stage) (w' : World)
    : Prop := {
  so_store : storeOk hr (files w');
  so_stage : stageOk hr st' (files w');
  so_mono : counterValue (files w) <= counterValue (files w');
  so_bound : counterValue (files w') + pending st' <= counterValue (files w) + pending st;
  so_owned : forall c, owned st' = Some c ->
               1 <= c <= counterValue (files w') /\
               (owned st = Some c \/
                (counterValue (files w) < c /\ c = counterValue (files w')));
  so_lock : lock w' = inCS st';
  so_enter : inCS st = false -> lock w = false
}.

Definition sumPending (sts : list Stage) : Z :=
  foldr (fun st acc => pending st + acc) 0 sts.

(** At most one thread is between [Lock] and [Unlock]. *)
Definition exclusive (sts : list Stage) : Prop :=
  forall i j st st',
    sts !! i = Some st -> sts !! j = Some st' ->
    inCS st = true -> inCS st' = true -> i = j.

Definition distinctOwned (sts : list Stage) : Prop :=
  forall i j st st' c,
    sts !! i = Some st -> sts !! j = Some st' ->
    owned st = Some c -> owned st' = Some c -> i = j.

Record poolInv (hr : HttpRoutes) (sts : list Stage) (w : World) : Prop := {
  inv_store : storeOk hr (files w);
  inv_bound : counterValue (files w) + sumPending sts <= maxInt64;
  inv_exclusive : exclusive sts;
  inv_lock : forall i st, sts !! i = Some st -> inCS st = true -> lock w = true;
  inv_free : lock w = false -> forall i st, sts !! i = Some st -> inCS st = false;
  inv_stage : forall i st, sts !! i = Some st -> stageOk hr st (files w);
  inv_owned : forall i st c, sts !! i = Some st -> owned st = Some c ->
                1 <= c <= counterValue (files w);
  inv_distinct : distinctOwned sts
}.

End Pool.

(** Requests served one after the other. *)
Fixpoint serve (hr : HttpRoutes) (rs : list Request) (w : World) : option (list Reply * World) :=
  match rs with
  | [] => Some ([], w)
  | r :: rs' =>
      match run (CreatePasteReply hr r) w with
      | Some (reply, w') =>
          match serve hr rs' w' with
          | Some (replies, w'') => Some (reply :: replies, w'')
          | None => None
          end
      | None => None
      end
  end.

(** The ordinals a list of replies hands out. *)
Fixpoint ordinals (replies : list Reply) : list Z :=
  match replies with
  | [] => []
  | ReplyCreated counter _ :: rest => counter :: ordinals rest
  | _ :: rest => ordinals rest
  end.

Fixpoint increasingFrom (lo : Z) (l : list Z) : Prop :=
  match l with
  | [] => True
  | x :: rest => lo < x /\ increasingFrom x rest
  end.

Module Sequential.
Import Machine Pool.

(** The steps a thread at a program point still has to go. *)
Definition remaining (st : Stage) : nat :=
  match st with
  | AtLock _ => 11
  | AtOpenCounter _ => 10
  | AtReadCounter _ _ => 9
  | AtSeek _ _ _ => 8
  | AtWriteCounter _ _ _ _ => 7
  | AtOpenPaste _ _ _ _ => 6
  | AtWritePaste _ _ _ _ _ => 5
  | AtClosePaste _ _ _ => 4
  | AtCloseCounter _ _ => 3
  | AtUnlock _ => 2
  | Done _ => 0
  end%nat.

(** The world between two requests. *)
Definition worldOk (hr : HttpRoutes) (w : World) : Prop :=
  storeOk hr (files w) /\ lock w = false.

(** What holds of a lone thread on its way through [CreatePaste], started
    when the counter stood at [c0]. *)
Definition onTheWay (hr : HttpRoutes) (c0 : Z) (st : Stage) (w : World) : Prop :=
  storeOk hr (files w) /\
  stageOk hr st (files w) /\
  lock w = inCS st /\
  0 <= c0 <= counterValue (files w) /\
  counterValue (files w) + pending st <= c0 + 1 /\
  (forall c, owned st = Some c -> c = c0 + 1 /\ counterValue (files w) = c0 + 1).

(** The events of an allocation that meets no failure. *)
Definition allocationTrace (c : Z) (h content : bytes) : list Event :=
  [ EvLock;
    EvOpen counterName; EvReadAll counterName;
    EvSeek counterName; EvWrite counterName 0 (Sprint c);
    EvOpen (pasteName c h); EvWrite (pasteName c h) 0 content;
    EvClose (pasteName c h); EvClose counterName;
    EvUnlock ].

(** The world after such an allocation. *)
Definition allocatedWorld (w : World) (c : Z) (h content : bytes) : World :=
  mkWorld (<[pasteName c h := content]> (<[counterName := Sprint c]> (files w)))
          false (addrTimeMap w) (clock w) []
          (trace w ++ allocationTrace c h content).

End Sequential.

(** * Concrete routes, requests and worlds

    A small codec with the interface of [hashids], for running the
    handlers on concrete inputs: the identifier of [n] is ["id"] followed
    by the decimal digits of [n]. *)

Module Demo.

Definition demoEncode (numbers : list Z) : result bytes :=
  match numbers with
  | [n] =>
      if n <? 0 then Err (ErrOther (str "negative number not supported"))
      else Ok (str "id" ++ Sprint n)
  | _ => Err (ErrOther (str "encoding empty array of numbers makes no sense"))
  end.

Definition demoDecode (hash : bytes) : list Z * option error :=
  match hash with
  | "i"%char :: "d"%char :: digits =>
      match ParseInt digits with
      | Some n => ([n], None)
      | None => ([], Some (ErrOther (str "mismatch between encode and decode")))
      end
  | _ => ([], Some (ErrOther (str "mismatch between encode and decode")))
  end.

Definition demoRoutes : HttpRoutes := mkHttpRoutes (mkHashID demoEncode demoDecode).

Definition emptyWorld : World := mkWorld ∅ false ∅ [] [] [].

Definition notMultipart : result PartResult :=
  Err (ErrOther (str "request Content-Type isn't multipart/form-data")).

Definition post (remoteAddr payload : bytes) : Request :=
  mkRequest (str "text/plain") (Delivered payload) notMultipart
            (str "paast.example") [] remoteAddr [].

Definition get (hash : bytes) : Request :=
  mkRequest [] (Delivered []) notMultipart (str "paast.example") []
            (str "10.0.0.1:40000") hash.

(** A payload with a null byte in it. *)
Definition binaryPayload : bytes := ["a"%char; "000"%char; "b"%char].

End Demo.

Module DemoWorlds.
Import Demo.

(** A data directory whose counter file was overwritten with text. *)
Definition garbageWorld : World :=
  mkWorld {[ counterName := str "abc" ]} false ∅ [] [] [].

(** A data directory after 41 pastes, of which the last is kept. *)
Definition usedWorld : World :=
  mkWorld (<[pasteName 41 (str "id41") := str "old"]> {[ counterName := str "41" ]})
          false ∅ [] [] [].

End DemoWorlds.

(** No ordinal counted so far has the identifier [hash].  This says less
    than that no client was ever told [hash]: the identifier of an ordinal
    that a failed submission has used up is that of a counted ordinal,
    though the submission was answered with an error. *)
Definition notCounted (hr : HttpRoutes) (fs : gmap bytes bytes) (hash : bytes) : Prop :=
  forall k, 1 <= k <= counterValue fs -> EncodeInt64 (hashidMaker hr) [k] <> Ok hash.

(** What [RetrievePaste] answers when it finds no file. *)
Definition notFoundResponse (hash : bytes) : Response :=
  mkResponse 404 []
    (str "paste with id " ++ quote ++ hash ++ quote ++ str " was not found" ++ nl).

(** ** Names the file system refuses

    [os.OpenFile] fails with [ENAMETOOLONG], whatever the directory holds,
    for a path of [PathMax] bytes or more and for a path with a component
    of more than [NameMax] bytes (the limits of Linux, on which the image
    of the Dockerfile runs).  The error is a [*PathError] of which
    [os.IsNotExist] does not hold.  In a [World] this is one of the
    failures that [faults] stands for, and the only one that the name
    alone brings about: [openFault name] is what the environment decides
    for the open of [name] when nothing else fails. *)
Definition NameMax : nat := 255.
Definition PathMax : nat := 4096.

Definition nameTooLong (name : bytes) : bool :=
  (PathMax <=? length name)%nat
  || existsb (fun part => (NameMax <? length part)%nat) (Split name "/").

Definition nameTooLongError (name : bytes) : error :=
  ErrOther (str "open " ++ name ++ str ": file name too long").

Definition openFault (name : bytes) : option error :=
  if nameTooLong name then Some (nameTooLongError name) else None.

(** No call of a fetch fails, but for the open of a name that is too
    long. *)
Definition noFaultsBut (name : bytes) (w : World) : Prop :=
  faults w = [openFault name].

(** A submission and then a fetch: the two answers. *)
Definition postThenGet (hr : HttpRoutes) (posted fetch : Request) (w : World)
    : option (Response * Response) :=
  match run (CreatePaste hr posted) w with
  | Some (created, w1) =>
      match run (RetrievePaste hr fetch) w1 with
      | Some (fetched, _) => Some (created, fetched)
      | None => None
      end
  | None => None
  end.

Module Fetches.

(** An identifier of 246 letters; the route of [main],
    [/{hash:[abcdefghijklmnopqrstuvwxyz1234567890]+}], bounds no length. *)
Definition longIdentifier : bytes := repeat "a"%char 246.

(** The world [w] as a fetch of [hash] meets it. *)
Definition fetching (hr : HttpRoutes) (hash : bytes) (w : World) : World :=
  setFaults [openFault (lookupName hr hash)] w.

(** An empty data directory in which the sixth call to the file system,
    the write of the paste, is going to fail. *)
Definition failingWrite : World :=
  mkWorld ∅ false ∅ []
    [None; None; None; None; None; Some (ErrOther (str "no space left on device"))] [].

End Fetches.

(** * The throttle *)

Module Throttle.

(** A remote address as [net/http] writes it: host, colon, port. *)
Definition hostPort (host port : bytes) : bytes := host ++ str ":" ++ port.

(** The world in which [RateLimit] lets a request through: the second
    clock reading is recorded for the client. *)
Definition letThrough (key : bytes) (now2 : Z) (rest : list Z) (w : World) : World :=
  mkWorld (files w) (lock w) (<[key := now2]> (addrTimeMap w)) rest (faults w)
          (trace w ++ [EvMapGet key; EvNow; EvNow; EvMapSet key now2]).

(** The world in which it turns the request away. *)
Definition turnedAway (key : bytes) (now2 : Z) (rest : list Z) (w : World) : World :=
  mkWorld (files w) (lock w) (addrTimeMap w) (now2 :: rest) (faults w)
          (trace w ++ [EvMapGet key; EvNow]).

(** The status codes of submissions made one after the other through
    [RateLimit(httpRoutes.CreatePaste)], as [main] routes them. *)
Fixpoint submitAll (hr : HttpRoutes) (rs : list Request) (w : World) : list Z :=
  match rs with
  | [] => []
  | r :: rs' =>
      match run (RateLimit (CreatePaste hr) r) w with
      | Some (resp, w') => Status resp :: submitAll hr rs' w'
      | None => []
      end
  end.

(** A world in which the client 10.0.0.1 was let through at second 7 and
    the clock reads second 9 (and 5 ns later). *)
Definition coolingWorld : World :=
  mkWorld ∅ false {[ str "10.0.0.1" := 7 * Second ]}
          [9 * Second; 9 * Second + 5] [] [].

(** A world with an empty table; the clock reads some seconds after the
    zero time, one second apart. *)
Definition freshWorld : World :=
  mkWorld ∅ false ∅
          [100 * Second; 100 * Second + 7; 101 * Second; 101 * Second + 7] [] [].

End Throttle.

(** * Scheduling a pool *)

Module Schedule.
Import Pool.

(** Thread [i] takes a step if it can; otherwise nothing happens. *)
Definition advance {A : Type} (i : nat) (s : list (Prog A) * World) : list (Prog A) * World :=
  match s.1 !! i with
  | Some p =>
      match threadStep p s.2 with
      | Some (p', w') => (<[i := p']> s.1, w')
      | None => s
      end
  | None => s
  end.

(** The threads named in [order] are given a turn each, left to right. *)
Definition schedule {A : Type} (order : list nat) (s : list (Prog A) * World)
    : list (Prog A) * World :=
  foldl (fun s i => advance i s) s order.

(** What the threads of a pool have returned so far. *)
Definition returned {A : Type} (ts : list (Prog A)) : list (option A) :=
  map (fun p => match p with Ret a => Some a | Vis _ _ => None end) ts.

(** Two submissions racing for the lock on an empty data directory. *)
Definition racers : list (Prog Reply) :=
  [ CreatePasteReply Demo.demoRoutes (Demo.post (str "10.0.0.1:40000") (str "one"));
    CreatePasteReply Demo.demoRoutes (Demo.post (str "10.0.0.2:40000") (str "two")) ].

(** Thread 1 gets the lock first; thread 0 keeps trying in between. *)
Definition raceOrder : list nat :=
  [1; 0; 1; 0; 1; 0; 1; 0; 1; 0; 1; 0; 1; 0; 1; 0; 1; 0; 1; 0; 1; 0;
   0; 0; 0; 0; 0; 0; 0; 0; 0; 0; 0]%nat.

End Schedule.

(** * What the handlers do in any world *)

(** No file is removed or made shorter. *)
Definition grows (fs fs' : gmap bytes bytes) : Prop :=
  forall name old, fs !! name = Some old ->
    exists new, fs' !! name = Some new /\ (length old <= length new)%nat.

(** The text of the answer when call number [n] of an allocation to the
    file system fails with [e]: 0 opens the counter file, 1 reads it (in
    [ReadCounter]), 2 and 3 seek and write it (in [WriteCounter]); the
    later ones open and write the paste file. *)
Definition failureText (n : nat) (e : error) : bytes :=
  match n with
  | 1 => str "read counter: " ++ Error e
  | 2 | 3 => str "write counter: " ++ Error e
  | _ => Error e
  end%nat.

(** Data directories and environments off the usual path. *)

Module EdgeWorlds.

(** A data directory whose counter file was lost while its first paste is
    still there. *)
Definition lostCounterWorld : World :=
  mkWorld {[ pasteName 1 (str "id1") := str "first paste" ]} false ∅ [] [] [].

(** A data directory whose counter stands at the largest [int64]. *)
Definition fullWorld : World :=
  mkWorld {[ counterName := Sprint maxInt64 ]} false ∅ [] [] [].

(** The same world in which the [n]-th call to the file system fails. *)
Definition failingAt (n : nat) (e : error) (w : World) : World :=
  setFaults (replicate n None ++ [Some e]) w.

End EdgeWorlds.

(** Requests that the parsing turns away. *)

Module Oversize.

(** A body of one byte more than [MaxBodyLen]. *)
Definition oversized : bytes := repeat "a"%char (Z.to_nat (MaxBodyLen + 1)).

(** A multipart request as [curl -F] sends it, with what the multipart
    reader makes of its body. *)
Definition form (parsed : result PartResult) : Request :=
  mkRequest (str "multipart/form-data; boundary=------------------------d74496d66958873e")
            (Delivered []) parsed (str "paast.example") [] (str "10.0.0.1:40000") [].

(** The error of [mr.NextPart()] when the size limit cuts the body. *)
Definition cutPart : error :=
  ErrOther (str "multipart: NextPart: http: request body too large").

End Oversize.

Module Cooldown.

(** A world in which the client 10.0.0.1 has never submitted; the clock
    reads second 100, 7 ns later, and one second after that. *)
Definition quietWorld : World :=
  mkWorld ∅ false ∅ [100 * Second; 100 * Second + 7; 101 * Second] [] [].

End Cooldown.

Module EditedCounter.

(** A data directory whose counter file was written by hand, with a line
    end after the number, as [echo 41 > counter.dat] leaves it. *)
Definition trailingWorld : World :=
  mkWorld {[ counterName := str "41" ++ nl ]} false ∅ [] [] [].

(** The same with a blank before the number as well. *)
Definition editedWorld : World :=
  mkWorld {[ counterName := str " 41" ++ nl ]} false ∅ [] [] [].

End EditedCounter.

(** * The manual page *)

Module GoStrings.

(** [strings.ReplaceAll(s, old, new)] for a non-empty [old]: the
    occurrences of [old] are taken from left to right and do not overlap;
    [skip] counts the bytes of an occurrence still to be passed over. *)
Fixpoint replaceFrom (skip : nat) (s old new : bytes) : bytes :=
  match s with
  | [] => []
  | c :: rest =>
      match skip with
      | S skip' => replaceFrom skip' rest old new
      | O =>
          if HasPrefix s old
          then new ++ replaceFrom (Nat.pred (length old)) rest old new
          else c :: replaceFrom 0 rest old new
      end
  end.

Definition ReplaceAll (s old new : bytes) : bytes := replaceFrom 0 s old new.

End GoStrings.

Import GoStrings.

Definition tab : bytes := [chr 9].

Definition ManpageText : bytes :=
  str "NAME" ++ nl ++
  tab ++ str "paast - create pastes with different methods" ++ nl ++
  nl ++
  str "SYNOPSIS" ++ nl ++
  tab ++ str "cat code.txt | curl {HOST} --data-binary @-" ++ nl ++
  tab ++ str "cat code.txt | curl {HOST} -F 'foo=<-'" ++ nl ++
  tab ++ str "cat code.txt | curl {HOST} -F '=<-'" ++ nl ++
  tab ++ str "cat code.txt | http {HOST}" ++ nl ++
  nl ++
  str "LIMITS" ++ nl ++
  tab ++ str "Maximum allowed request body size is 1 MB." ++ nl ++
  tab ++ str "Creating pastes has a 5-second cooldown." ++ nl ++
  nl ++
  str "STATUS CODES" ++ nl ++
  tab ++ str "200 - paste created, URL returned in response" ++ nl ++
  tab ++ str "400 - bad request or empty paste input" ++ nl ++
  tab ++ str "413 - paste input too large" ++ nl ++
  tab ++ str "429 - attempt to create too many pastes, please wait 5 seconds" ++ nl ++
  tab ++ str "500 - internal server error" ++ nl ++
  nl ++
  str "AUTHOR" ++ nl ++
  tab ++ str "Created by Andrew Dunai." ++ nl ++
  tab ++ str "Send your ideas & feedback to `echo YUBkdW4uYWk= | base64 -d`" ++ nl ++
  nl ++
  str "WWW" ++ nl ++
  tab ++ str "https://dun.ai" ++ nl.

(** [Manpage] makes no call to the lock, the files or the clock. *)
Definition Manpage (hr : HttpRoutes) (r : Request) : Prog Response :=
  Ret (mkResponse 200 [] (ReplaceAll ManpageText (str "{HOST}") (Host r))).

(** * A submission seen from outside *)

(** The first [n] steps of a program, when it can take them. *)
Fixpoint steps {A : Type} (n : nat) (p : Prog A) (w : World) : option (Prog A * World) :=
  match n with
  | O => Some (p, w)
  | S n' =>
      match threadStep p w with
      | Some (p', w') => steps n' p' w'
      | None => None
      end
  end.

(* ================================================================= *)
(** * Proofs *)

(** * Facts about the library functions *)

Module GoLibFacts.

Lemma code_chr (z : Z) : 0 <= z < 256 -> code (chr z) = z.
Proof.
  intros Hz. unfold code, chr.
  rewrite N_ascii_embedding by lia. lia.
Qed.

Lemma isDigit_chr (d : Z) : 0 <= d < 10 -> isDigit (chr (48 + d)) = true.
Proof.
  intros Hd. unfold isDigit. rewrite code_chr by lia.
  apply andb_true_intro; split; lia.
Qed.

Lemma isDigit_range (c : ascii) : isDigit c = true -> 48 <= code c <= 57.
Proof. unfold isDigit. intros H. apply andb_prop in H. lia. Qed.

Lemma digitsValue_app (acc : Z) (l1 l2 : bytes) :
  digitsValue acc (l1 ++ l2) = digitsValue (digitsValue acc l1) l2.
Proof. revert acc. induction l1 as [|c l1 IH]; intros acc; cbn; [done|]. apply IH. Qed.

Lemma digitsValue_ge (l : bytes) :
  Forall (fun c => isDigit c = true) l ->
  forall acc, 0 <= acc -> acc <= digitsValue acc l.
Proof.
  induction 1 as [|c l Hc _ IH]; intros acc Hacc; cbn; [lia|].
  apply isDigit_range in Hc.
  specialize (IH (acc * 10 + (code c - 48))). lia.
Qed.

Lemma digitsValue_zeros (n : nat) (acc : Z) (l : bytes) :
  digitsValue 0 (repeat "0"%char n ++ l) = digitsValue 0 l.
Proof. induction n as [|n IH]; cbn; [done|]. exact IH. Qed.

(** *** Formatting *)

Lemma fmtDigits_buf (fuel : nat) :
  forall u buf, fmtDigits fuel u buf = fmtDigits fuel u [] ++ buf.
Proof.
  induction fuel as [|fuel IH]; intros u buf; cbn; [done|].
  destruct (u <? 10); [done|].
  rewrite (IH _ (_ :: buf)), (IH _ [_]), <- app_assoc. done.
Qed.

Lemma fmtDigits_step (fuel : nat) (u : Z) :
  fmtDigits (S fuel) u [] =
  if u <? 10 then [chr (48 + u)]
  else fmtDigits fuel (u / 10) [] ++ [chr (48 + u mod 10)].
Proof.
  cbn. destruct (u <? 10); [done|].
  rewrite fmtDigits_buf. do 3 f_equal. rewrite Z.mod_eq by lia. lia.
Qed.

Lemma fmtDigits_digits (fuel : nat) :
  forall u, 0 <= u -> Forall (fun c => isDigit c = true) (fmtDigits fuel u []).
Proof.
  induction fuel as [|fuel IH]; intros u Hu; [constructor|].
  rewrite fmtDigits_step. destruct (Z.ltb_spec u 10).
  - repeat constructor. apply isDigit_chr; lia.
  - apply Forall_app; split.
    + apply IH. apply Z.div_pos; lia.
    + repeat constructor. apply isDigit_chr. apply Z.mod_pos_bound; lia.
Qed.

Lemma fmtDigits_value (fuel : nat) :
  forall u, 0 <= u < 10 ^ Z.of_nat fuel -> digitsValue 0 (fmtDigits fuel u []) = u.
Proof.
  induction fuel as [|fuel IH]; intros u Hu.
  - cbn in *. lia.
  - rewrite fmtDigits_step. destruct (Z.ltb_spec u 10).
    + cbn. rewrite code_chr by lia. lia.
    + rewrite digitsValue_app, IH; cbn.
      * rewrite code_chr by (pose proof (Z.mod_pos_bound u 10); lia).
        pose proof (Z.div_mod u 10). lia.
      * split; [apply Z.div_pos; lia|].
        apply Z.div_lt_upper_bound; [lia|].
        rewrite Nat2Z.inj_succ, Z.pow_succ_r in Hu by lia. lia.
Qed.

Lemma fmtDigits_last (fuel : nat) (u : Z) :
  0 <= u ->
  exists l d, fmtDigits (S fuel) u [] = l ++ [chr (48 + d)] /\ 0 <= d < 10.
Proof.
  intros Hu. rewrite fmtDigits_step. destruct (Z.ltb_spec u 10).
  - exists [], u. split; [done | lia].
  - exists (fmtDigits fuel (u / 10) []), (u mod 10).
    split; [done | apply Z.mod_pos_bound; lia].
Qed.

Lemma fmtDigits_length_mono (fuel : nat) :
  forall u v, 0 <= u <= v ->
  (length (fmtDigits fuel u []) <= length (fmtDigits fuel v []))%nat.
Proof.
  induction fuel as [|fuel IH]; intros u v Huv; [done|].
  rewrite !fmtDigits_step.
  destruct (Z.ltb_spec u 10), (Z.ltb_spec v 10);
    rewrite ?length_app; cbn [length]; try lia.
  specialize (IH (u / 10) (v / 10)).
  assert (0 <= u / 10 <= v / 10).
  { split; [apply Z.div_pos; lia | apply Z.div_le_mono; lia]. }
  lia.
Qed.

Lemma Sprint_nonneg (v : Z) : 0 <= v -> Sprint v = fmtDigits 20 v [].
Proof.
  intros Hv. unfold Sprint, fmtInteger.
  destruct (Z.ltb_spec v 0); [lia|].
  rewrite Z.abs_eq by lia. done.
Qed.

Lemma Sprint_neg (v : Z) : v < 0 -> Sprint v = "-"%char :: fmtDigits 20 (- v) [].
Proof.
  intros Hv. unfold Sprint, fmtInteger.
  destruct (Z.ltb_spec v 0); [|lia].
  rewrite Z.abs_neq by lia. done.
Qed.

Lemma Sprintf09d_nonneg (v : Z) :
  0 <= v ->
  Sprintf09d v =
  repeat "0"%char (9 - length (fmtDigits 20 v []))%nat ++ fmtDigits 20 v [].
Proof.
  intros Hv. unfold Sprintf09d, fmtInteger.
  destruct (Z.ltb_spec v 0); [lia|].
  rewrite Z.abs_eq by lia. done.
Qed.

(** Every character [fmtInteger] writes is a digit or the sign. *)
Lemma fmtInteger_numChars (wid : nat) (v : Z) :
  Forall (fun c => numChar c = true) (fmtInteger wid v).
Proof.
  assert (Hpad : forall n, Forall (fun c => numChar c = true)
                   (repeat "0"%char n ++ fmtDigits 20 (Z.abs v) [])).
  { intros n. apply Forall_app; split.
    - apply Forall_forall. intros c Hc.
      apply list_elem_of_In, repeat_spec in Hc. by subst.
    - eapply Forall_impl; [apply fmtDigits_digits; lia|].
      intros c Hc; cbn in *. unfold numChar. by rewrite Hc. }
  unfold fmtInteger. destruct (v <? 0); [constructor; [done|]|]; apply Hpad.
Qed.

Lemma Sprintf09d_value (v : Z) :
  0 <= v < 10 ^ 20 -> digitsValue 0 (Sprintf09d v) = v.
Proof.
  intros Hv. rewrite Sprintf09d_nonneg by lia.
  rewrite digitsValue_zeros by exact 0. by apply fmtDigits_value.
Qed.

Lemma Sprintf09d_inj (v v' : Z) :
  0 <= v < 10 ^ 20 -> 0 <= v' < 10 ^ 20 ->
  Sprintf09d v = Sprintf09d v' -> v = v'.
Proof.
  intros Hv Hv' Heq.
  rewrite <- (Sprintf09d_value v), <- (Sprintf09d_value v') by done.
  by rewrite Heq.
Qed.

(** *** Parsing *)

Lemma parseUintLoop_digits (l : bytes) :
  Forall (fun c => isDigit c = true) l ->
  forall n, 0 <= n -> digitsValue n l <= maxUint64 ->
  parseUintLoop n l = Some (digitsValue n l).
Proof.
  induction 1 as [|c l Hc Hl IH]; intros n Hn Hmax; cbn; [done|].
  rewrite Hc. pose proof (isDigit_range c Hc) as Hr.
  pose proof (digitsValue_ge l Hl (n * 10 + (code c - 48))) as Hge.
  cbn in Hmax. unfold maxUint64 in *.
  assert (Hsmall : 0 <= n * 10 + (code c - 48) < 2 ^ 64) by lia.
  destruct (Z.leb_spec ((2 ^ 64 - 1) / 10 + 1) n) as [Hcut|Hcut].
  { change ((2 ^ 64 - 1) / 10 + 1) with 1844674407370955162 in Hcut. lia. }
  rewrite Z.mod_small by lia.
  destruct (Z.ltb_spec (n * 10 + (code c - 48)) (n * 10)); [lia|].
  destruct (Z.ltb_spec (2 ^ 64 - 1) (n * 10 + (code c - 48))); [lia|].
  cbn. apply IH; lia.
Qed.

Lemma ParseUint_fmtDigits (u : Z) :
  0 <= u <= maxUint64 -> ParseUint (fmtDigits 20 u []) = Some u.
Proof.
  intros Hu. unfold maxUint64 in Hu.
  assert (Hv : digitsValue 0 (fmtDigits 20 u []) = u).
  { apply fmtDigits_value. change (10 ^ Z.of_nat 20) with (10 ^ 20). lia. }
  destruct (fmtDigits_last 19 u) as (l & d & Hl & Hd); [lia|].
  unfold ParseUint. rewrite <- Hv at 2.
  rewrite <- parseUintLoop_digits.
  - rewrite Hl. by destruct l.
  - apply fmtDigits_digits; lia.
  - lia.
  - rewrite Hv. unfold maxUint64. lia.
Qed.

Lemma fmtDigits_head (u : Z) :
  0 <= u ->
  exists c rest, fmtDigits 20 u [] = c :: rest /\ isDigit c = true.
Proof.
  intros Hu. pose proof (fmtDigits_digits 20 u Hu) as Hall.
  destruct (fmtDigits_last 19 u Hu) as (l & d & Hl & Hd).
  destruct (fmtDigits 20 u []) as [|c rest] eqn:E.
  - by destruct l.
  - exists c, rest. split; [done|]. by inversion Hall.
Qed.

Lemma isDigit_not_sign (c : ascii) :
  isDigit c = true -> Ascii.eqb c "+" = false /\ Ascii.eqb c "-" = false.
Proof.
  intros Hc. apply isDigit_range in Hc.
  split; apply Ascii.eqb_neq; intros ->.
  - change (code "+") with 43 in Hc. lia.
  - change (code "-") with 45 in Hc. lia.
Qed.

(** [strconv.ParseInt] reads back what [fmt.Sprint] writes. *)
Lemma ParseInt_Sprint (v : Z) :
  minInt64 <= v <= maxInt64 -> ParseInt (Sprint v) = Some v.
Proof.
  unfold minInt64, maxInt64. intros Hv.
  destruct (Z.lt_ge_cases v 0) as [Hneg|Hpos].
  - rewrite Sprint_neg by lia. unfold ParseInt.
    change (Ascii.eqb "-" "-") with true. change (Ascii.eqb "-" "+") with false.
    cbn [orb andb negb].
    rewrite ParseUint_fmtDigits by (unfold maxUint64; lia).
    destruct (Z.ltb_spec (2 ^ 63) (- v)); [lia|].
    f_equal. lia.
  - rewrite Sprint_nonneg by lia.
    destruct (fmtDigits_head v Hpos) as (c & rest & Hcr & Hc).
    pose proof (ParseUint_fmtDigits v) as HP. rewrite Hcr in *.
    destruct (isDigit_not_sign c Hc) as [Hplus Hminus].
    unfold ParseInt. rewrite Hplus, Hminus. cbn [orb andb negb].
    rewrite HP by (unfold maxUint64; lia).
    destruct (Z.leb_spec (2 ^ 63) v); [lia|]. done.
Qed.

(** *** Trimming *)

Lemma firstStrip_ascii (pats : list (list Z)) (c : ascii) (s : bytes) :
  Forall (fun p => exists x p', p = x :: p' /\ 128 <= x) pats ->
  code c < 128 ->
  firstStrip pats (c :: s) = None.
Proof.
  intros Hp Hc. induction Hp as [|p pats (x & p' & -> & Hx) _ IH]; cbn; [done|].
  destruct (Z.eqb_spec (code c) x); [lia|]. exact IH.
Qed.

Lemma unicodeSpaces_high :
  Forall (fun p => exists x p', p = x :: p' /\ 128 <= x) unicodeSpaces.
Proof. unfold unicodeSpaces. repeat constructor; eexists _, _; (split; [reflexivity|lia]). Qed.

Lemma unicodeSpaces_rev_high :
  Forall (fun p => exists x p', p = x :: p' /\ 128 <= x) (map (@rev Z) unicodeSpaces).
Proof. cbn. repeat constructor; eexists _, _; (split; [reflexivity|lia]). Qed.

Lemma numChar_not_space (c : ascii) :
  numChar c = true -> asciiSpace c = false /\ code c < 128.
Proof.
  unfold numChar. intros H. apply orb_prop in H as [H|H].
  - apply isDigit_range in H. unfold asciiSpace. cbn.
    split; [|lia].
    repeat (rewrite (proj2 (Z.eqb_neq (code c) _)) by lia). done.
  - apply Ascii.eqb_eq in H as ->.
    split; [reflexivity | change (code "-") with 45; lia].
Qed.

Lemma trimLeading_keep (fuel : nat) (pats : list (list Z)) (c : ascii) (s : bytes) :
  Forall (fun p => exists x p', p = x :: p' /\ 128 <= x) pats ->
  numChar c = true ->
  trimLeading fuel pats (c :: s) = c :: s.
Proof.
  intros Hp Hc. destruct (numChar_not_space c Hc) as [Hsp Hlow].
  destruct fuel; cbn; [done|].
  rewrite Hsp. destruct pats as [|p pats]; [done|].
  change (match firstStrip (p :: pats) (c :: s) with
          | Some rest => trimLeading fuel (p :: pats) rest
          | None => c :: s end = c :: s).
  by rewrite firstStrip_ascii.
Qed.

(** [strings.TrimSpace] leaves a string alone that starts and ends with a
    digit or a sign. *)
Lemma TrimSpace_numeric (s : bytes) :
  s <> [] -> Forall (fun c => numChar c = true) s -> TrimSpace s = s.
Proof.
  intros Hne Hall. unfold TrimSpace, TrimLeft, TrimRight.
  destruct s as [|c s]; [done|].
  rewrite trimLeading_keep; [|apply unicodeSpaces_high|by inversion Hall].
  assert (Hrev : Forall (fun c => numChar c = true) (rev (c :: s))).
  { apply Forall_forall. intros x Hx. rewrite list_elem_of_In, <- in_rev in Hx.
    rewrite Forall_forall in Hall. apply Hall. by apply list_elem_of_In. }
  destruct (rev (c :: s)) as [|c' s'] eqn:E.
  { apply (f_equal (@length ascii)) in E. rewrite length_rev in E. done. }
  rewrite trimLeading_keep; [|apply unicodeSpaces_rev_high|by inversion Hrev].
  by rewrite <- E, rev_involutive.
Qed.

Lemma Sprint_not_nil (v : Z) : Sprint v <> [].
Proof.
  destruct (Z.lt_ge_cases v 0).
  - by rewrite Sprint_neg.
  - rewrite Sprint_nonneg by done.
    destruct (fmtDigits_head v) as (c & rest & -> & _); done.
Qed.

Lemma TrimSpace_Sprint (v : Z) : TrimSpace (Sprint v) = Sprint v.
Proof.
  apply TrimSpace_numeric; [apply Sprint_not_nil | apply fmtInteger_numChars].
Qed.

Lemma Sprint_length_mono (u v : Z) :
  0 <= u <= v -> (length (Sprint u) <= length (Sprint v))%nat.
Proof.
  intros H. rewrite !Sprint_nonneg by lia. by apply fmtDigits_length_mono.
Qed.

End GoLibFacts.

(** * The machine is the program *)

Module ProgFacts.

Lemma sameProg_refl {A : Type} (p : Prog A) : sameProg p p.
Proof. induction p as [a|X op k IH]; cbn; [done|]. by exists k. Qed.

Lemma run_sameProg {A : Type} (p : Prog A) :
  forall q w, sameProg p q -> run q w = run p w.
Proof.
  induction p as [a|X op k IH]; cbn; intros q w Hq.
  - by subst q.
  - destruct Hq as (k' & -> & Hk). cbn.
    destruct (exec op w) as [[x w']|]; [|done]. by apply IH.
Qed.

Lemma threadStep_sameProg {A : Type} (p q q' : Prog A) (w w' : World) :
  sameProg p q -> threadStep q w = Some (q', w') ->
  exists p', threadStep p w = Some (p', w') /\ sameProg p' q'.
Proof.
  destruct p as [a|X op k]; cbn; intros Hq Hstep.
  - by subst q.
  - destruct Hq as (k' & -> & Hk). cbn in Hstep.
    destruct (exec op w) as [[x w1]|]; [|done].
    injection Hstep as <- <-. by exists (k x).
Qed.

Lemma sameProg_Ret {A : Type} (p : Prog A) (a : A) :
  sameProg p (Ret a) -> p = Ret a.
Proof.
  destruct p as [b|X op k]; cbn.
  - by intros [= ->].
  - by intros (k' & Hk & _).
Qed.

Lemma insideCS_sameProg {A : Type} (p q : Prog A) :
  sameProg p q -> Pool.insideCS q = Pool.insideCS p.
Proof.
  destruct p as [a|X op k]; cbn.
  - by intros ->.
  - by intros (k' & -> & _).
Qed.

End ProgFacts.

Module MachineFacts.
Import Machine ProgFacts.

Section WithRoutes.

Variable hr : HttpRoutes.

Ltac unfold_code :=
  unfold codeOpenCounter, codeReadCounter, codeSeek, codeWriteCounter,
    codeAfterWriteCounter, codeOpenPaste, codeWritePaste, codeClosePaste,
    codeCloseCounter, codeUnlock, recovered.

Ltac same_step res :=
  cbn; unfold_code; cbn; eexists; split; [reflexivity|]; intros res.

(** The rest of a program that has no more decisions to take. *)
Ltac same_rest :=
  repeat (cbn; unfold_code; cbn;
          first [reflexivity | eexists; split; [reflexivity|]; intros ?]).

Lemma sameProg_AtLock (r : Request) :
  sameProg (code hr (AtLock r)) (CreatePasteReply hr r).
Proof.
  unfold CreatePasteReply, code. same_step u.
  unfold afterLock, CreatePasteLocked, parseRequest. cbn.
  destruct (if HasPrefix (ContentType r) (str "multipart/form-data") then _ else _)
    as [pasteContent|err]; cycle 1.
  { destruct (HasSuffix _ _); same_rest. }
  destruct (length pasteContent =? 0)%nat; [same_rest|].
  same_step res. destruct res as [counterFile|err]; [|same_rest].
  same_step res. destruct res as [content|err]; [|same_rest].
  unfold readValue.
  destruct (ParseInt (TrimSpace content)) as [value|];
    (same_step res; destruct res as [file|err]; [|same_rest];
     same_step res; destruct res as [[]|err]; [|same_rest];
     cbn; unfold_code;
     destruct (EncodeInt64 (hashidMaker hr) _) as [counterHash|err]; [|same_rest];
     same_step res; destruct res as [pasteFile|err]; [|same_rest];
     same_step res; destruct res as [[]|err]; same_rest).
Qed.

(** The program run alone is the machine run alone. *)
Lemma run_AtLock (r : Request) (w : World) :
  run (CreatePasteReply hr r) w = run (code hr (AtLock r)) w.
Proof. apply run_sameProg, sameProg_AtLock. Qed.

(** A step of the program at a point is the step of the machine. *)
Lemma threadStep_code (st : Stage) (w : World) :
  threadStep (code hr st) w =
  (fun '(st', w') => (code hr st', w')) <$> stageStep hr st w.
Proof.
  destruct st; cbn -[exec]; try done;
    (destruct (exec _ w) as [[res w']|]; cbn -[exec]; [|done]);
    try (by destruct res).
  - unfold afterLock. destruct (parseRequest r) as [pasteContent|err].
    + by destruct (length pasteContent =? 0)%nat.
    + by destruct (HasSuffix _ _).
  - destruct res as [[]|err]; [|done].
    unfold afterWriteCounter, codeAfterWriteCounter.
    by destruct (EncodeInt64 _ _).
Qed.

End WithRoutes.

End MachineFacts.

(** * File names *)

Module NameFacts.
Import GoLibFacts.

Lemma counterName_not_paste (k : Z) (h : bytes) : counterName <> pasteName k h.
Proof.
  unfold counterName, pasteName, Join. intros H.
  apply app_inv_head in H. apply app_inv_head in H. discriminate H.
Qed.

Lemma numChar_not_underscore (c : ascii) : numChar c = true -> c <> "_"%char.
Proof. intros H ->. discriminate H. Qed.

(** A string of digits and signs ends at the first underscore. *)
Lemma split_at_underscore (a a' b b' : bytes) :
  Forall (fun c => numChar c = true) a ->
  Forall (fun c => numChar c = true) a' ->
  a ++ "_"%char :: b = a' ++ "_"%char :: b' -> a = a' /\ b = b'.
Proof.
  intros Ha. revert a'. induction Ha as [|c a Hc Ha IH]; intros a' Ha' Heq.
  - destruct Ha' as [|c' a' Hc' Ha']; cbn in Heq.
    + by inversion Heq.
    + inversion Heq; subst. by apply numChar_not_underscore in Hc'.
  - destruct Ha' as [|c' a' Hc' Ha']; cbn in Heq.
    + inversion Heq; subst. by apply numChar_not_underscore in Hc.
    + inversion Heq; subst. destruct (IH a' Ha') as [-> ->]; done.
Qed.

Lemma pasteName_parts (k k' : Z) (h h' : bytes) :
  pasteName k h = pasteName k' h' -> Sprintf09d k = Sprintf09d k' /\ h = h'.
Proof.
  unfold pasteName, Join. intros H.
  apply app_inv_head in H. apply app_inv_head in H. apply app_inv_head in H.
  apply split_at_underscore in H; [done| |]; apply fmtInteger_numChars.
Qed.

Lemma pasteName_inj (k k' : Z) (h h' : bytes) :
  0 <= k <= maxInt64 -> 0 <= k' <= maxInt64 ->
  pasteName k h = pasteName k' h' -> k = k' /\ h = h'.
Proof.
  unfold maxInt64. intros Hk Hk' H. apply pasteName_parts in H as [H ->].
  split; [|done]. apply Sprintf09d_inj; [lia|lia|done].
Qed.

End NameFacts.

(** * The operations, inverted *)

Module ExecFacts.

Lemma writeAt_0_cover (data old : bytes) :
  (length old <= length data)%nat -> writeAt 0 data old = data.
Proof.
  intros H. unfold writeAt. cbn [take]. rewrite take_0. cbn.
  rewrite drop_ge by lia. by rewrite app_nil_r.
Qed.

Lemma exec_lock (w : World) (u : unit) (w' : World) :
  exec OpLock w = Some (u, w') ->
  lock w = false /\ lock w' = true /\ files w' = files w.
Proof. cbn. destruct (lock w) eqn:E; [done|]. by intros [= <- <-]. Qed.

Lemma exec_unlock (w : World) (u : unit) (w' : World) :
  exec OpUnlock w = Some (u, w') -> lock w' = false /\ files w' = files w.
Proof. cbn. by intros [= <- <-]. Qed.

Lemma exec_close (f : File) (w : World) (u : unit) (w' : World) :
  exec (OpClose f) w = Some (u, w') -> lock w' = lock w /\ files w' = files w.
Proof. cbn. by intros [= <- <-]. Qed.

Lemma exec_open_create (name : bytes) (w : World) (res : result File) (w' : World) :
  exec (OpOpenFile name true) w = Some (res, w') ->
  lock w' = lock w /\
  ((exists e, res = Err e /\ files w' = files w) \/
   (res = Ok (mkFile name 0) /\
    ((is_Some (files w !! name) /\ files w' = files w) \/
     (files w !! name = None /\ files w' = <[name := []]> (files w))))).
Proof.
  cbn. destruct (faults w) as [|[e|] fl] eqn:Hf; unfold nextFault; cbn; rewrite Hf; cbn.
  - destruct (files w !! name) eqn:E; intros [= <- <-]; cbn; eauto 8.
  - intros [= <- <-]; cbn; eauto 8.
  - destruct (files w !! name) eqn:E; intros [= <- <-]; cbn; eauto 8.
Qed.

Lemma exec_readAll (f : File) (w : World) (res : result bytes) (w' : World) :
  exec (OpReadAll f) w = Some (res, w') ->
  lock w' = lock w /\ files w' = files w /\
  ((exists e, res = Err e) \/
   res = Ok (drop (fpos f) (default [] (files w !! fname f)))).
Proof.
  cbn. destruct (faults w) as [|[e|] fl] eqn:Hf; unfold nextFault; cbn; rewrite Hf; cbn;
    intros [= <- <-]; cbn; eauto 8.
Qed.

Lemma exec_seek (f : File) (offset : nat) (w : World) (res : result File) (w' : World) :
  exec (OpSeek f offset) w = Some (res, w') ->
  lock w' = lock w /\ files w' = files w /\
  ((exists e, res = Err e) \/ res = Ok (mkFile (fname f) offset)).
Proof.
  cbn. destruct (faults w) as [|[e|] fl] eqn:Hf; unfold nextFault; cbn; rewrite Hf; cbn;
    intros [= <- <-]; cbn; eauto 8.
Qed.

Lemma exec_write (f : File) (data : bytes) (w : World) (res : result unit) (w' : World) :
  exec (OpWrite f data) w = Some (res, w') ->
  lock w' = lock w /\
  ((exists e, res = Err e /\ files w' = files w) \/
   (res = Ok tt /\
    files w' = <[fname f := writeAt (fpos f) data (default [] (files w !! fname f))]> (files w))).
Proof.
  cbn. destruct (faults w) as [|[e|] fl] eqn:Hf; unfold nextFault; cbn; rewrite Hf; cbn;
    intros [= <- <-]; cbn; eauto 8.
Qed.

End ExecFacts.

(** * The store invariant *)

Module StoreFacts.
Import GoLibFacts NameFacts ExecFacts Machine.

Lemma wrap64_small (z : Z) : minInt64 <= z <= maxInt64 -> wrap64 z = z.
Proof.
  unfold minInt64, maxInt64, wrap64. intros H.
  rewrite Z.mod_small by lia. lia.
Qed.

Lemma readValue_nil : readValue [] = 0.
Proof. reflexivity. Qed.

Lemma readValue_Sprint (n : Z) :
  minInt64 <= n <= maxInt64 -> readValue (Sprint n) = n.
Proof.
  intros H. unfold readValue. by rewrite TrimSpace_Sprint, ParseInt_Sprint.
Qed.

Lemma counterValue_insert_ne (name : bytes) (x : bytes) (fs : gmap bytes bytes) :
  name <> counterName -> counterValue (<[name := x]> fs) = counterValue fs.
Proof. intros H. unfold counterValue. by rewrite lookup_insert_ne. Qed.

Lemma counterValue_insert (x : bytes) (fs : gmap bytes bytes) :
  counterValue (<[counterName := x]> fs) = readValue x.
Proof. unfold counterValue. by rewrite lookup_insert_eq. Qed.

Lemma counterValue_absent (fs : gmap bytes bytes) :
  fs !! counterName = None -> counterValue fs = 0.
Proof. intros H. unfold counterValue. by rewrite H. Qed.

(** Under the invariant the record is empty, or the text of its value. *)
Lemma counter_content (fs : gmap bytes bytes) (content : bytes) :
  counterText fs -> fs !! counterName = Some content ->
  0 <= counterValue fs <= maxInt64 /\
  (content = [] \/ content = Sprint (counterValue fs)).
Proof.
  intros Ht Hc. unfold counterValue. rewrite Hc. cbn.
  destruct (Ht _ Hc) as [->|(n & Hn & ->)].
  - rewrite readValue_nil. unfold maxInt64. split; [lia | by left].
  - rewrite readValue_Sprint by (unfold minInt64; lia). split; [lia | by right].
Qed.

Lemma counterValue_range (fs : gmap bytes bytes) :
  counterText fs -> 0 <= counterValue fs <= maxInt64.
Proof.
  intros Ht. destruct (fs !! counterName) as [content|] eqn:E.
  - by destruct (counter_content fs content Ht E).
  - rewrite counterValue_absent by done. unfold maxInt64. lia.
Qed.

Section WithRoutes.

Variable hr : HttpRoutes.

Lemma storeOk_empty : storeOk hr ∅.
Proof.
  split; [intros content H | intros name content H];
    by rewrite lookup_empty in H.
Qed.

Lemma storeOk_create_counter (fs : gmap bytes bytes) :
  storeOk hr fs -> fs !! counterName = None ->
  storeOk hr (<[counterName := []]> fs) /\
  counterValue (<[counterName := []]> fs) = counterValue fs.
Proof.
  intros [Ht Hp] Habs.
  assert (Hv : counterValue (<[counterName := []]> fs) = counterValue fs).
  { by rewrite counterValue_insert, counterValue_absent. }
  split; [split|done].
  - intros content. rewrite lookup_insert_eq. intros [= <-]. by left.
  - intros name content. rewrite Hv.
    destruct (decide (name = counterName)) as [->|Hne]; [by left|].
    rewrite lookup_insert_ne by done. apply Hp.
Qed.

(** Writing the next ordinal over the record leaves exactly its text. *)
Lemma counter_overwrite (fs : gmap bytes bytes) :
  counterText fs -> counterValue fs < maxInt64 ->
  writeAt 0 (Sprint (counterValue fs + 1)) (default [] (fs !! counterName))
  = Sprint (counterValue fs + 1).
Proof.
  intros Ht Hlt. apply writeAt_0_cover.
  destruct (fs !! counterName) as [content|] eqn:E; cbn; [|lia].
  destruct (counter_content fs content Ht E) as [Hr [->| ->]]; cbn; [lia|].
  apply Sprint_length_mono. lia.
Qed.

Lemma storeOk_write_counter (fs : gmap bytes bytes) :
  storeOk hr fs -> counterValue fs < maxInt64 ->
  let fs' := <[counterName := Sprint (counterValue fs + 1)]> fs in
  storeOk hr fs' /\ counterValue fs' = counterValue fs + 1.
Proof.
  intros [Ht Hp] Hlt fs'. pose proof (counterValue_range fs Ht) as Hr.
  assert (Hv : counterValue fs' = counterValue fs + 1).
  { unfold fs'. rewrite counterValue_insert.
    apply readValue_Sprint. unfold minInt64. lia. }
  split; [split|done].
  - intros content. unfold fs'. rewrite lookup_insert_eq. intros [= <-].
    right. exists (counterValue fs + 1). split; [lia|done].
  - intros name content. rewrite Hv.
    destruct (decide (name = counterName)) as [->|Hne]; [by left|].
    unfold fs'. rewrite lookup_insert_ne by done. intros Hl.
    destruct (Hp _ _ Hl) as [->|(k & h & -> & Hk & He)]; [done|].
    right. exists k, h. split; [done|]. split; [lia|done].
Qed.

Lemma storeOk_paste (fs : gmap bytes bytes) (c : Z) (h x : bytes) :
  storeOk hr fs -> 1 <= c <= counterValue fs ->
  EncodeInt64 (hashidMaker hr) [c] = Ok h ->
  storeOk hr (<[pasteName c h := x]> fs) /\
  counterValue (<[pasteName c h := x]> fs) = counterValue fs.
Proof.
  intros [Ht Hp] Hc He.
  assert (Hne : pasteName c h <> counterName).
  { intros Heq. by apply (counterName_not_paste c h). }
  assert (Hv : counterValue (<[pasteName c h := x]> fs) = counterValue fs).
  { by apply counterValue_insert_ne. }
  split; [split|done].
  - intros content. rewrite lookup_insert_ne by done. apply Ht.
  - intros name content. rewrite Hv.
    destruct (decide (name = pasteName c h)) as [->|Hn].
    + intros _. right. by exists c, h.
    + rewrite lookup_insert_ne by done. apply Hp.
Qed.

(** The record of an ordinal not yet counted does not exist. *)
Lemma paste_fresh (fs : gmap bytes bytes) (c : Z) (h : bytes) :
  storeOk hr fs -> counterValue fs < c <= maxInt64 ->
  fs !! pasteName c h = None.
Proof.
  intros [Ht Hp] Hc. pose proof (counterValue_range fs Ht) as Hr.
  destruct (fs !! pasteName c h) as [content|] eqn:E; [|done].
  destruct (Hp _ _ E) as [Heq|(k & h' & Heq & Hk & _)].
  - symmetry in Heq. by apply counterName_not_paste in Heq.
  - apply pasteName_inj in Heq as [-> _]; lia.
Qed.

End WithRoutes.

End StoreFacts.

(** * One step of a thread *)

Module StepFacts.
Import GoLibFacts NameFacts ExecFacts StoreFacts Machine Pool.

Section WithRoutes.

Variable hr : HttpRoutes.

Lemma afterLock_cases (r : Request) :
  (exists res, afterLock r = AtUnlock res /\ createdOrdinal res = None) \/
  (exists pasteContent, afterLock r = AtOpenCounter pasteContent).
Proof.
  unfold afterLock. destruct (parseRequest r) as [pasteContent|err].
  - destruct (length pasteContent =? 0)%nat; eauto.
  - destruct (HasSuffix _ _); eauto.
Qed.

Lemma createdOrdinal_recovered (res : result Reply) :
  createdOrdinal (Ok (recovered res)) = createdOrdinal res.
Proof. by destruct res. Qed.

Ltac step_start E :=
  unfold stageStep;
  match goal with
  | |- (exec ?op ?w ≫= _) = Some _ -> _ =>
      destruct (exec op w) as [[?res ?w1]|] eqn:E; cbn; [|done]
  end;
  intros [= <- <-].

Lemma stageStep_ok (st : Stage) (w : World) (st' : Stage) (w' : World) :
  stageStep hr st w = Some (st', w') ->
  storeOk hr (files w) ->
  stageOk hr st (files w) ->
  counterValue (files w) + pending st <= maxInt64 ->
  (inCS st = true -> lock w = true) ->
  (forall c, owned st = Some c -> 1 <= c <= counterValue (files w)) ->
  stepOk hr st w st' w'.
Proof.
  intros Hstep Hstore Hstage Hbound Hlock Hown.
  pose proof (counterValue_range _ (proj1 Hstore)) as Hrange.
  destruct st; cbn [pending inCS owned stageOk] in *.
  - (* Lock *)
    revert Hstep. step_start E.
    apply exec_lock in E as (Hl & Hl' & Hf).
    destruct (afterLock_cases r) as [(res' & -> & Hres)|(pasteContent & ->)];
      split; cbn; rewrite ?Hf, ?Hres; try done; try lia.
  - (* open the counter *)
    revert Hstep. step_start E.
    apply exec_open_create in E
      as (Hl & [(e & -> & Hf)|(-> & [(Hsome & Hf)|(Hnone & Hf)])]).
    + split; cbn; rewrite ?Hf; try done; try lia. by rewrite Hl, Hlock.
    + split; cbn; rewrite ?Hf; try done; try lia. by rewrite Hl, Hlock.
    + destruct (storeOk_create_counter hr _ Hstore Hnone) as [Hs Hv].
      split; cbn; rewrite ?Hf, ?Hv; try done; try lia. by rewrite Hl, Hlock.
  - (* read the counter *)
    subst counterFile. revert Hstep. step_start E.
    apply exec_readAll in E as (Hl & Hf & [(e & ->)| ->]).
    + split; cbn; rewrite ?Hf; try done; try lia. by rewrite Hl, Hlock.
    + split; cbn; rewrite ?Hf; try done; try lia; [|by rewrite Hl, Hlock].
      split; [done|]. rewrite drop_0. fold (counterValue (files w)).
      apply wrap64_small. unfold minInt64. lia.
  - (* seek *)
    destruct Hstage as [-> ->]. revert Hstep. step_start E.
    apply exec_seek in E as (Hl & Hf & [(e & ->)| ->]).
    + split; cbn; rewrite ?Hf; try done; try lia. by rewrite Hl, Hlock.
    + split; cbn; rewrite ?Hf; try done; try lia. by rewrite Hl, Hlock.
  - (* write the counter *)
    destruct Hstage as [-> ->]. revert Hstep. step_start E.
    apply exec_write in E as (Hl & [(e & -> & Hf)|(-> & Hf)]).
    + split; cbn; rewrite ?Hf; try done; try lia. by rewrite Hl, Hlock.
    + cbn [fname fpos] in Hf.
      rewrite counter_overwrite in Hf; [|by destruct Hstore|lia].
      destruct (storeOk_write_counter hr _ Hstore) as [Hs Hv]; [lia|].
      cbn zeta in Hs, Hv. unfold afterWriteCounter.
      destruct (EncodeInt64 (hashidMaker hr) _) as [counterHash|err] eqn:He;
        split; cbn; rewrite ?Hf, ?Hv; try done; try lia;
        try (by rewrite Hl, Hlock).
      * split; [done|]. split; [lia|done].
      * intros c [= <-]. split; [lia|]. right. lia.
  - (* open the paste *)
    destruct Hstage as (-> & Hone & He). revert Hstep. step_start E.
    apply exec_open_create in E
      as (Hl & [(e & -> & Hf)|(-> & [(Hsome & Hf)|(Hnone & Hf)])]).
    + split; cbn; rewrite ?Hf; try done; try lia. by rewrite Hl, Hlock.
    + split; cbn; rewrite ?Hf; try done; try lia; [|by rewrite Hl, Hlock].
      intros c [= <-]. split; [lia|by left].
    + destruct (storeOk_paste hr _ _ _ [] Hstore (conj Hone (Z.le_refl _)) He)
        as [Hs Hv].
      split; cbn; rewrite ?Hf, ?Hv; try done; try lia; [|by rewrite Hl, Hlock].
      intros c [= <-]. split; [lia|by left].
  - (* write the paste *)
    destruct Hstage as (-> & Hone & He & ->). revert Hstep. step_start E.
    apply exec_write in E as (Hl & [(e & -> & Hf)|(-> & Hf)]).
    + split; cbn; rewrite ?Hf; try done; try lia. by rewrite Hl, Hlock.
    + cbn [fname fpos] in Hf.
      destruct (storeOk_paste hr _ _ _
                  (writeAt 0 pasteContent
                     (default [] (files w !! pasteName (counterValue (files w)) counterHash)))
                  Hstore (conj Hone (Z.le_refl _)) He) as [Hs Hv].
      split; cbn; rewrite ?Hf, ?Hv; try done; try lia;
        try (by rewrite Hl, Hlock).
      * by intros c [= <-].
      * intros c [= <-]. split; [lia|by left].
  - (* close the paste *)
    revert Hstep. step_start E.
    apply exec_close in E as (Hl & Hf).
    split; cbn; rewrite ?Hf; try done; try lia; [|by rewrite Hl, Hlock].
    intros c Hc. split; [by apply Hown | by left].
  - (* close the counter *)
    revert Hstep. step_start E.
    apply exec_close in E as (Hl & Hf).
    split; cbn; rewrite ?Hf; try done; try lia; [|by rewrite Hl, Hlock].
    intros c Hc. split; [by apply Hown | by left].
  - (* Unlock *)
    revert Hstep. step_start E.
    apply exec_unlock in E as (Hl & Hf).
    split; cbn -[recovered]; rewrite ?Hf; try done; try lia.
    change (forall c, createdOrdinal (Ok (recovered res)) = Some c ->
              1 <= c <= counterValue (files w) /\
              (createdOrdinal res = Some c \/
               counterValue (files w) < c /\ c = counterValue (files w))).
    rewrite createdOrdinal_recovered.
    intros c Hc. split; [by apply Hown | by left].
  - done.
Qed.

End WithRoutes.

End StepFacts.

(** * A request served alone *)

Module SequentialFacts.
Import GoLibFacts NameFacts ExecFacts StoreFacts Machine Pool MachineFacts StepFacts Sequential.

Section WithRoutes.

Variable hr : HttpRoutes.

Lemma run_step (st : Stage) (w : World) :
  run (code hr st) w =
  match stageStep hr st w with
  | Some (st', w') => run (code hr st') w'
  | None => match st with Done reply => Some (reply, w) | _ => None end
  end.
Proof.
  pose proof (threadStep_code hr st w) as H.
  destruct st; cbn -[exec stageStep] in *; try done;
    (destruct (exec _ w) as [[x w1]|] eqn:E; cbn -[exec stageStep] in *;
     [|by destruct (stageStep _ _ _)]);
    (destruct (stageStep _ _ _) as [[st' w']|]; cbn in H; [|done]);
    by injection H as <- <-.
Qed.

Lemma stageStep_remaining (st : Stage) (w : World) (st' : Stage) (w' : World) :
  stageStep hr st w = Some (st', w') -> (remaining st' < remaining st)%nat.
Proof.
  destruct st; cbn -[exec]; try done;
    (destruct (exec _ w) as [[x w1]|]; cbn; [|done]); intros [= <- <-];
    try (destruct x; cbn; lia).
  - destruct (afterLock_cases r) as [(res' & -> & _)|(pasteContent & ->)]; cbn; lia.
  - destruct x as [[]|err]; cbn; [|lia].
    unfold afterWriteCounter. destruct (EncodeInt64 _ _); cbn; lia.
Qed.

Lemma stageStep_enabled (st : Stage) (w : World) :
  lock w = inCS st -> remaining st <> 0%nat -> is_Some (stageStep hr st w).
Proof.
  intros Hl Hr. destruct st; cbn -[exec] in *; try done.
  - cbn. rewrite Hl. eauto.
  - cbn. destruct (nextFault _) as [[e|] w1]; [eauto|].
    destruct (files w1 !! _); eauto.
  - cbn. destruct (nextFault _) as [[e|] w1]; eauto.
  - cbn. destruct (nextFault _) as [[e|] w1]; eauto.
  - cbn. destruct (nextFault _) as [[e|] w1]; eauto.
  - cbn. destruct (nextFault _) as [[e|] w1]; [eauto|].
    destruct (files w1 !! _); eauto.
  - cbn. destruct (nextFault _) as [[e|] w1]; eauto.
Qed.

(** A property the steps keep holds when the thread is done. *)
Lemma run_code_inv (P : Stage -> World -> Prop) :
  (forall st w st' w', P st w -> stageStep hr st w = Some (st', w') -> P st' w') ->
  forall st w reply w',
    P st w -> run (code hr st) w = Some (reply, w') -> P (Done reply) w'.
Proof.
  intros Hkeep st. remember (remaining st) as n eqn:Hn.
  revert st Hn. induction n as [n IH] using lt_wf_ind.
  intros st -> w reply w' HP. rewrite run_step.
  destruct (stageStep hr st w) as [[st1 w1]|] eqn:E.
  - apply (IH (remaining st1)); [by eapply stageStep_remaining|done|].
    by eapply Hkeep.
  - destruct st; try done. by intros [= <- <-].
Qed.

Lemma pending_range (st : Stage) : 0 <= pending st <= 1.
Proof. destruct st; cbn; lia. Qed.

Lemma onTheWay_step (c0 : Z) (st : Stage) (w : World) (st' : Stage) (w' : World) :
  c0 < maxInt64 ->
  onTheWay hr c0 st w -> stageStep hr st w = Some (st', w') ->
  onTheWay hr c0 st' w'.
Proof.
  intros Hc0 (Hstore & Hstage & Hlock & Hlo & Hhi & Hown) Hstep.
  pose proof (counterValue_range _ (proj1 Hstore)) as Hrange.
  pose proof (pending_range st). pose proof (pending_range st').
  destruct (stageStep_ok hr st w st' w' Hstep Hstore Hstage) as [? ? ? ? Ho ? ?].
  - lia.
  - intros Hin. by rewrite Hlock.
  - intros c Hc. destruct (Hown c Hc). lia.
  - assert (Hnew : forall c, owned st' = Some c ->
                c = c0 + 1 /\ counterValue (files w') = c0 + 1).
    { intros c Hc. destruct (Ho c Hc) as [_ [Hold|[? ?]]]; [|lia].
      destruct (Hown c Hold). lia. }
    split; [done|]. split; [done|]. split; [done|].
    split; [lia|]. split; [lia|]. exact Hnew.
Qed.

(** The thread keeps stepping until it is done: [CreatePaste] returns. *)
Lemma run_code_total (c0 : Z) (st : Stage) (w : World) :
  c0 < maxInt64 -> onTheWay hr c0 st w -> is_Some (run (code hr st) w).
Proof.
  intros Hc0. remember (remaining st) as n eqn:Hn.
  revert st w Hn. induction n as [n IH] using lt_wf_ind.
  intros st w -> Hway. rewrite run_step.
  destruct (decide (remaining st = 0%nat)) as [Hz|Hnz].
  - by destruct st.
  - destruct (stageStep_enabled st w) as [[st1 w1] E]; [by apply Hway|done|].
    rewrite E. eapply IH; [by eapply stageStep_remaining|done|].
    by eapply onTheWay_step.
Qed.

Lemma onTheWay_start (r : Request) (w : World) :
  worldOk hr w -> onTheWay hr (counterValue (files w)) (AtLock r) w.
Proof.
  intros [Hs Hl]. pose proof (counterValue_range _ (proj1 Hs)).
  split; [done|]. split; [done|]. split; [done|].
  split; [lia|]. split; [cbn; lia|]. by intros c.
Qed.

(** One request: the store stays well formed, the counter moves by at
    most one, and a created paste has the next ordinal. *)
Lemma CreatePasteReply_spec (r : Request) (w : World) :
  worldOk hr w -> counterValue (files w) < maxInt64 ->
  exists reply w',
    run (CreatePasteReply hr r) w = Some (reply, w') /\
    worldOk hr w' /\
    counterValue (files w) <= counterValue (files w') <= counterValue (files w) + 1 /\
    (forall c h, reply = ReplyCreated c h ->
       c = counterValue (files w) + 1 /\ counterValue (files w') = c).
Proof.
  intros Hok Hlt. pose proof (onTheWay_start r w Hok) as Hstart.
  rewrite run_AtLock.
  destruct (run_code_total _ _ _ Hlt Hstart) as [[reply w'] Hrun].
  exists reply, w'. split; [done|].
  pose proof (run_code_inv (onTheWay hr (counterValue (files w)))) as Hinv.
  destruct (Hinv (fun st w1 st' w1' => onTheWay_step _ st w1 st' w1' Hlt)
              _ _ _ _ Hstart Hrun) as (Hs & _ & Hl & Hlo & Hhi & Hown).
  cbn in Hhi, Hl. split; [by split|]. split; [lia|].
  intros c h ->. destruct (Hown c eq_refl). lia.
Qed.

End WithRoutes.

End SequentialFacts.

(** * An allocation that meets no failure *)

Module AllocationFacts.
Import GoLibFacts NameFacts ExecFacts StoreFacts Machine Pool MachineFacts StepFacts
       Sequential SequentialFacts.

Local Arguments counterName : simpl never.
Local Arguments pasteName : simpl never.
Local Arguments Sprint : simpl never.
Local Arguments writeAt : simpl never.
Local Arguments readValue : simpl never.
Local Arguments wrap64 : simpl never.
Local Arguments counterValue : simpl never.

(** Worlds are kept in constructor form after every step. *)
Ltac tidy :=
  unfold logEvent, setFiles, setLock, setFaults;
  cbn [files lock addrTimeMap clock faults trace].

Ltac step := rewrite run_step; cbn -[code run]; tidy.

Section WithRoutes.

Variable hr : HttpRoutes.

(** From the read of the counter on. *)
Lemma run_from_read (content h : bytes) (fs : gmap bytes bytes)
    (atm : gmap bytes Z) (clk : list Z) (tr : list Event) :
  let c := counterValue fs + 1 in
  storeOk hr fs -> counterValue fs < maxInt64 ->
  EncodeInt64 (hashidMaker hr) [c] = Ok h ->
  run (code hr (AtReadCounter content (mkFile counterName 0)))
      (mkWorld fs true atm clk [] tr) =
  Some (ReplyCreated c h,
        mkWorld (<[pasteName c h := content]> (<[counterName := Sprint c]> fs))
                false atm clk []
                (tr ++ [EvReadAll counterName; EvSeek counterName;
                        EvWrite counterName 0 (Sprint c);
                        EvOpen (pasteName c h); EvWrite (pasteName c h) 0 content;
                        EvClose (pasteName c h); EvClose counterName; EvUnlock])).
Proof.
  intros c Hstore Hlt Henc. subst c.
  pose proof (counterValue_range _ (proj1 Hstore)) as Hrange.
  assert (Hfresh : fs !! pasteName (counterValue fs + 1) h = None).
  { apply (paste_fresh hr); [done|]. lia. }
  step. rewrite drop_0.
  fold (counterValue fs). rewrite wrap64_small by (unfold minInt64; lia).
  step.
  step.
  rewrite counter_overwrite; [|by destruct Hstore|done].
  unfold afterWriteCounter. rewrite Henc.
  step.
  rewrite lookup_insert_ne by apply counterName_not_paste. rewrite Hfresh.
  cbn -[code run]. tidy.
  step.
  rewrite lookup_insert_eq. cbn [default].
  rewrite writeAt_0_cover by (cbn; lia). rewrite insert_insert_eq.
  step.
  step.
  step.
  rewrite run_step. cbn -[code run]. tidy. cbn [code run].
  rewrite <- !app_assoc. reflexivity.
Qed.

Lemma run_created (r : Request) (w : World) (content h : bytes) :
  worldOk hr w -> noFaults w ->
  counterValue (files w) < maxInt64 ->
  parseRequest r = Ok content -> content <> [] ->
  EncodeInt64 (hashidMaker hr) [counterValue (files w) + 1] = Ok h ->
  run (CreatePasteReply hr r) w =
  Some (ReplyCreated (counterValue (files w) + 1) h,
        allocatedWorld w (counterValue (files w) + 1) h content).
Proof.
  intros [Hstore Hlock] Hnf Hlt Hparse Hne Henc.
  destruct w as [fs lk atm clk fl tr]. cbn in Hstore, Hlock, Hnf, Hlt, Henc.
  unfold noFaults in Hnf. cbn in Hnf. subst lk fl.
  unfold allocatedWorld, allocationTrace. cbn [files addrTimeMap clock trace].
  rewrite run_AtLock.
  rewrite run_step. cbn -[afterLock code run]. tidy.
  unfold afterLock. rewrite Hparse.
  destruct content as [|c0 content0]; [done|]. cbn [length Nat.eqb].
  set (content := c0 :: content0) in *.
  step.
  destruct (fs !! counterName) as [old|] eqn:Hold; cbn -[code run]; tidy.
  - rewrite (run_from_read content h) by done. cbn zeta.
    rewrite <- !app_assoc. reflexivity.
  - destruct (storeOk_create_counter hr fs Hstore Hold) as [Hs' Hv'].
    rewrite (run_from_read content h); rewrite ?Hv'; try done. cbn zeta.
    rewrite insert_insert_eq, <- !app_assoc. reflexivity.
Qed.

End WithRoutes.

End AllocationFacts.

(** * The claims about a single request *)

Module RequestClaims.
Import GoLibFacts NameFacts ExecFacts StoreFacts Machine Pool MachineFacts StepFacts
       Sequential SequentialFacts AllocationFacts.

Local Arguments counterName : simpl never.
Local Arguments pasteName : simpl never.
Local Arguments Sprint : simpl never.
Local Arguments writeAt : simpl never.
Local Arguments readValue : simpl never.
Local Arguments wrap64 : simpl never.
Local Arguments counterValue : simpl never.

Lemma run_bind {A B : Type} (p : Prog A) (f : A -> Prog B) (w : World) :
  run (bind p f) w =
  match run p w with
  | Some (a, w') => run (f a) w'
  | None => None
  end.
Proof.
  revert w. induction p as [a|X op k IH]; intros w; cbn; [done|].
  destruct (exec op w) as [[x w']|]; [apply IH|done].
Qed.

Lemma run_CreatePaste (hr : HttpRoutes) (r : Request) (w : World) :
  run (CreatePaste hr r) w =
  match run (CreatePasteReply hr r) w with
  | Some (reply, w') => Some (CreatePasteResponse r reply, w')
  | None => None
  end.
Proof.
  unfold CreatePaste. rewrite run_bind.
  by destruct (run (CreatePasteReply hr r) w) as [[reply w']|].
Qed.

(** A request turned away after parsing touches nothing but the lock. *)
Lemma run_rejected (hr : HttpRoutes) (r : Request) (w : World) (res : result Reply) :
  lock w = false -> afterLock r = AtUnlock res ->
  run (CreatePasteReply hr r) w =
  Some (recovered res,
        logEvent EvUnlock (setLock false (logEvent EvLock (setLock true w)))).
Proof.
  intros Hl Ha. rewrite run_AtLock.
  rewrite run_step. cbn -[code run afterLock]. rewrite Hl, Ha. cbn -[code run].
  rewrite run_step. cbn -[code run]. by rewrite run_step.
Qed.

(** C4. An empty payload is answered with status 400 before the counter is
    touched: the only operations are taking and releasing the lock, the
    files (so the counter record and its value) are as before, and no
    file-system call was made. *)
Theorem C4_empty_payload_rejected (hr : HttpRoutes) (r : Request) (w : World) :
  lock w = false ->
  parseRequest r = Ok [] ->
  exists w',
    run (CreatePaste hr r) w =
      Some (mkResponse 400 [] (str "error: your paste is empty!" ++ nl), w') /\
    files w' = files w /\
    counterValue (files w') = counterValue (files w) /\
    faults w' = faults w /\
    trace w' = trace w ++ [EvLock; EvUnlock].
Proof.
  intros Hl Hparse. eexists. rewrite run_CreatePaste.
  rewrite (run_rejected hr r w (Ok ReplyEmpty)); [|done|].
  - split; [reflexivity|]. cbn. by rewrite <- app_assoc.
  - unfold afterLock. by rewrite Hparse.
Qed.

Lemma C4_empty_payload_rejected_witness :
  exists w',
    run (CreatePaste Demo.demoRoutes (Demo.post (str "10.0.0.1:40000") [])) Demo.emptyWorld =
      Some (mkResponse 400 [] (str "error: your paste is empty!" ++ nl), w') /\
    files w' = files Demo.emptyWorld /\
    counterValue (files w') = counterValue (files Demo.emptyWorld) /\
    faults w' = faults Demo.emptyWorld /\
    trace w' = trace Demo.emptyWorld ++ [EvLock; EvUnlock].
Proof.
  apply (C4_empty_payload_rejected Demo.demoRoutes
           (Demo.post (str "10.0.0.1:40000") []) Demo.emptyWorld).
  - reflexivity.
  - reflexivity.
Defined.

(** C10. When the counter file holds text that [strconv.ParseInt] refuses,
    [ReadCounter] returns 0 and no error, and the next allocation is
    answered with status 200 under ordinal 1; the new digit is written over
    the start of the old text. *)
Theorem C10_unparsable_counter_restarts (hr : HttpRoutes) (r : Request) (w : World)
    (garbage content h : bytes) :
  lock w = false -> noFaults w ->
  files w !! counterName = Some garbage ->
  ParseInt (TrimSpace garbage) = None ->
  parseRequest r = Ok content -> content <> [] ->
  EncodeInt64 (hashidMaker hr) [1] = Ok h ->
  (exists w1, run (ReadCounter (mkFile counterName 0)) w = Some (Ok 0, w1)) /\
  (exists w',
     run (CreatePaste hr r) w = Some (CreatePasteResponse r (ReplyCreated 1 h), w') /\
     Status (CreatePasteResponse r (ReplyCreated 1 h)) = 200 /\
     files w' !! counterName = Some (writeAt 0 (Sprint 1) garbage)).
Proof.
  intros Hl Hnf Hfile Hgarbage Hparse Hne Henc.
  destruct w as [fs lk atm clk fl tr]. unfold noFaults in Hnf. cbn in Hl, Hnf, Hfile.
  subst lk fl. split.
  - eexists. cbn -[TrimSpace ParseInt]. rewrite Hfile. cbn -[TrimSpace ParseInt].
    rewrite drop_0, Hgarbage. reflexivity.
  - rewrite run_CreatePaste, run_AtLock.
    rewrite run_step. cbn -[afterLock code run]. tidy.
    unfold afterLock. rewrite Hparse.
    destruct content as [|c0 content0]; [done|]. cbn [length Nat.eqb].
    step. rewrite Hfile. cbn -[code run]. tidy.
    step. rewrite Hfile. cbn -[code run]. tidy.
    rewrite drop_0. unfold readValue at 1. rewrite Hgarbage.
    change (wrap64 (0 + 1)) with 1.
    step.
    step. rewrite Hfile. cbn -[code run]. tidy.
    unfold afterWriteCounter. rewrite Henc.
    assert (Hnot : counterName <> pasteName 1 h) by apply counterName_not_paste.
    step. rewrite lookup_insert_ne by done.
    destruct (fs !! pasteName 1 h) as [old|] eqn:Hold; cbn -[code run]; tidy;
      (step;
       step;
       step;
       step;
       eexists; split; [reflexivity|]; split; [reflexivity|]; cbn;
       rewrite ?lookup_insert_ne by done; by rewrite lookup_insert_eq).
Qed.

Lemma C10_unparsable_counter_restarts_witness :
  (exists w1, run (ReadCounter (mkFile counterName 0)) DemoWorlds.garbageWorld
              = Some (Ok 0, w1)) /\
  (exists w',
     run (CreatePaste Demo.demoRoutes (Demo.post (str "10.0.0.1:40000") (str "hello")))
         DemoWorlds.garbageWorld
     = Some (CreatePasteResponse (Demo.post (str "10.0.0.1:40000") (str "hello"))
               (ReplyCreated 1 (str "id1")), w') /\
     Status (CreatePasteResponse (Demo.post (str "10.0.0.1:40000") (str "hello"))
               (ReplyCreated 1 (str "id1"))) = 200 /\
     files w' !! counterName = Some (writeAt 0 (Sprint 1) (str "abc"))).
Proof.
  apply (C10_unparsable_counter_restarts Demo.demoRoutes
           (Demo.post (str "10.0.0.1:40000") (str "hello"))
           DemoWorlds.garbageWorld (str "abc") (str "hello") (str "id1")).
  - reflexivity.
  - reflexivity.
  - apply lookup_singleton_eq.
  - reflexivity.
  - reflexivity.
  - discriminate.
  - reflexivity.
Defined.

(** ** Allocation *)

Lemma increasingFrom_weaken (l : list Z) (lo lo' : Z) :
  lo' <= lo -> increasingFrom lo l -> increasingFrom lo' l.
Proof. destruct l as [|x l]; cbn; [done|]. intros ? [? ?]. split; [lia|done]. Qed.

(** Requests served one after the other, whatever fails on the way, are
    all answered, and the ordinals handed out go up strictly. *)
Lemma serve_increasing (hr : HttpRoutes) (rs : list Request) :
  forall w,
    worldOk hr w ->
    counterValue (files w) + Z.of_nat (length rs) <= maxInt64 ->
    exists replies w',
      serve hr rs w = Some (replies, w') /\ worldOk hr w' /\
      increasingFrom (counterValue (files w)) (ordinals replies).
Proof.
  induction rs as [|r rs IH]; intros w Hok Hbound.
  - by exists [], w.
  - cbn [length] in Hbound. rewrite Nat2Z.inj_succ in Hbound.
    destruct (CreatePasteReply_spec hr r w Hok) as (reply & w1 & Hrun & Hok1 & Hcv & Hc);
      [lia|].
    destruct (IH w1 Hok1) as (replies & w2 & Hserve & Hok2 & Hinc); [lia|].
    exists (reply :: replies), w2. cbn [serve]. rewrite Hrun, Hserve.
    split; [done|]. split; [done|].
    destruct reply as [| |c h|msg]; cbn [ordinals];
      try (eapply increasingFrom_weaken; [|exact Hinc]; lia).
    destruct (Hc c h eq_refl) as [-> Hv]. rewrite Hv in Hinc.
    split; [lia|done].
Qed.

(** When the write of the paste fails the counter has been written. *)
Lemma run_from_read_burned (hr : HttpRoutes) (content h : bytes) (fs : gmap bytes bytes)
    (atm : gmap bytes Z) (clk : list Z) (tr : list Event) (e : error) :
  storeOk hr fs -> counterValue fs < maxInt64 ->
  EncodeInt64 (hashidMaker hr) [counterValue fs + 1] = Ok h ->
  exists w',
    run (code hr (AtReadCounter content (mkFile counterName 0)))
        (mkWorld fs true atm clk [None; None; None; None; Some e] tr)
    = Some (ReplyPanic (Error e), w') /\
    counterValue (files w') = counterValue fs + 1.
Proof.
  intros Hstore Hlt Henc.
  pose proof (counterValue_range _ (proj1 Hstore)) as Hrange.
  assert (Hnot : counterName <> pasteName (counterValue fs + 1) h)
    by apply counterName_not_paste.
  assert (Hnot' : pasteName (counterValue fs + 1) h <> counterName) by done.
  assert (Hread : readValue (Sprint (counterValue fs + 1)) = counterValue fs + 1).
  { apply readValue_Sprint. unfold minInt64. lia. }
  step. rewrite drop_0. fold (counterValue fs).
  rewrite wrap64_small by (unfold minInt64; lia).
  step. step.
  rewrite counter_overwrite; [|by destruct Hstore|done].
  unfold afterWriteCounter. rewrite Henc.
  step. rewrite lookup_insert_ne by done.
  destruct (fs !! pasteName _ h) as [oldp|] eqn:Hp; cbn -[code run]; tidy;
    (step; step; step; step;
     eexists; split; [reflexivity|]; cbn [files];
     rewrite ?counterValue_insert_ne by done;
     by rewrite counterValue_insert).
Qed.

Lemma run_burned (hr : HttpRoutes) (r : Request) (w : World) (content h : bytes)
    (e : error) :
  worldOk hr w ->
  counterValue (files w) < maxInt64 ->
  parseRequest r = Ok content -> content <> [] ->
  EncodeInt64 (hashidMaker hr) [counterValue (files w) + 1] = Ok h ->
  exists w',
    run (CreatePasteReply hr r) (setFaults [None; None; None; None; None; Some e] w)
    = Some (ReplyPanic (Error e), w') /\
    counterValue (files w') = counterValue (files w) + 1.
Proof.
  intros [Hstore Hlock] Hlt Hparse Hne Henc.
  destruct w as [fs lk atm clk fl tr]. cbn in Hstore, Hlock, Hlt, Henc.
  subst lk. tidy.
  rewrite run_AtLock.
  rewrite run_step. cbn -[afterLock code run]. tidy.
  unfold afterLock. rewrite Hparse.
  destruct content as [|c0 content0]; [done|]. cbn [length Nat.eqb].
  step.
  destruct (fs !! counterName) as [old|] eqn:Hold; cbn -[code run]; tidy.
  - by apply (run_from_read_burned hr _ h).
  - destruct (storeOk_create_counter hr fs Hstore Hold) as [Hs' Hv'].
    rewrite <- Hv'. apply (run_from_read_burned hr _ h); rewrite ?Hv'; done.
Qed.

Lemma allocatedWorld_counter (hr : HttpRoutes) (w : World) (h content : bytes) :
  worldOk hr w -> counterValue (files w) < maxInt64 ->
  counterValue (files (allocatedWorld w (counterValue (files w) + 1) h content))
  = counterValue (files w) + 1.
Proof.
  intros [Hstore _] Hlt. pose proof (counterValue_range _ (proj1 Hstore)).
  cbn [allocatedWorld files].
  rewrite counterValue_insert_ne
    by (intros Heq; symmetry in Heq; by apply counterName_not_paste in Heq).
  rewrite counterValue_insert. apply readValue_Sprint. unfold minInt64. lia.
Qed.

Lemma allocatedWorld_ok (hr : HttpRoutes) (r : Request) (w : World) (content h : bytes) :
  worldOk hr w -> noFaults w ->
  counterValue (files w) < maxInt64 ->
  parseRequest r = Ok content -> content <> [] ->
  EncodeInt64 (hashidMaker hr) [counterValue (files w) + 1] = Ok h ->
  worldOk hr (allocatedWorld w (counterValue (files w) + 1) h content).
Proof.
  intros Hok Hnf Hlt Hparse Hne Henc.
  destruct (CreatePasteReply_spec hr r w Hok Hlt) as (reply & w' & Hrun & Hok' & _).
  rewrite (run_created hr r w content h) in Hrun by done.
  by injection Hrun as <- <-.
Qed.

(** C3. An allocation reads the counter (0 when there is no counter file),
    adds one, and writes the new value before it opens and writes the paste
    file ([allocationTrace] lists the calls in order); if the write of the
    paste fails the counter stays advanced.  So the first paste has ordinal
    1, and whatever requests follow and whatever fails, the ordinals handed
    out afterwards are larger and strictly increasing. *)
Theorem C3_allocation_algorithm (hr : HttpRoutes) (r : Request) (w : World)
    (content h : bytes) (rs : list Request) (fl : list (option error)) (e : error) :
  worldOk hr w -> noFaults w ->
  counterValue (files w) + 1 + Z.of_nat (length rs) <= maxInt64 ->
  parseRequest r = Ok content -> content <> [] ->
  EncodeInt64 (hashidMaker hr) [counterValue (files w) + 1] = Ok h ->
  let c := counterValue (files w) + 1 in
  let w' := allocatedWorld w c h content in
  run (CreatePasteReply hr r) w = Some (ReplyCreated c h, w') /\
  counterValue (files w') = c /\
  (files w !! counterName = None -> c = 1) /\
  (exists w2,
     run (CreatePasteReply hr r) (setFaults [None; None; None; None; None; Some e] w)
     = Some (ReplyPanic (Error e), w2) /\
     counterValue (files w2) = c) /\
  (exists replies w3,
     serve hr rs (setFaults fl w') = Some (replies, w3) /\
     increasingFrom c (ordinals replies)).
Proof.
  intros Hok Hnf Hbound Hparse Hne Henc c w'.
  assert (Hlt : counterValue (files w) < maxInt64) by lia.
  assert (Hcv : counterValue (files w') = c) by by apply (allocatedWorld_counter hr).
  split; [by apply run_created|]. split; [done|].
  split; [intros Habs; unfold c; by rewrite counterValue_absent|].
  split; [by apply (run_burned hr r w content h e)|].
  destruct (serve_increasing hr rs (setFaults fl w')) as (replies & w3 & Hs & _ & Hinc).
  - destruct (allocatedWorld_ok hr r w content h) as [Hs Hl]; done.
  - cbn [setFaults files]. fold w'. lia.
  - exists replies, w3. split; [done|]. cbn [setFaults files] in Hinc.
    fold w' in Hinc. by rewrite Hcv in Hinc.
Qed.

Lemma C3_allocation_algorithm_witness :
  let r := Demo.post (str "10.0.0.1:40000") (str "hello") in
  let rs := [Demo.post (str "10.0.0.2:40000") (str "second"); Demo.post (str "10.0.0.3:40000") []] in
  let w' := allocatedWorld Demo.emptyWorld 1 (str "id1") (str "hello") in
  run (CreatePasteReply Demo.demoRoutes r) Demo.emptyWorld
    = Some (ReplyCreated 1 (str "id1"), w') /\
  counterValue (files w') = 1 /\
  (files Demo.emptyWorld !! counterName = None -> 1 = 1) /\
  (exists w2,
     run (CreatePasteReply Demo.demoRoutes r)
         (setFaults [None; None; None; None; None; Some (ErrOther (str "disk full"))]
                    Demo.emptyWorld)
     = Some (ReplyPanic (str "disk full"), w2) /\
     counterValue (files w2) = 1) /\
  (exists replies w3,
     serve Demo.demoRoutes rs (setFaults [] w') = Some (replies, w3) /\
     increasingFrom 1 (ordinals replies)).
Proof.
  apply (C3_allocation_algorithm Demo.demoRoutes
           (Demo.post (str "10.0.0.1:40000") (str "hello")) Demo.emptyWorld
           (str "hello") (str "id1")
           [Demo.post (str "10.0.0.2:40000") (str "second");
            Demo.post (str "10.0.0.3:40000") []]
           [] (ErrOther (str "disk full"))).
  - split; [apply storeOk_empty | reflexivity].
  - reflexivity.
  - vm_compute. discriminate.
  - reflexivity.
  - discriminate.
  - reflexivity.
Defined.

(** ** The persisted layout *)

Lemma fmtDigits_length_bound (fuel : nat) :
  forall (n : nat) (u : Z),
    0 <= u < 10 ^ Z.of_nat (S n) ->
    (length (fmtDigits fuel u []) <= S n)%nat.
Proof.
  induction fuel as [|fuel IH]; intros n u Hu; [cbn; lia|].
  rewrite fmtDigits_step. destruct (Z.ltb_spec u 10); [cbn; lia|].
  rewrite length_app. cbn [length].
  destruct n as [|n]; [cbn in Hu; lia|].
  specialize (IH n (u / 10)).
  assert (0 <= u / 10 < 10 ^ Z.of_nat (S n)).
  { split; [apply Z.div_pos; lia|].
    apply Z.div_lt_upper_bound; [lia|].
    rewrite (Nat2Z.inj_succ (S n)), Z.pow_succ_r in Hu by lia. lia. }
  lia.
Qed.

Lemma Sprintf09d_width (c : Z) :
  0 <= c < 10 ^ 9 -> length (Sprintf09d c) = 9%nat.
Proof.
  intros Hc. rewrite Sprintf09d_nonneg by lia.
  pose proof (fmtDigits_length_bound 20 8 c Hc).
  rewrite length_app, repeat_length. lia.
Qed.

(** C8. After a paste is created, the counter file holds the decimal
    digits of its ordinal and nothing else, and the payload is stored as it
    came under [pastes/], in a file named by the ordinal zero-padded to nine
    digits, an underscore and the identifier. *)
Theorem C8_persisted_layout (hr : HttpRoutes) (r : Request) (w : World)
    (content h : bytes) :
  worldOk hr w -> noFaults w ->
  counterValue (files w) < maxInt64 ->
  parseRequest r = Ok content -> content <> [] ->
  EncodeInt64 (hashidMaker hr) [counterValue (files w) + 1] = Ok h ->
  let c := counterValue (files w) + 1 in
  exists w',
    run (CreatePasteReply hr r) w = Some (ReplyCreated c h, w') /\
    files w' !! str "/var/lib/paast/counter.dat" = Some (Sprint c) /\
    Forall (fun ch => isDigit ch = true) (Sprint c) /\
    digitsValue 0 (Sprint c) = c /\
    files w' !! (str "/var/lib/paast/pastes/" ++ Sprintf09d c ++ str "_" ++ h)
      = Some content /\
    Sprintf09d c = repeat "0"%char (9 - length (Sprint c)) ++ Sprint c /\
    (c < 10 ^ 9 -> length (Sprintf09d c) = 9%nat).
Proof.
  intros Hok Hnf Hlt Hparse Hne Henc c.
  pose proof (counterValue_range _ (proj1 (proj1 Hok))) as Hrange.
  assert (Hc : 0 <= c < 10 ^ 20) by (unfold c, maxInt64 in *; lia).
  exists (allocatedWorld w c h content).
  split; [by apply run_created|].
  change (str "/var/lib/paast/counter.dat") with counterName.
  change (str "/var/lib/paast/pastes/" ++ Sprintf09d c ++ str "_" ++ h)
    with (pasteName c h).
  cbn [allocatedWorld files].
  split.
  { rewrite lookup_insert_ne
      by (intros Heq; symmetry in Heq; by apply counterName_not_paste in Heq).
    apply lookup_insert_eq. }
  rewrite !Sprint_nonneg by lia.
  split; [apply fmtDigits_digits; lia|].
  split; [by apply fmtDigits_value|].
  split; [apply lookup_insert_eq|].
  split; [apply Sprintf09d_nonneg; lia|].
  intros Hsmall. apply Sprintf09d_width. lia.
Qed.

Lemma usedWorld_storeOk : storeOk Demo.demoRoutes (files DemoWorlds.usedWorld).
Proof.
  assert (Hv : counterValue (files DemoWorlds.usedWorld) = 41) by (by vm_compute).
  split.
  - intros content Hl. vm_compute in Hl. injection Hl as <-.
    right. exists 41. split; [unfold maxInt64; lia | reflexivity].
  - intros name content Hl. cbn in Hl.
    destruct (decide (name = pasteName 41 (str "id41"))) as [->|Hne].
    + right. exists 41, (str "id41"). rewrite Hv. split; [done|]. split; [lia|done].
    + rewrite lookup_insert_ne in Hl by done.
      apply lookup_singleton_Some in Hl as [<- _]. by left.
Qed.

Lemma C8_persisted_layout_witness :
  exists w',
    run (CreatePasteReply Demo.demoRoutes (Demo.post (str "10.0.0.1:40000") Demo.binaryPayload))
        DemoWorlds.usedWorld
    = Some (ReplyCreated 42 (str "id42"), w') /\
    files w' !! str "/var/lib/paast/counter.dat" = Some (Sprint 42) /\
    Forall (fun ch => isDigit ch = true) (Sprint 42) /\
    digitsValue 0 (Sprint 42) = 42 /\
    files w' !! (str "/var/lib/paast/pastes/" ++ Sprintf09d 42 ++ str "_" ++ str "id42")
      = Some Demo.binaryPayload /\
    Sprintf09d 42 = repeat "0"%char (9 - length (Sprint 42)) ++ Sprint 42 /\
    (42 < 10 ^ 9 -> length (Sprintf09d 42) = 9%nat).
Proof.
  assert (Hv : counterValue (files DemoWorlds.usedWorld) = 41) by (by vm_compute).
  pose proof (C8_persisted_layout Demo.demoRoutes
                (Demo.post (str "10.0.0.1:40000") Demo.binaryPayload)
                DemoWorlds.usedWorld Demo.binaryPayload (str "id42")) as H.
  rewrite Hv in H. apply H.
  - split; [apply usedWorld_storeOk | reflexivity].
  - reflexivity.
  - by vm_compute.
  - reflexivity.
  - discriminate.
  - reflexivity.
Defined.

(** ** Reading a paste back *)

Lemma run_RetrievePaste (hr : HttpRoutes) (r : Request) (w : World) :
  run (RetrievePaste hr r) w =
  match run (RetrievePasteReply hr r) w with
  | Some (fetched, w') => Some (RetrievePasteResponse r fetched, w')
  | None => None
  end.
Proof.
  unfold RetrievePaste. rewrite run_bind.
  by destruct (run (RetrievePasteReply hr r) w) as [[fetched w']|].
Qed.

Lemma run_RetrievePaste_present (hr : HttpRoutes) (r : Request) (w : World)
    (content : bytes) :
  noFaults w ->
  files w !! lookupName hr (VarsHash r) = Some content ->
  exists w', run (RetrievePasteReply hr r) w = Some (FetchedContent content, w') /\
             files w' = files w.
Proof.
  intros Hnf Hl. destruct w as [fs lk atm clk fl tr].
  unfold noFaults in Hnf. cbn in Hnf, Hl. subst fl.
  unfold RetrievePasteReply. cbn -[lookupName]. rewrite Hl. cbn -[lookupName].
  rewrite Hl. cbn. rewrite drop_0. by eexists.
Qed.

Lemma run_RetrievePaste_absent (hr : HttpRoutes) (r : Request) (w : World) :
  noFaults w ->
  files w !! lookupName hr (VarsHash r) = None ->
  exists w', run (RetrievePasteReply hr r) w = Some (FetchedNotFound, w') /\
             files w' = files w.
Proof.
  intros Hnf Hl. destruct w as [fs lk atm clk fl tr].
  unfold noFaults in Hnf. cbn in Hnf, Hl. subst fl.
  unfold RetrievePasteReply. cbn -[lookupName]. rewrite Hl. cbn. by eexists.
Qed.

Lemma parseRequest_body (r : Request) (content : bytes) :
  HasPrefix (ContentType r) (str "multipart/form-data") = false ->
  Body r = Delivered content ->
  Z.of_nat (length content) <= MaxBodyLen ->
  parseRequest r = Ok content.
Proof.
  intros Hct Hbody Hlen. unfold parseRequest. cbn [ContentType].
  rewrite Hct. unfold PasteFromBody. cbn [Body]. rewrite Hbody.
  unfold MaxBytesReader. by destruct (Z.ltb_spec MaxBodyLen (Z.of_nat (length content))); [lia|].
Qed.

(** One byte more than [MaxBodyLen] and the request is turned away with
    status 413, before the counter is touched. *)
Lemma body_over_limit (hr : HttpRoutes) (r : Request) (content : bytes) :
  HasPrefix (ContentType r) (str "multipart/form-data") = false ->
  Body r = Delivered content ->
  MaxBodyLen < Z.of_nat (length content) ->
  afterLock r = AtUnlock (Ok ReplyTooLarge).
Proof.
  intros Hct Hbody Hlen. unfold afterLock, parseRequest. cbn [ContentType].
  rewrite Hct. unfold PasteFromBody. cbn [Body]. rewrite Hbody.
  unfold MaxBytesReader.
  by destruct (Z.ltb_spec MaxBodyLen (Z.of_nat (length content))); [|lia].
Qed.

(** C1. A non-empty payload of at most [MaxBodyLen] bytes, whatever bytes
    it is made of, posted as a plain body to a well-formed store, is
    answered with status 200 and the URL of a new identifier; fetching that
    identifier afterwards is answered with status 200 and exactly the
    payload.  The codec is assumed to decode the identifier it issued. *)
Theorem C1_storage_round_trip (hr : HttpRoutes) (posted fetch : Request) (w : World)
    (payload h : bytes) :
  worldOk hr w -> noFaults w ->
  counterValue (files w) < maxInt64 ->
  HasPrefix (ContentType posted) (str "multipart/form-data") = false ->
  Body posted = Delivered payload ->
  payload <> [] -> Z.of_nat (length payload) <= MaxBodyLen ->
  EncodeInt64 (hashidMaker hr) [counterValue (files w) + 1] = Ok h ->
  fst (DecodeInt64WithError (hashidMaker hr) h) = [counterValue (files w) + 1] ->
  VarsHash fetch = h ->
  exists w1 w2 url,
    run (CreatePaste hr posted) w = Some (mkResponse 200 [] (url ++ str "/" ++ h ++ nl), w1) /\
    run (RetrievePaste hr fetch) w1 = Some (mkResponse 200 [] payload, w2).
Proof.
  intros Hok Hnf Hlt Hct Hbody Hne Hlen Henc Hdec Hfetch.
  pose proof (parseRequest_body posted payload Hct Hbody Hlen) as Hparse.
  set (c := counterValue (files w) + 1) in *.
  destruct (run_RetrievePaste_present hr fetch (allocatedWorld w c h payload) payload)
    as (w2 & Hrun2 & _); [done| |].
  { rewrite Hfetch. unfold lookupName. rewrite Hdec. cbn -[pasteName].
    apply lookup_insert_eq. }
  exists (allocatedWorld w c h payload), w2,
    (match URLScheme posted with [] => str "http" | s => s end ++ str "://" ++ Host posted).
  split.
  - rewrite run_CreatePaste, (run_created hr posted w payload h) by done.
    cbn -[allocatedWorld]. do 3 f_equal. by rewrite <- !app_assoc.
  - rewrite run_RetrievePaste, Hrun2. done.
Qed.

Lemma C1_storage_round_trip_witness :
  exists w1 w2 url,
    run (CreatePaste Demo.demoRoutes (Demo.post (str "10.0.0.1:40000") Demo.binaryPayload))
        Demo.emptyWorld
    = Some (mkResponse 200 [] (url ++ str "/" ++ str "id1" ++ nl), w1) /\
    run (RetrievePaste Demo.demoRoutes (Demo.get (str "id1"))) w1
    = Some (mkResponse 200 [] Demo.binaryPayload, w2).
Proof.
  apply (C1_storage_round_trip Demo.demoRoutes
           (Demo.post (str "10.0.0.1:40000") Demo.binaryPayload)
           (Demo.get (str "id1")) Demo.emptyWorld Demo.binaryPayload (str "id1")).
  - split; [apply storeOk_empty | reflexivity].
  - reflexivity.
  - by vm_compute.
  - reflexivity.
  - reflexivity.
  - discriminate.
  - by vm_compute.
  - reflexivity.
  - reflexivity.
  - reflexivity.
Defined.

(** C5, as amended.  [RetrievePaste] looks for the paste file under the
    first number the codec decodes from the identifier, whether or not the
    codec reports an error with it, and under 0 when it decodes none.  In
    a well-formed store in which no call fails but an open that the length
    of the name rules out, an identifier that is not the identifier of a
    counted ordinal, and any identifier that decodes to no number, is
    answered with status 404 when the file name is within the limits of
    the file system, and with status 500 and the text of [ENAMETOOLONG]
    when it is not: only a file reported absent is a 404. *)
Theorem C5_not_found (hr : HttpRoutes) (r : Request) (w : World) :
  storeOk hr (files w) ->
  noFaultsBut (lookupName hr (VarsHash r)) w ->
  notCounted hr (files w) (VarsHash r) \/
    fst (DecodeInt64WithError (hashidMaker hr) (VarsHash r)) = [] ->
  (exists w',
     run (RetrievePaste hr r) w
     = Some (if nameTooLong (lookupName hr (VarsHash r))
             then mkResponse 500 []
                    (Error (nameTooLongError (lookupName hr (VarsHash r))))
             else notFoundResponse (VarsHash r), w') /\
     files w' = files w) /\
  lookupName hr (VarsHash r)
  = pasteName (hd 0 (fst (DecodeInt64WithError (hashidMaker hr) (VarsHash r))))
              (VarsHash r).
Proof.
  intros Hstore Hnf Hcase.
  pose proof (counterValue_range _ (proj1 Hstore)) as Hrange.
  assert (Hname : lookupName hr (VarsHash r)
                  = pasteName (hd 0 (fst (DecodeInt64WithError (hashidMaker hr)
                                            (VarsHash r)))) (VarsHash r)).
  { unfold lookupName.
    by destruct (fst (DecodeInt64WithError (hashidMaker hr) (VarsHash r))). }
  split; [|done].
  assert (Habs : files w !! lookupName hr (VarsHash r) = None).
  { destruct (files w !! lookupName hr (VarsHash r)) as [content|] eqn:E; [|done].
    destruct (proj2 Hstore _ _ E) as [Heq|(k & h' & Heq & Hk & Henc)].
    - unfold lookupName in Heq. symmetry in Heq.
      by apply counterName_not_paste in Heq.
    - destruct Hcase as [Hnever|Hd].
      + unfold lookupName in Heq. apply pasteName_parts in Heq as [_ <-].
        by destruct (Hnever k Hk).
      + rewrite Hname, Hd in Heq. cbn [hd] in Heq. symmetry in Heq.
        apply pasteName_inj in Heq as [-> _]; unfold maxInt64 in *; lia. }
  destruct w as [fs lk atm clk fl tr]. unfold noFaultsBut in Hnf.
  cbn [faults] in Hnf. cbn [files] in Habs. subst fl.
  rewrite run_RetrievePaste. unfold RetrievePasteReply, openFault.
  destruct (nameTooLong (lookupName hr (VarsHash r))).
  - cbn -[lookupName nameTooLongError]. by eexists.
  - cbn -[lookupName]. rewrite Habs. cbn. by eexists.
Qed.

Lemma C5_not_found_witness :
  (exists w',
     run (RetrievePaste Demo.demoRoutes (Demo.get (str "zzz")))
         (Fetches.fetching Demo.demoRoutes (str "zzz") DemoWorlds.usedWorld)
     = Some (if nameTooLong (lookupName Demo.demoRoutes (VarsHash (Demo.get (str "zzz"))))
             then mkResponse 500 []
                    (Error (nameTooLongError
                              (lookupName Demo.demoRoutes (VarsHash (Demo.get (str "zzz"))))))
             else notFoundResponse (VarsHash (Demo.get (str "zzz"))), w') /\
     files w' = files (Fetches.fetching Demo.demoRoutes (str "zzz") DemoWorlds.usedWorld)) /\
  lookupName Demo.demoRoutes (VarsHash (Demo.get (str "zzz")))
  = pasteName
      (hd 0 (fst (DecodeInt64WithError (hashidMaker Demo.demoRoutes)
                    (VarsHash (Demo.get (str "zzz"))))))
      (VarsHash (Demo.get (str "zzz"))).
Proof.
  apply (C5_not_found Demo.demoRoutes (Demo.get (str "zzz"))
           (Fetches.fetching Demo.demoRoutes (str "zzz") DemoWorlds.usedWorld)).
  - apply usedWorld_storeOk.
  - reflexivity.
  - right. reflexivity.
Defined.

(** The claim as the specification has it fails in two ways.  A
    submission whose write of the paste fails is answered with status 500,
    so that no client is told the identifier [id1]; the paste file is
    there all the same, and a fetch of [id1] is answered with status 200
    and an empty body.  And an identifier of 246 letters, which the codec
    does not decode, is looked for under a file name of 256 bytes: the
    open fails with [ENAMETOOLONG] and the fetch is answered with status
    500. *)
Lemma C5_counterexample :
  postThenGet Demo.demoRoutes (Demo.post (str "10.0.0.1:40000") (str "hello"))
              (Demo.get (str "id1")) Fetches.failingWrite
  = Some (mkResponse 500 [] (str "no space left on device"), mkResponse 200 [] []) /\
  fst (DecodeInt64WithError (hashidMaker Demo.demoRoutes) Fetches.longIdentifier) = [] /\
  nameTooLong (lookupName Demo.demoRoutes Fetches.longIdentifier) = true /\
  fst <$> run (RetrievePaste Demo.demoRoutes (Demo.get Fetches.longIdentifier))
              (Fetches.fetching Demo.demoRoutes Fetches.longIdentifier DemoWorlds.usedWorld)
  = Some (mkResponse 500 []
            (Error (nameTooLongError (pasteName 0 Fetches.longIdentifier)))).
Proof.
  split; [by vm_compute|]. split; [by vm_compute|]. split; by vm_compute.
Qed.

End RequestClaims.

(** * The claims about the throttle *)

Module ThrottleClaims.
Import Throttle.

Lemma Sub_sign (t u : Z) : 0 < Sub t u <-> 0 < t - u.
Proof. unfold Sub, minInt64, maxInt64. lia. Qed.

Lemma Sub_exact (t u : Z) : minInt64 <= t - u <= maxInt64 -> Sub t u = t - u.
Proof. unfold Sub, minInt64, maxInt64. lia. Qed.

(** [ceilSeconds d] is the least number of whole seconds covering [d]. *)
Lemma ceilSeconds_spec (d : Z) :
  (ceilSeconds d - 1) * Second < d <= ceilSeconds d * Second.
Proof.
  unfold ceilSeconds, Second.
  pose proof (Z.div_mod (- d) 1000000000).
  pose proof (Z.mod_pos_bound (- d) 1000000000). lia.
Qed.

Lemma ceilSeconds_sign (d : Z) : 0 < ceilSeconds d <-> 0 < d.
Proof. pose proof (ceilSeconds_spec d). unfold Second in *. lia. Qed.

Lemma run_RateLimit (fn : Request -> Prog Response) (r : Request) (w : World)
    (key : bytes) (now1 now2 : Z) (rest : list Z) :
  clientKey (RemoteAddr r) = Some key ->
  clock w = now1 :: now2 :: rest ->
  let retryAfter :=
    ceilSeconds (Sub (default 0 (addrTimeMap w !! key) + PasteCooldown) now1) in
  run (RateLimit fn r) w =
  if 0 <? retryAfter then Some (tooManyResponse retryAfter, turnedAway key now2 rest w)
  else run (fn r) (letThrough key now2 rest w).
Proof.
  intros Hkey Hclock. destruct w as [fs lk atm clk fl tr]. cbn in Hclock. subst clk.
  unfold RateLimit. rewrite Hkey. cbn -[ceilSeconds Sub PasteCooldown tooManyResponse].
  destruct (0 <? _); cbn -[ceilSeconds Sub PasteCooldown tooManyResponse].
  - unfold turnedAway, logEvent. cbn. by rewrite <- !app_assoc.
  - unfold letThrough, logEvent, setClock, setAddrTimeMap.
    cbn [files lock addrTimeMap clock faults trace]. by rewrite <- !app_assoc.
Qed.

(** An address without a colon has no key: the request goes to the
    handler and the table is not consulted. *)
Lemma run_RateLimit_no_key (fn : Request -> Prog Response) (r : Request) (w : World) :
  clientKey (RemoteAddr r) = None -> run (RateLimit fn r) w = run (fn r) w.
Proof. intros Hkey. unfold RateLimit. by rewrite Hkey. Qed.



(** ** The key of a client *)

Lemma Split_not_nil (s : bytes) (sep : ascii) : Split s sep <> [].
Proof.
  destruct s as [|c s]; cbn; [done|].
  destruct (Ascii.eqb c sep); [done|]. by destruct (Split s sep).
Qed.

Lemma Split_host_port (host port : bytes) :
  Forall (fun c => c <> ":"%char) host ->
  Split (hostPort host port) ":" = host :: Split port ":".
Proof.
  unfold hostPort. induction 1 as [|c host Hc _ IH]; cbn.
  - done.
  - apply Ascii.eqb_neq in Hc. rewrite Hc.
    cbn in IH. by rewrite IH.
Qed.

(** For a host without a colon (an IPv4 address or a name) the key is the
    host, whatever the port. *)
Lemma clientKey_host_port (host port : bytes) :
  Forall (fun c => c <> ":"%char) host ->
  clientKey (hostPort host port) = Some host.
Proof.
  intros Hhost. unfold clientKey. rewrite Split_host_port by done.
  pose proof (Split_not_nil port ":") as Hne.
  by destruct (Split port ":").
Qed.

(** C7. The key is the text before the first colon of the remote address,
    which is not the host when the host is an IPv6 literal: the key of
    [[2001:db8::1]:40000] is ["[2001"], the same as for the other host
    [[2001:db8::2]], and a submission from the one makes the next
    submission from the other wait. *)
Theorem C7_ipv6_hosts_share_one_key :
  clientKey (hostPort (str "[2001:db8::1]") (str "40000")) = Some (str "[2001") /\
  clientKey (hostPort (str "[2001:db8::2]") (str "40001")) = Some (str "[2001") /\
  submitAll Demo.demoRoutes
    [Demo.post (hostPort (str "[2001:db8::1]") (str "40000")) (str "one");
     Demo.post (hostPort (str "[2001:db8::2]") (str "40001")) (str "two")]
    freshWorld = [200; 429].
Proof.
  split; [by vm_compute|]. split; by vm_compute.
Qed.

End ThrottleClaims.

(** * Concurrent submissions *)

Module PoolFacts.
Import StoreFacts Machine Pool ProgFacts MachineFacts StepFacts Sequential SequentialFacts
       Schedule.

Section WithRoutes.

Variable hr : HttpRoutes.

Lemma sumPending_cons (st : Stage) (sts : list Stage) :
  sumPending (st :: sts) = pending st + sumPending sts.
Proof. reflexivity. Qed.

Lemma sumPending_nonneg (sts : list Stage) : 0 <= sumPending sts.
Proof.
  induction sts as [|st sts IH]; [done|].
  rewrite sumPending_cons. pose proof (pending_range st). lia.
Qed.

Lemma sumPending_lookup (sts : list Stage) (i : nat) (st : Stage) :
  sts !! i = Some st -> pending st <= sumPending sts.
Proof.
  revert i. induction sts as [|st0 sts IH]; intros [|i] H; try done;
    rewrite sumPending_cons.
  - injection H as ->. pose proof (sumPending_nonneg sts). lia.
  - pose proof (pending_range st0). specialize (IH i H). lia.
Qed.

Lemma sumPending_insert (sts : list Stage) (i : nat) (st st' : Stage) :
  sts !! i = Some st ->
  sumPending (<[i := st']> sts) = sumPending sts - pending st + pending st'.
Proof.
  revert i. induction sts as [|st0 sts IH]; intros [|i] H; try done.
  - injection H as ->. change (<[0%nat := st']> (st :: sts)) with (st' :: sts).
    rewrite !sumPending_cons. lia.
  - change (<[S i := st']> (st0 :: sts)) with (st0 :: <[i := st']> sts).
    rewrite !sumPending_cons, (IH i H). lia.
Qed.

Lemma sumPending_start (rs : list Request) :
  sumPending (AtLock <$> rs) = Z.of_nat (length rs).
Proof.
  induction rs as [|r rs IH]; [done|].
  change (AtLock <$> r :: rs) with (AtLock r :: (AtLock <$> rs)).
  rewrite sumPending_cons, IH. cbn [pending length]. lia.
Qed.

Lemma stageOk_outside (st : Stage) (fs : gmap bytes bytes) :
  inCS st = false -> stageOk hr st fs.
Proof. by destruct st. Qed.

Lemma poolInv_start (rs : list Request) (w : World) :
  worldOk hr w ->
  counterValue (files w) + Z.of_nat (length rs) <= maxInt64 ->
  poolInv hr (AtLock <$> rs) w.
Proof.
  intros [Hstore Hlock] Hbound.
  assert (Hall : forall i st, (AtLock <$> rs) !! i = Some st ->
                   inCS st = false /\ owned st = None).
  { intros i st H. rewrite list_lookup_fmap in H.
    destruct (rs !! i); cbn in H; [|done]. by injection H as <-. }
  split.
  - done.
  - by rewrite sumPending_start.
  - intros i j st st' Hi Hj Hin. destruct (Hall _ _ Hi). congruence.
  - intros i st Hi Hin. destruct (Hall _ _ Hi). congruence.
  - intros _ i st Hi. by destruct (Hall _ _ Hi).
  - intros i st Hi. apply stageOk_outside. by destruct (Hall _ _ Hi).
  - intros i st c Hi Hc. destruct (Hall _ _ Hi). congruence.
  - intros i j st st' c Hi Hj Hc. destruct (Hall _ _ Hi). congruence.
Qed.

(** A step of any thread keeps the invariant of the pool. *)
Lemma poolInv_step (sts : list Stage) (w : World) (i : nat) (st st' : Stage) (w' : World) :
  poolInv hr sts w ->
  sts !! i = Some st ->
  stageStep hr st w = Some (st', w') ->
  poolInv hr (<[i := st']> sts) w'.
Proof.
  intros [Hstore Hbound Hexcl Hlock Hfree Hstage Hown Hdist] Hi Hstep.
  pose proof (sumPending_lookup _ _ _ Hi) as Hpend.
  pose proof (lookup_lt_Some _ _ _ Hi) as Hlen.
  destruct (stageStep_ok hr st w st' w' Hstep Hstore (Hstage _ _ Hi))
    as [Hs' Hst' Hmono Hb' Ho' Hl' Henter].
  { lia. }
  { intros Hin. by eapply Hlock. }
  { intros c Hc. by eapply Hown. }
  (* no other thread is inside the critical section *)
  assert (Hothers : forall j s, j <> i -> sts !! j = Some s -> inCS s = false).
  { intros j s Hne Hj. destruct (inCS s) eqn:Hin; [|done].
    pose proof (Hlock _ _ Hj Hin) as Hheld.
    destruct (inCS st) eqn:Hin'.
    - by destruct Hne; eapply Hexcl.
    - rewrite (Henter eq_refl) in Hheld. done. }
  assert (Hcase : forall j s, <[i := st']> sts !! j = Some s ->
                    (j = i /\ s = st') \/ (j <> i /\ sts !! j = Some s)).
  { intros j s Hj. destruct (decide (j = i)) as [->|Hne].
    - rewrite list_lookup_insert_eq in Hj by done. injection Hj as <-. by left.
    - rewrite list_lookup_insert_ne in Hj by done. by right. }
  split.
  - done.
  - rewrite (sumPending_insert _ _ _ _ Hi). lia.
  - intros j k s s' Hj Hk Hin Hin'.
    destruct (Hcase _ _ Hj) as [[-> ->]|[Hne Hj']],
             (Hcase _ _ Hk) as [[-> ->]|[Hne' Hk']]; try done.
    + rewrite (Hothers _ _ Hne' Hk') in Hin'. done.
    + rewrite (Hothers _ _ Hne Hj') in Hin. done.
    + rewrite (Hothers _ _ Hne Hj') in Hin. done.
  - intros j s Hj Hin. destruct (Hcase _ _ Hj) as [[-> ->]|[Hne Hj']].
    + by rewrite Hl'.
    + rewrite (Hothers _ _ Hne Hj') in Hin. done.
  - intros Hfree' j s Hj. destruct (Hcase _ _ Hj) as [[-> ->]|[Hne Hj']].
    + by rewrite <- Hl'.
    + by eapply Hothers.
  - intros j s Hj. destruct (Hcase _ _ Hj) as [[-> ->]|[Hne Hj']]; [done|].
    apply stageOk_outside. by eapply Hothers.
  - intros j s c Hj Hc. destruct (Hcase _ _ Hj) as [[-> ->]|[Hne Hj']].
    + by destruct (Ho' c Hc).
    + pose proof (Hown _ _ _ Hj' Hc). lia.
  - intros j k s s' c Hj Hk Hc Hc'.
    destruct (Hcase _ _ Hj) as [[-> ->]|[Hne Hj']],
             (Hcase _ _ Hk) as [[-> ->]|[Hne' Hk']]; try done.
    + destruct (Ho' c Hc) as [_ [Hold|[Hnew _]]].
      * symmetry. by eapply Hdist.
      * pose proof (Hown _ _ _ Hk' Hc'). lia.
    + destruct (Ho' c Hc') as [_ [Hold|[Hnew _]]].
      * by eapply Hdist.
      * pose proof (Hown _ _ _ Hj' Hc). lia.
    + by eapply Hdist.
Qed.

Lemma code_Ret (st : Stage) (reply : Reply) :
  code hr st = Ret reply -> st = Done reply.
Proof. destruct st; cbn; try discriminate. by intros [= ->]. Qed.

(** Every pool reached from handlers at their start follows a list of
    program points satisfying the invariant. *)
Lemma pool_invariant (sts0 : list Stage) (ts0 : list (Prog Reply)) (w0 : World)
    (s : list (Prog Reply) * World) :
  Forall2 (fun st q => sameProg (code hr st) q) sts0 ts0 ->
  poolInv hr sts0 w0 ->
  poolSteps (ts0, w0) s ->
  exists sts,
    Forall2 (fun st q => sameProg (code hr st) q) sts s.1 /\ poolInv hr sts s.2.
Proof.
  intros Hsame Hinv Hsteps. remember (ts0, w0) as s0 eqn:Hs0.
  induction Hsteps as [s|s s' s'' Hsteps IH (i & q & q' & Hi & Hstep & Hs'')].
  - subst s. by exists sts0.
  - destruct (IH Hs0) as (sts & Hts & Hinv').
    destruct (Forall2_lookup_r _ _ _ _ _ Hts Hi) as (st & Hst & Hq).
    destruct (threadStep_sameProg _ _ _ _ _ Hq Hstep) as (p' & Hstep' & Hq').
    rewrite threadStep_code in Hstep'.
    destruct (stageStep hr st s'.2) as [[st' w']|] eqn:Hstage; cbn in Hstep'; [|done].
    injection Hstep' as <- <-.
    exists (<[i := st']> sts). split.
    + rewrite Hs''. by apply Forall2_insert.
    + by eapply poolInv_step.
Qed.

End WithRoutes.

Lemma poolSteps_schedule {A : Type} (order : list nat) (s : list (Prog A) * World) :
  poolSteps s (schedule order s).
Proof.
  unfold schedule. induction order as [|i order IH] using rev_ind; cbn.
  - constructor.
  - rewrite foldl_app. cbn.
    set (s' := foldl (fun s i => advance i s) s order) in *.
    unfold advance. destruct (s'.1 !! i) as [p|] eqn:Hp; [|done].
    destruct (threadStep p s'.2) as [[p' w']|] eqn:Hstep; [|done].
    eapply poolSteps_step; [exact IH|]. by exists i, p, p'.
Qed.

End PoolFacts.

Module PoolClaims.
Import StoreFacts Machine Pool ProgFacts MachineFacts StepFacts Sequential SequentialFacts
       Schedule PoolFacts.

Lemma insideCS_code (hr : HttpRoutes) (st : Stage) :
  insideCS (code hr st) = inCS st.
Proof. by destruct st. Qed.

(** C9. Whatever the interleaving of any number of submissions, at most
    one of them is between [Lock] and [Unlock] at any time, so the read,
    the increment and the write of the counter and the write of the paste
    of one allocation are not interleaved with another's; and two
    submissions that have both been answered with a new paste have
    different ordinals. *)
Theorem C9_racing_submissions (hr : HttpRoutes) (rs : list Request) (w0 : World)
    (ts : list (Prog Reply)) (w : World) :
  worldOk hr w0 ->
  counterValue (files w0) + Z.of_nat (length rs) <= maxInt64 ->
  poolSteps (CreatePasteReply hr <$> rs, w0) (ts, w) ->
  (forall i j p q,
     ts !! i = Some p -> ts !! j = Some q ->
     insideCS p = true -> insideCS q = true -> i = j) /\
  (forall i j c h c' h',
     ts !! i = Some (Ret (ReplyCreated c h)) ->
     ts !! j = Some (Ret (ReplyCreated c' h')) ->
     i <> j -> c <> c').
Proof.
  intros Hok Hbound Hsteps.
  assert (Hstart : Forall2 (fun st q => sameProg (code hr st) q)
                     (AtLock <$> rs) (CreatePasteReply hr <$> rs)).
  { apply Forall2_fmap, Forall_Forall2_diag, Forall_forall.
    intros r _. apply sameProg_AtLock. }
  destruct (pool_invariant hr _ _ _ _ Hstart (poolInv_start hr rs w0 Hok Hbound) Hsteps)
    as (sts & Hts & Hinv).
  cbn in Hts, Hinv. split.
  - intros i j p q Hi Hj Hp Hq.
    destruct (Forall2_lookup_r _ _ _ _ _ Hts Hi) as (st & Hsti & Hsame).
    destruct (Forall2_lookup_r _ _ _ _ _ Hts Hj) as (st' & Hstj & Hsame').
    rewrite (insideCS_sameProg _ _ Hsame), insideCS_code in Hp.
    rewrite (insideCS_sameProg _ _ Hsame'), insideCS_code in Hq.
    by eapply (inv_exclusive _ _ _ Hinv).
  - intros i j c h c' h' Hi Hj Hne ->.
    destruct (Forall2_lookup_r _ _ _ _ _ Hts Hi) as (st & Hsti & Hsame).
    destruct (Forall2_lookup_r _ _ _ _ _ Hts Hj) as (st' & Hstj & Hsame').
    apply sameProg_Ret, code_Ret in Hsame as ->.
    apply sameProg_Ret, code_Ret in Hsame' as ->.
    apply Hne. by eapply (inv_distinct _ _ _ Hinv).
Qed.

Lemma C9_racing_submissions_witness :
  let s := schedule raceOrder (racers, Demo.emptyWorld) in
  (forall i j p q,
     s.1 !! i = Some p -> s.1 !! j = Some q ->
     insideCS p = true -> insideCS q = true -> i = j) /\
  (forall i j c h c' h',
     s.1 !! i = Some (Ret (ReplyCreated c h)) ->
     s.1 !! j = Some (Ret (ReplyCreated c' h')) ->
     i <> j -> c <> c').
Proof.
  intros s.
  apply (C9_racing_submissions Demo.demoRoutes
           [Demo.post (str "10.0.0.1:40000") (str "one");
            Demo.post (str "10.0.0.2:40000") (str "two")]
           Demo.emptyWorld s.1 s.2).
  - split; [apply storeOk_empty | reflexivity].
  - vm_compute. discriminate.
  - replace (s.1, s.2) with s by (by destruct s).
    apply (poolSteps_schedule raceOrder (racers, Demo.emptyWorld)).
Defined.

(** The race of [raceOrder] run: thread 1, first at the lock, gets ordinal
    1 and thread 0 ordinal 2. *)
Example race_outcome :
  returned (schedule raceOrder (racers, Demo.emptyWorld)).1
  = [Some (ReplyCreated 2 (str "id2")); Some (ReplyCreated 1 (str "id1"))].
Proof. by vm_compute. Qed.

End PoolClaims.

(** * Requests answered in any world

    What follows makes no assumption on the data directory, on the codec
    or on which calls of the environment fail. *)

Module AnswerFacts.
Import ExecFacts Machine Pool MachineFacts StepFacts Sequential SequentialFacts.

Local Arguments counterName : simpl never.
Local Arguments pasteName : simpl never.
Local Arguments Sprint : simpl never.
Local Arguments writeAt : simpl never.

Lemma writeAt_length (pos : nat) (data old : bytes) :
  (length old <= length (writeAt pos data old))%nat.
Proof.
  unfold writeAt.
  rewrite !length_app, length_take, length_app, repeat_length, length_drop. lia.
Qed.

Lemma grows_refl (fs : gmap bytes bytes) : grows fs fs.
Proof. intros name old H. by exists old. Qed.

Lemma grows_trans (fs1 fs2 fs3 : gmap bytes bytes) :
  grows fs1 fs2 -> grows fs2 fs3 -> grows fs1 fs3.
Proof.
  intros H12 H23 name old H.
  destruct (H12 _ _ H) as (mid & Hmid & Hle).
  destruct (H23 _ _ Hmid) as (new & Hnew & Hle').
  exists new. split; [done|lia].
Qed.

Lemma grows_insert (fs : gmap bytes bytes) (name x : bytes) :
  (length (default [] (fs !! name)) <= length x)%nat ->
  grows fs (<[name := x]> fs).
Proof.
  intros Hle other old H. destruct (decide (other = name)) as [->|Hne].
  - exists x. rewrite lookup_insert_eq. rewrite H in Hle. done.
  - exists old. by rewrite lookup_insert_ne.
Qed.

(** No operation removes or shortens a file. *)
Lemma exec_grows {X : Type} (op : Op X) (w : World) (x : X) (w' : World) :
  exec op w = Some (x, w') -> grows (files w) (files w').
Proof.
  destruct w as [fs lk atm clk fl tr].
  destruct op; cbn; unfold nextFault; cbn.
  - destruct lk; [done|]. intros [= <- <-]. apply grows_refl.
  - intros [= <- <-]. apply grows_refl.
  - destruct fl as [|[e|] fl]; cbn;
      try (destruct (fs !! name) eqn:E; [|destruct create]); cbn;
      intros [= <- <-]; cbn; try apply grows_refl;
      apply grows_insert; rewrite E; cbn; lia.
  - destruct fl as [|[e|] fl]; cbn; intros [= <- <-]; apply grows_refl.
  - destruct fl as [|[e|] fl]; cbn; intros [= <- <-]; apply grows_refl.
  - destruct fl as [|[e|] fl]; cbn; intros [= <- <-]; cbn; try apply grows_refl;
      apply grows_insert, writeAt_length.
  - intros [= <- <-]. apply grows_refl.
  - destruct clk; intros [= <- <-]; apply grows_refl.
  - intros [= <- <-]. apply grows_refl.
  - intros [= <- <-]. apply grows_refl.
Qed.

(** Nor does any program made of them. *)
Lemma run_grows {A : Type} (p : Prog A) :
  forall w a w', run p w = Some (a, w') -> grows (files w) (files w').
Proof.
  induction p as [a|X op k IH]; intros w a' w'; cbn.
  - intros [= <- <-]. apply grows_refl.
  - destruct (exec op w) as [[x w1]|] eqn:E; [|done]. intros Hrun.
    eapply grows_trans; [by eapply exec_grows | by eapply IH].
Qed.

Section WithRoutes.

Variable hr : HttpRoutes.

(** A step of [CreatePaste] keeps the lock in line with the program point
    and leaves the throttle table and the clock alone. *)
Lemma stageStep_frame (st : Stage) (w : World) (st' : Stage) (w' : World) :
  stageStep hr st w = Some (st', w') ->
  addrTimeMap w' = addrTimeMap w /\ clock w' = clock w /\
  (lock w = inCS st -> lock w' = inCS st').
Proof.
  destruct w as [fs lk atm clk fl tr].
  destruct st; cbn -[afterLock afterWriteCounter]; unfold nextFault;
    cbn -[afterLock afterWriteCounter].
  - destruct lk; cbn -[afterLock]; [done|]. intros [= <- <-]. cbn.
    destruct (afterLock_cases r) as [(res & -> & _)|(pasteContent & ->)]; done.
  - destruct fl as [|[e|] fl]; cbn; try (destruct (fs !! counterName)); cbn;
      intros [= <- <-]; done.
  - destruct fl as [|[e|] fl]; cbn; intros [= <- <-]; done.
  - destruct fl as [|[e|] fl]; cbn; intros [= <- <-]; done.
  - destruct fl as [|[e|] fl]; cbn -[afterWriteCounter]; intros [= <- <-];
      try done; unfold afterWriteCounter; by destruct (EncodeInt64 _ _).
  - destruct fl as [|[e|] fl]; cbn;
      try (destruct (fs !! pasteName counter counterHash)); cbn;
      intros [= <- <-]; done.
  - destruct fl as [|[e|] fl]; cbn; intros [= <- <-]; done.
  - intros [= <- <-]; done.
  - intros [= <- <-]; done.
  - intros [= <- <-]; done.
  - done.
Qed.

(** From any program point, with the lock as that point has it, the
    thread runs to its end and leaves the lock free. *)
Lemma run_code_answers (st : Stage) (w : World) :
  lock w = inCS st ->
  exists reply w',
    run (code hr st) w = Some (reply, w') /\ lock w' = false /\
    addrTimeMap w' = addrTimeMap w /\ clock w' = clock w.
Proof.
  remember (remaining st) as n eqn:Hn.
  revert st w Hn. induction n as [n IH] using lt_wf_ind.
  intros st w -> Hlock. rewrite run_step.
  destruct (decide (remaining st = 0%nat)) as [Hz|Hnz].
  - destruct st; try done. cbn. by exists reply, w.
  - destruct (stageStep_enabled hr st w Hlock Hnz) as [[st1 w1] E]. rewrite E.
    destruct (stageStep_frame _ _ _ _ E) as (Ha & Hc & Hl).
    destruct (IH (remaining st1) (stageStep_remaining hr _ _ _ _ E) st1 w1 eq_refl (Hl Hlock))
      as (reply & w' & Hrun & Hfree & Ha' & Hc').
    exists reply, w'. split; [done|]. split; [done|]. split; congruence.
Qed.

End WithRoutes.

End AnswerFacts.

(** * Properties of the routes in any world *)

Module AnswerProperties.
Import ExecFacts Machine Pool MachineFacts Sequential SequentialFacts RequestClaims
       AnswerFacts.

Local Arguments counterName : simpl never.
Local Arguments pasteName : simpl never.
Local Arguments Sprint : simpl never.
Local Arguments writeAt : simpl never.

(** [RateLimit] either answers itself, having touched neither the files
    nor the lock nor the table, or hands the request to the handler in a
    world with the same files and lock. *)
Lemma run_RateLimit_cases (fn : Request -> Prog Response) (r : Request) (w : World) :
  (exists retryAfter w1,
     0 < retryAfter /\
     run (RateLimit fn r) w = Some (tooManyResponse retryAfter, w1) /\
     files w1 = files w /\ lock w1 = lock w /\ addrTimeMap w1 = addrTimeMap w) \/
  (exists w1,
     run (RateLimit fn r) w = run (fn r) w1 /\
     files w1 = files w /\ lock w1 = lock w).
Proof.
  unfold RateLimit. destruct (clientKey (RemoteAddr r)) as [key|]; [|right; by exists w].
  destruct w as [fs lk atm clk fl tr].
  destruct clk as [|now1 [|now2 clk]];
    cbn -[ceilSeconds Sub PasteCooldown tooManyResponse];
    (destruct (0 <? _) eqn:E; [apply Z.ltb_lt in E; left; by eexists _, _|]);
    cbn; right; by eexists.
Qed.

(** X1. A submission arriving while no handler holds the lock is always
    answered, whatever the request, the state of the data directory, the
    codec and the failures of the file system: the status is one of 200,
    400, 413, 429 and 500, the five the manual page lists, and the lock is
    free again afterwards, also when the handler panicked. *)
Theorem X1_submission_always_answered (hr : HttpRoutes) (r : Request) (w : World) :
  lock w = false ->
  exists resp w',
    run (RateLimit (CreatePaste hr) r) w = Some (resp, w') /\
    lock w' = false /\
    Status resp ∈ [200; 400; 413; 429; 500].
Proof.
  intros Hlock.
  destruct (run_RateLimit_cases (CreatePaste hr) r w)
    as [(ra & w1 & _ & Hrun & _ & Hl & _)|(w1 & Hrun & _ & Hl)].
  - exists (tooManyResponse ra), w1. split; [done|]. split; [congruence|].
    cbn. set_solver.
  - rewrite Hrun, run_CreatePaste, run_AtLock.
    destruct (run_code_answers hr (AtLock r) w1) as (reply & w' & Hrun' & Hfree & _);
      [by rewrite Hl|].
    rewrite Hrun'. eexists _, w'. split; [done|]. split; [done|].
    destruct reply; cbn; set_solver.
Qed.

Lemma X1_submission_always_answered_witness :
  exists resp w',
    run (RateLimit (CreatePaste Demo.demoRoutes)
           (Demo.post (str "10.0.0.1:40000") (str "hello"))) Throttle.freshWorld
    = Some (resp, w') /\
    lock w' = false /\
    Status resp ∈ [200; 400; 413; 429; 500].
Proof.
  apply (X1_submission_always_answered Demo.demoRoutes
           (Demo.post (str "10.0.0.1:40000") (str "hello")) Throttle.freshWorld).
  reflexivity.
Defined.

(** X2. No submission removes a file of the data directory or makes one
    shorter, whatever the outcome: a file that existed before exists
    afterwards with at least its old length (the files are opened without
    [O_TRUNC] and nothing is ever deleted). *)
Theorem X2_submission_keeps_files (hr : HttpRoutes) (r : Request) (w : World) :
  lock w = false ->
  exists resp w',
    run (RateLimit (CreatePaste hr) r) w = Some (resp, w') /\
    grows (files w) (files w').
Proof.
  intros Hlock.
  destruct (run_RateLimit_cases (CreatePaste hr) r w)
    as [(ra & w1 & _ & Hrun & Hf & _)|(w1 & Hrun & Hf & Hl)].
  - exists (tooManyResponse ra), w1. split; [done|]. rewrite Hf. apply grows_refl.
  - rewrite Hrun, run_CreatePaste, run_AtLock.
    destruct (run_code_answers hr (AtLock r) w1) as (reply & w' & Hrun' & _);
      [by rewrite Hl|].
    rewrite Hrun'. eexists _, w'. split; [done|].
    rewrite <- Hf. by eapply run_grows.
Qed.

Lemma X2_submission_keeps_files_witness :
  exists resp w',
    run (RateLimit (CreatePaste Demo.demoRoutes)
           (Demo.post (str "10.0.0.1:40000") (str "hello"))) DemoWorlds.usedWorld
    = Some (resp, w') /\
    grows (files DemoWorlds.usedWorld) (files w').
Proof.
  apply (X2_submission_keeps_files Demo.demoRoutes
           (Demo.post (str "10.0.0.1:40000") (str "hello")) DemoWorlds.usedWorld).
  reflexivity.
Defined.

(** X3. [RetrievePaste] is answered in every world, also while a
    submission holds the lock, which it never asks for; it leaves the
    files, the lock, the throttle table and the clock as they are.  The
    status is 200, 404 or 500, and 500 only when a call of the file system
    failed. *)
Theorem X3_retrieve_reads_only (hr : HttpRoutes) (r : Request) (w : World) :
  exists resp w',
    run (RetrievePaste hr r) w = Some (resp, w') /\
    files w' = files w /\ lock w' = lock w /\
    addrTimeMap w' = addrTimeMap w /\ clock w' = clock w /\
    Status resp ∈ [200; 404; 500] /\
    (Status resp = 500 -> faults w <> []).
Proof.
  destruct w as [fs lk atm clk fl tr].
  rewrite run_RetrievePaste. unfold RetrievePasteReply.
  cbn -[lookupName]. unfold nextFault. cbn -[lookupName].
  destruct fl as [|[e|] fl]; cbn -[lookupName].
  - destruct (fs !! lookupName hr (VarsHash r)) as [content|]; cbn;
      eexists _, _; (split; [reflexivity|]); cbn; repeat (split; [done|]);
      (split; [set_solver|done]).
  - destruct (IsNotExist e); cbn;
      eexists _, _; (split; [reflexivity|]); cbn; repeat (split; [done|]);
      (split; [set_solver|done]).
  - destruct (fs !! lookupName hr (VarsHash r)) as [content|]; cbn -[lookupName];
      [unfold nextFault; cbn -[lookupName]; destruct fl as [|[e|] fl]; cbn|];
      eexists _, _; (split; [reflexivity|]); cbn; repeat (split; [done|]);
      (split; [set_solver|done]).
Qed.

End AnswerProperties.

(** * An allocation in any data directory *)

Module AnyStoreFacts.
Import GoLibFacts NameFacts ExecFacts StoreFacts Machine Pool MachineFacts StepFacts
       Sequential SequentialFacts AllocationFacts.

Local Arguments counterName : simpl never.
Local Arguments pasteName : simpl never.
Local Arguments Sprint : simpl never.
Local Arguments writeAt : simpl never.
Local Arguments readValue : simpl never.
Local Arguments wrap64 : simpl never.
Local Arguments counterValue : simpl never.

Lemma writeAt_0 (data old : bytes) :
  writeAt 0 data old = data ++ drop (length data) old.
Proof. unfold writeAt. by rewrite take_0. Qed.

Lemma writeAt_0_nil (data : bytes) : writeAt 0 data [] = data.
Proof. rewrite writeAt_0, drop_nil. apply app_nil_r. Qed.

(** The run of an allocation that meets no failure, with no assumption on
    what the counter file and the paste file hold. *)
Lemma run_allocated (hr : HttpRoutes) (r : Request) (w : World) (content h : bytes) :
  lock w = false -> noFaults w ->
  parseRequest r = Ok content -> content <> [] ->
  let old := default [] (files w !! counterName) in
  let c := wrap64 (readValue old + 1) in
  EncodeInt64 (hashidMaker hr) [c] = Ok h ->
  run (CreatePasteReply hr r) w =
  Some (ReplyCreated c h,
        mkWorld (<[pasteName c h := writeAt 0 content (default [] (files w !! pasteName c h))]>
                   (<[counterName := writeAt 0 (Sprint c) old]> (files w)))
                false (addrTimeMap w) (clock w) []
                (trace w ++ allocationTrace c h content)).
Proof.
  intros Hlock Hnf Hparse Hne old c Henc.
  destruct w as [fs lk atm clk fl tr]. unfold noFaults in Hnf.
  cbn in Hlock, Hnf, old. subst lk fl. cbn [files addrTimeMap clock trace].
  unfold allocationTrace.
  assert (Hnot : counterName <> pasteName c h) by apply counterName_not_paste.
  rewrite run_AtLock.
  rewrite run_step. cbn -[afterLock code run]. tidy.
  unfold afterLock. rewrite Hparse.
  destruct content as [|c0 content0]; [done|]. cbn [length Nat.eqb].
  set (content := c0 :: content0) in *.
  step.
  destruct (fs !! counterName) as [oldc|] eqn:Hold; cbn -[code run]; tidy.
  - cbn in old. subst old.
    step. rewrite Hold. cbn -[code run]; tidy. rewrite drop_0. fold c.
    step.
    step. rewrite Hold. cbn -[code run]; tidy.
    unfold afterWriteCounter. rewrite Henc.
    step. rewrite lookup_insert_ne by done.
    destruct (fs !! pasteName c h) as [oldp|] eqn:Hp; cbn -[code run]; tidy.
    + step. rewrite lookup_insert_ne by done. rewrite Hp. cbn -[code run]; tidy.
      step. step. step.
      rewrite run_step. cbn -[code run]. tidy. cbn [code run].
      rewrite <- !app_assoc. reflexivity.
    + step. rewrite lookup_insert_eq. cbn -[code run]; tidy.
      step. step. step.
      rewrite run_step. cbn -[code run]. tidy. cbn [code run].
      rewrite insert_insert_eq, <- !app_assoc. reflexivity.
  - cbn in old. subst old.
    step. rewrite lookup_insert_eq. cbn -[code run]; tidy. rewrite ?drop_0. fold c.
    step.
    step. rewrite lookup_insert_eq. cbn -[code run]; tidy. rewrite insert_insert_eq.
    unfold afterWriteCounter. rewrite Henc.
    step. rewrite lookup_insert_ne by done.
    destruct (fs !! pasteName c h) as [oldp|] eqn:Hp; cbn -[code run]; tidy.
    + step. rewrite lookup_insert_ne by done. rewrite Hp. cbn -[code run]; tidy.
      step. step. step.
      rewrite run_step. cbn -[code run]. tidy. cbn [code run].
      rewrite <- !app_assoc. reflexivity.
    + step. rewrite lookup_insert_eq. cbn -[code run]; tidy.
      step. step. step.
      rewrite run_step. cbn -[code run]. tidy. cbn [code run].
      rewrite insert_insert_eq, <- !app_assoc. reflexivity.
Qed.

End AnyStoreFacts.

Module AnyStoreRuns.
Import GoLibFacts NameFacts ExecFacts StoreFacts Machine Pool MachineFacts StepFacts
       Sequential SequentialFacts AllocationFacts AnyStoreFacts.

Local Arguments counterName : simpl never.
Local Arguments pasteName : simpl never.
Local Arguments Sprint : simpl never.
Local Arguments writeAt : simpl never.
Local Arguments readValue : simpl never.
Local Arguments wrap64 : simpl never.
Local Arguments counterValue : simpl never.

(** When the codec refuses the new ordinal, the counter has been written
    and nothing else. *)
Lemma run_encode_failed (hr : HttpRoutes) (r : Request) (w : World) (content : bytes)
    (e : error) :
  lock w = false -> noFaults w ->
  parseRequest r = Ok content -> content <> [] ->
  let old := default [] (files w !! counterName) in
  let c := wrap64 (readValue old + 1) in
  EncodeInt64 (hashidMaker hr) [c] = Err e ->
  exists w',
    run (CreatePasteReply hr r) w = Some (ReplyPanic (Error e), w') /\
    files w' = <[counterName := writeAt 0 (Sprint c) old]> (files w) /\
    lock w' = false.
Proof.
  intros Hlock Hnf Hparse Hne old c Henc.
  destruct w as [fs lk atm clk fl tr]. unfold noFaults in Hnf.
  cbn in Hlock, Hnf, old. subst lk fl. cbn [files addrTimeMap clock trace].
  rewrite run_AtLock.
  rewrite run_step. cbn -[afterLock code run]. tidy.
  unfold afterLock. rewrite Hparse.
  destruct content as [|c0 content0]; [done|]. cbn [length Nat.eqb].
  set (content := c0 :: content0) in *.
  step.
  destruct (fs !! counterName) as [oldc|] eqn:Hold; cbn -[code run]; tidy.
  - cbn in old. subst old.
    step. rewrite Hold. cbn -[code run]; tidy. rewrite drop_0. fold c.
    step.
    step. rewrite Hold. cbn -[code run]; tidy.
    unfold afterWriteCounter. rewrite Henc.
    step.
    rewrite run_step. cbn -[code run]. tidy. cbn [code run].
    by eexists.
  - cbn in old. subst old.
    step. rewrite lookup_insert_eq. cbn -[code run]; tidy. rewrite ?drop_0. fold c.
    step.
    step. rewrite lookup_insert_eq. cbn -[code run]; tidy. rewrite insert_insert_eq.
    unfold afterWriteCounter. rewrite Henc.
    step.
    rewrite run_step. cbn -[code run]. tidy. cbn [code run].
    by eexists.
Qed.

(** A failure of one of the first four calls: the counter file is at most
    created, and nothing is written. *)
Lemma run_failed_early (hr : HttpRoutes) (r : Request) (w : World) (content : bytes)
    (n : nat) (e : error) (rest : list (option error)) :
  lock w = false ->
  parseRequest r = Ok content -> content <> [] ->
  (n <= 3)%nat ->
  faults w = replicate n None ++ Some e :: rest ->
  exists w',
    run (CreatePasteReply hr r) w = Some (ReplyPanic (failureText n e), w') /\
    (files w' = files w \/
     (files w !! counterName = None /\ files w' = <[counterName := []]> (files w))) /\
    lock w' = false /\ faults w' = rest.
Proof.
  intros Hlock Hparse Hne Hn Hfaults.
  destruct w as [fs lk atm clk fl tr].
  cbn in Hlock, Hfaults. subst lk fl. cbn [files lock faults].
  rewrite run_AtLock.
  rewrite run_step. cbn -[afterLock code run]. tidy.
  unfold afterLock. rewrite Hparse.
  destruct content as [|c0 content0]; [done|]. cbn [length Nat.eqb].
  set (content := c0 :: content0) in *.
  destruct n as [|[|[|[|n]]]]; [| | | |lia]; cbn [replicate app].
  - step.
    rewrite run_step. cbn -[code run]. tidy. cbn [code run].
    eexists. split; [reflexivity|]. cbn. by split; [left|].
  - step.
    destruct (fs !! counterName) as [oldc|] eqn:Hold; cbn -[code run]; tidy;
      (step; step;
       rewrite run_step; cbn -[code run]; tidy; cbn [code run];
       eexists; split; [reflexivity|]; cbn; split; [|done]).
    + by left.
    + by right.
  - step.
    destruct (fs !! counterName) as [oldc|] eqn:Hold; cbn -[code run]; tidy;
      (step; step; step;
       rewrite run_step; cbn -[code run]; tidy; cbn [code run];
       eexists; split; [reflexivity|]; cbn; split; [|done]).
    + by left.
    + by right.
  - step.
    destruct (fs !! counterName) as [oldc|] eqn:Hold; cbn -[code run]; tidy;
      (step; step; step; step;
       rewrite run_step; cbn -[code run]; tidy; cbn [code run];
       eexists; split; [reflexivity|]; cbn; split; [|done]).
    + by left.
    + by right.
Qed.

End AnyStoreRuns.

(** * Properties of an allocation in any data directory *)

Module AnyStoreProperties.
Import GoLibFacts NameFacts ExecFacts StoreFacts Machine Pool MachineFacts StepFacts
       Sequential SequentialFacts AllocationFacts RequestClaims AnyStoreFacts AnyStoreRuns.

Local Arguments counterName : simpl never.
Local Arguments pasteName : simpl never.
Local Arguments Sprint : simpl never.
Local Arguments writeAt : simpl never.
Local Arguments readValue : simpl never.
Local Arguments wrap64 : simpl never.
Local Arguments counterValue : simpl never.

(** X4. A paste file that already exists under the name an allocation is
    about to use (as happens once the counter file was lost or damaged) is
    written over from its start and not truncated: when the new payload is
    shorter than the old one, the file holds the new payload followed by
    the rest of the old one, and that is what a fetch of the identifier
    returns. *)
Theorem X4_paste_overwritten_in_place (hr : HttpRoutes) (posted fetch : Request)
    (w : World) (content old h : bytes) :
  lock w = false -> noFaults w ->
  parseRequest posted = Ok content -> content <> [] ->
  let c := wrap64 (readValue (default [] (files w !! counterName)) + 1) in
  EncodeInt64 (hashidMaker hr) [c] = Ok h ->
  files w !! pasteName c h = Some old ->
  fst (DecodeInt64WithError (hashidMaker hr) h) = [c] ->
  VarsHash fetch = h ->
  exists w1 w2,
    run (CreatePaste hr posted) w
      = Some (CreatePasteResponse posted (ReplyCreated c h), w1) /\
    files w1 !! pasteName c h = Some (content ++ drop (length content) old) /\
    run (RetrievePaste hr fetch) w1
      = Some (mkResponse 200 [] (content ++ drop (length content) old), w2).
Proof.
  intros Hlock Hnf Hparse Hne c Henc Hold Hdec Hfetch.
  pose proof (run_allocated hr posted w content h Hlock Hnf Hparse Hne Henc) as Hrun.
  cbn zeta in Hrun. fold c in Hrun. rewrite Hold in Hrun. cbn [default from_option id] in Hrun.
  rewrite writeAt_0 in Hrun.
  match type of Hrun with _ = Some (_, ?x) => set (w1 := x) in * end.
  assert (Hfile : files w1 !! pasteName c h = Some (content ++ drop (length content) old)).
  { unfold w1. cbn [files]. apply lookup_insert_eq. }
  destruct (run_RetrievePaste_present hr fetch w1 (content ++ drop (length content) old))
    as (w2 & Hrun2 & _); [done| |].
  { rewrite Hfetch. unfold lookupName. rewrite Hdec. exact Hfile. }
  exists w1, w2. split; [by rewrite run_CreatePaste, Hrun|]. split; [done|].
  by rewrite run_RetrievePaste, Hrun2.
Qed.

Lemma X4_paste_overwritten_in_place_witness :
  exists w1 w2,
    run (CreatePaste Demo.demoRoutes (Demo.post (str "10.0.0.1:40000") (str "2nd")))
        EdgeWorlds.lostCounterWorld
      = Some (CreatePasteResponse (Demo.post (str "10.0.0.1:40000") (str "2nd"))
                (ReplyCreated 1 (str "id1")), w1) /\
    files w1 !! pasteName 1 (str "id1") = Some (str "2nd" ++ drop 3 (str "first paste")) /\
    run (RetrievePaste Demo.demoRoutes (Demo.get (str "id1"))) w1
      = Some (mkResponse 200 [] (str "2nd" ++ drop 3 (str "first paste")), w2).
Proof.
  apply (X4_paste_overwritten_in_place Demo.demoRoutes
           (Demo.post (str "10.0.0.1:40000") (str "2nd")) (Demo.get (str "id1"))
           EdgeWorlds.lostCounterWorld (str "2nd") (str "first paste") (str "id1")).
  - reflexivity.
  - reflexivity.
  - reflexivity.
  - discriminate.
  - reflexivity.
  - apply lookup_singleton_eq.
  - reflexivity.
  - reflexivity.
Defined.

Lemma writeAt_0_twice (data old : bytes) :
  writeAt 0 data (writeAt 0 data old) = writeAt 0 data old.
Proof. rewrite !writeAt_0. by rewrite drop_app_length. Qed.

(** X5. A counter file holding text that [strconv.ParseInt] refuses, and
    still refuses once its first byte is overwritten with the digit 1, is
    never repaired: every later submission reads 0 again, is given
    ordinal 1 and the same identifier, and is written to the same paste
    file as the one before. *)
Theorem X5_damaged_counter_stays_at_one (hr : HttpRoutes) (rs : list Request) (w : World)
    (garbage h : bytes) :
  lock w = false -> noFaults w ->
  files w !! counterName = Some garbage ->
  ParseInt (TrimSpace garbage) = None ->
  ParseInt (TrimSpace (writeAt 0 (Sprint 1) garbage)) = None ->
  Forall (fun r => exists content, parseRequest r = Ok content /\ content <> []) rs ->
  EncodeInt64 (hashidMaker hr) [1] = Ok h ->
  exists w',
    serve hr rs w = Some (replicate (length rs) (ReplyCreated 1 h), w') /\
    lock w' = false.
Proof.
  intros Hlock Hnf Hfile Hg Hg' Hrs Henc.
  revert w garbage Hlock Hnf Hfile Hg Hg'.
  induction Hrs as [|r rs (content & Hparse & Hne) _ IH];
    intros w garbage Hlock Hnf Hfile Hg Hg'.
  - by exists w.
  - assert (Hc : wrap64 (readValue (default [] (files w !! counterName)) + 1) = 1).
    { rewrite Hfile. cbn [default from_option id]. unfold readValue. by rewrite Hg. }
    pose proof (run_allocated hr r w content h Hlock Hnf Hparse Hne) as Hrun.
    cbn zeta in Hrun. rewrite Hc in Hrun. specialize (Hrun Henc).
    rewrite Hfile in Hrun. cbn [default from_option id] in Hrun.
    match type of Hrun with _ = Some (_, ?x) => set (w1 := x) in * end.
    assert (Hfile1 : files w1 !! counterName = Some (writeAt 0 (Sprint 1) garbage)).
    { unfold w1. cbn [files].
      rewrite lookup_insert_ne
        by (intros Heq; symmetry in Heq; by apply counterName_not_paste in Heq).
      apply lookup_insert_eq. }
    assert (Hg1 : ParseInt (TrimSpace (writeAt 0 (Sprint 1) (writeAt 0 (Sprint 1) garbage)))
                  = None) by (by rewrite writeAt_0_twice).
    destruct (IH w1 (writeAt 0 (Sprint 1) garbage) eq_refl eq_refl Hfile1 Hg' Hg1)
      as (w' & Hserve & Hfree).
    exists w'. cbn [serve length replicate]. by rewrite Hrun, Hserve.
Qed.

Lemma X5_damaged_counter_stays_at_one_witness :
  exists w',
    serve Demo.demoRoutes
      [Demo.post (str "10.0.0.1:40000") (str "one");
       Demo.post (str "10.0.0.2:40000") (str "two");
       Demo.post (str "10.0.0.3:40000") (str "three")]
      DemoWorlds.garbageWorld
    = Some (replicate 3 (ReplyCreated 1 (str "id1")), w') /\
    lock w' = false.
Proof.
  apply (X5_damaged_counter_stays_at_one Demo.demoRoutes
           [Demo.post (str "10.0.0.1:40000") (str "one");
            Demo.post (str "10.0.0.2:40000") (str "two");
            Demo.post (str "10.0.0.3:40000") (str "three")]
           DemoWorlds.garbageWorld (str "abc") (str "id1")).
  - reflexivity.
  - reflexivity.
  - apply lookup_singleton_eq.
  - reflexivity.
  - reflexivity.
  - repeat constructor; eexists; (split; [reflexivity|discriminate]).
  - reflexivity.
Defined.

(** X6. When one of the first four calls to the file system fails (opening
    the counter file, reading it, seeking in it, writing it) the answer is
    status 500 with the text of the error, prefixed by [read counter: ] or
    [write counter: ] when it comes from [ReadCounter] or [WriteCounter];
    the lock is released, no ordinal is used up and no file other than a
    newly created, empty counter file is changed. *)
Theorem X6_early_failure_costs_no_ordinal (hr : HttpRoutes) (r : Request) (w : World)
    (content : bytes) (n : nat) (e : error) (rest : list (option error)) :
  lock w = false ->
  parseRequest r = Ok content -> content <> [] ->
  (n <= 3)%nat ->
  faults w = replicate n None ++ Some e :: rest ->
  exists w',
    run (CreatePaste hr r) w = Some (mkResponse 500 [] (failureText n e), w') /\
    lock w' = false /\
    counterValue (files w') = counterValue (files w) /\
    (forall name, name <> counterName -> files w' !! name = files w !! name).
Proof.
  intros Hlock Hparse Hne Hn Hfaults.
  destruct (run_failed_early hr r w content n e rest Hlock Hparse Hne Hn Hfaults)
    as (w' & Hrun & Hfiles & Hfree & _).
  exists w'. split; [by rewrite run_CreatePaste, Hrun|]. split; [done|].
  destruct Hfiles as [->|[Habs ->]]; [done|]. split.
  - by rewrite counterValue_insert, readValue_nil, counterValue_absent.
  - intros name Hname. by rewrite lookup_insert_ne.
Qed.

Lemma X6_early_failure_costs_no_ordinal_witness :
  exists w',
    run (CreatePaste Demo.demoRoutes (Demo.post (str "10.0.0.1:40000") (str "hello")))
        (EdgeWorlds.failingAt 1 (ErrOther (str "input/output error")) DemoWorlds.usedWorld)
    = Some (mkResponse 500 [] (failureText 1 (ErrOther (str "input/output error"))), w') /\
    lock w' = false /\
    counterValue (files w')
    = counterValue
        (files (EdgeWorlds.failingAt 1 (ErrOther (str "input/output error"))
                  DemoWorlds.usedWorld)) /\
    (forall name, name <> counterName ->
       files w' !! name
       = files (EdgeWorlds.failingAt 1 (ErrOther (str "input/output error"))
                  DemoWorlds.usedWorld) !! name).
Proof.
  apply (X6_early_failure_costs_no_ordinal Demo.demoRoutes
           (Demo.post (str "10.0.0.1:40000") (str "hello"))
           (EdgeWorlds.failingAt 1 (ErrOther (str "input/output error"))
              DemoWorlds.usedWorld)
           (str "hello") 1%nat (ErrOther (str "input/output error")) []).
  - reflexivity.
  - reflexivity.
  - discriminate.
  - lia.
  - reflexivity.
Defined.

(** X7. When the codec refuses the new ordinal, the answer is status 500
    with the text of its error; by then the counter file has been written,
    so the ordinal is used up, and no paste file is created.  This is
    what happens at the largest [int64] with a codec for numbers that are
    not negative: [counter++] wraps around to the smallest. *)
Theorem X7_refused_ordinal_is_spent (hr : HttpRoutes) (r : Request) (w : World)
    (content : bytes) (e : error) :
  lock w = false -> noFaults w ->
  parseRequest r = Ok content -> content <> [] ->
  let old := default [] (files w !! counterName) in
  let c := wrap64 (readValue old + 1) in
  EncodeInt64 (hashidMaker hr) [c] = Err e ->
  exists w',
    run (CreatePaste hr r) w = Some (mkResponse 500 [] (Error e), w') /\
    files w' = <[counterName := writeAt 0 (Sprint c) old]> (files w) /\
    lock w' = false.
Proof.
  intros Hlock Hnf Hparse Hne old c Henc.
  destruct (run_encode_failed hr r w content e Hlock Hnf Hparse Hne Henc)
    as (w' & Hrun & Hfiles & Hfree).
  exists w'. split; [by rewrite run_CreatePaste, Hrun|]. by split.
Qed.

Lemma X7_refused_ordinal_is_spent_witness :
  exists w',
    run (CreatePaste Demo.demoRoutes (Demo.post (str "10.0.0.1:40000") (str "hello")))
        EdgeWorlds.fullWorld
    = Some (mkResponse 500 [] (str "negative number not supported"), w') /\
    files w' = <[counterName := writeAt 0 (Sprint minInt64) (Sprint maxInt64)]>
                 (files EdgeWorlds.fullWorld) /\
    lock w' = false.
Proof.
  apply (X7_refused_ordinal_is_spent Demo.demoRoutes
           (Demo.post (str "10.0.0.1:40000") (str "hello")) EdgeWorlds.fullWorld
           (str "hello") (ErrOther (str "negative number not supported"))).
  - reflexivity.
  - reflexivity.
  - reflexivity.
  - discriminate.
  - by vm_compute.
Defined.

End AnyStoreProperties.

(** * Requests that are turned away *)

Module ParsingProperties.
Import GoLibFacts ExecFacts Machine Pool MachineFacts Sequential SequentialFacts
       RequestClaims.

Local Arguments counterName : simpl never.

Lemma HasPrefix_app (s t : bytes) : HasPrefix (s ++ t) s = true.
Proof. induction s as [|c s IH]; cbn; [by destruct t|]. by rewrite Ascii.eqb_refl. Qed.

Lemma HasSuffix_app (s t : bytes) : HasSuffix (s ++ t) t = true.
Proof. unfold HasSuffix. rewrite rev_app_distr. apply HasPrefix_app. Qed.

(** What a request that is not let past the parsing costs: the lock is
    taken and released, and nothing else happens. *)
Lemma run_turned_away (hr : HttpRoutes) (r : Request) (w : World) (res : result Reply) :
  lock w = false -> afterLock r = AtUnlock res ->
  exists w',
    run (CreatePaste hr r) w = Some (CreatePasteResponse r (recovered res), w') /\
    files w' = files w /\ faults w' = faults w /\
    trace w' = trace w ++ [EvLock; EvUnlock].
Proof.
  intros Hlock Hafter. eexists. rewrite run_CreatePaste.
  rewrite (run_rejected hr r w res Hlock Hafter).
  split; [reflexivity|]. cbn. by rewrite <- app_assoc.
Qed.

(** X8. A plain body of more than [MaxBodyLen] bytes is answered with
    status 413 and the text [error: request body too large]; the handler
    has taken and released the lock and made no call to the file system,
    so that no ordinal is used up. *)
Theorem X8_oversized_body_rejected (hr : HttpRoutes) (r : Request) (w : World)
    (content : bytes) :
  lock w = false ->
  HasPrefix (ContentType r) (str "multipart/form-data") = false ->
  Body r = Delivered content ->
  MaxBodyLen < Z.of_nat (length content) ->
  exists w',
    run (CreatePaste hr r) w
      = Some (mkResponse 413 [] (str "error: request body too large" ++ nl), w') /\
    files w' = files w /\ faults w' = faults w /\
    trace w' = trace w ++ [EvLock; EvUnlock].
Proof.
  intros Hlock Hct Hbody Hlen.
  apply (run_turned_away hr r w (Ok ReplyTooLarge) Hlock).
  by apply (body_over_limit hr r content).
Qed.

Lemma X8_oversized_body_rejected_witness :
  exists w',
    run (CreatePaste Demo.demoRoutes (Demo.post (str "10.0.0.1:40000") Oversize.oversized))
        DemoWorlds.usedWorld
      = Some (mkResponse 413 [] (str "error: request body too large" ++ nl), w') /\
    files w' = files DemoWorlds.usedWorld /\ faults w' = faults DemoWorlds.usedWorld /\
    trace w' = trace DemoWorlds.usedWorld ++ [EvLock; EvUnlock].
Proof.
  apply (X8_oversized_body_rejected Demo.demoRoutes
           (Demo.post (str "10.0.0.1:40000") Oversize.oversized) DemoWorlds.usedWorld
           Oversize.oversized).
  - reflexivity.
  - reflexivity.
  - reflexivity.
  - unfold Oversize.oversized. rewrite repeat_length, Z2Nat.id; [lia | by vm_compute].
Defined.

(** X9. A multipart request without a single part ([mr.NextPart()] gives
    [io.EOF]) is answered with status 500 and the text
    [no parts in multipart body], whatever its body; no call to the file
    system is made. *)
Theorem X9_multipart_without_parts (hr : HttpRoutes) (r : Request) (w : World) :
  lock w = false ->
  HasPrefix (ContentType r) (str "multipart/form-data") = true ->
  Multipart r = Ok (NextPartErr ErrEOF) ->
  exists w',
    run (CreatePaste hr r) w
      = Some (mkResponse 500 [] (str "no parts in multipart body"), w') /\
    files w' = files w /\ faults w' = faults w /\
    trace w' = trace w ++ [EvLock; EvUnlock].
Proof.
  intros Hlock Hct Hparts.
  apply (run_turned_away hr r w (Err (ErrOther (str "no parts in multipart body"))) Hlock).
  unfold afterLock, parseRequest. cbn [ContentType]. rewrite Hct.
  unfold PasteFromMultipart. cbn [Multipart]. by rewrite Hparts.
Qed.

Lemma X9_multipart_without_parts_witness :
  exists w',
    run (CreatePaste Demo.demoRoutes (Oversize.form (Ok (NextPartErr ErrEOF))))
        DemoWorlds.usedWorld
      = Some (mkResponse 500 [] (str "no parts in multipart body"), w') /\
    files w' = files DemoWorlds.usedWorld /\ faults w' = faults DemoWorlds.usedWorld /\
    trace w' = trace DemoWorlds.usedWorld ++ [EvLock; EvUnlock].
Proof.
  apply (X9_multipart_without_parts Demo.demoRoutes
           (Oversize.form (Ok (NextPartErr ErrEOF))) DemoWorlds.usedWorld).
  - reflexivity.
  - reflexivity.
  - reflexivity.
Defined.

(** X10. For a multipart request the size limit shows as an error of the
    multipart reader, which may wrap the one of [http.MaxBytesReader];
    whichever of the three calls fails ([r.MultipartReader()],
    [mr.NextPart()], reading the part), an error whose text ends in
    [http: request body too large] is answered with status 413 and not
    with 500, and no call to the file system is made. *)
Theorem X10_multipart_over_limit (hr : HttpRoutes) (r : Request) (w : World)
    (e : error) (wrapping : bytes) :
  lock w = false ->
  HasPrefix (ContentType r) (str "multipart/form-data") = true ->
  Multipart r = Err e \/ Multipart r = Ok (NextPartErr e) \/
    Multipart r = Ok (NextPartOk (Err e)) ->
  Error e = wrapping ++ str "http: request body too large" ->
  exists w',
    run (CreatePaste hr r) w
      = Some (mkResponse 413 [] (str "error: request body too large" ++ nl), w') /\
    files w' = files w /\ faults w' = faults w /\
    trace w' = trace w ++ [EvLock; EvUnlock].
Proof.
  intros Hlock Hct Hparts Htext.
  assert (Hsuffix : HasSuffix (Error e) (str "http: request body too large") = true).
  { rewrite Htext. apply HasSuffix_app. }
  apply (run_turned_away hr r w (Ok ReplyTooLarge) Hlock).
  unfold afterLock, parseRequest. cbn [ContentType]. rewrite Hct.
  unfold PasteFromMultipart. cbn [Multipart].
  destruct Hparts as [->|[->| ->]].
  - by rewrite Hsuffix.
  - destruct (IsEOF e) eqn:Heof.
    + destruct e; try done; by destruct wrapping.
    + by rewrite Hsuffix.
  - by rewrite Hsuffix.
Qed.

Lemma X10_multipart_over_limit_witness :
  exists w',
    run (CreatePaste Demo.demoRoutes (Oversize.form (Ok (NextPartErr Oversize.cutPart))))
        DemoWorlds.usedWorld
      = Some (mkResponse 413 [] (str "error: request body too large" ++ nl), w') /\
    files w' = files DemoWorlds.usedWorld /\ faults w' = faults DemoWorlds.usedWorld /\
    trace w' = trace DemoWorlds.usedWorld ++ [EvLock; EvUnlock].
Proof.
  apply (X10_multipart_over_limit Demo.demoRoutes
           (Oversize.form (Ok (NextPartErr Oversize.cutPart))) DemoWorlds.usedWorld
           Oversize.cutPart (str "multipart: NextPart: ")).
  - reflexivity.
  - reflexivity.
  - right. left. reflexivity.
  - reflexivity.
Defined.

End ParsingProperties.

(** * Properties of the throttle *)

Module ThrottleProperties.
Import Machine Pool MachineFacts Sequential SequentialFacts RequestClaims AnswerFacts
       Throttle ThrottleClaims.

(** A submission that comes before the cooldown is over is refused with
    the wait in whole seconds, and changes nothing. *)
Lemma run_RateLimit_refused (fn : Request -> Prog Response) (r : Request) (w : World)
    (key : bytes) (now : Z) (rest : list Z) :
  clientKey (RemoteAddr r) = Some key ->
  clock w = now :: rest ->
  now < default 0 (addrTimeMap w !! key) + PasteCooldown ->
  let retryAfter :=
    ceilSeconds (Sub (default 0 (addrTimeMap w !! key) + PasteCooldown) now) in
  exists w',
    run (RateLimit fn r) w = Some (tooManyResponse retryAfter, w') /\
    0 < retryAfter /\
    files w' = files w /\ lock w' = lock w /\ addrTimeMap w' = addrTimeMap w.
Proof.
  intros Hkey Hclock Hlt retryAfter.
  assert (Hpos : 0 < retryAfter).
  { apply ceilSeconds_sign, Sub_sign. lia. }
  destruct w as [fs lk atm clk fl tr]. cbn in Hclock. subst clk.
  unfold RateLimit. rewrite Hkey. cbn -[ceilSeconds Sub PasteCooldown tooManyResponse].
  cbn [addrTimeMap] in retryAfter, Hlt, Hpos. fold retryAfter.
  apply Z.ltb_lt in Hpos as Hpos'. rewrite Hpos'.
  cbn -[ceilSeconds Sub PasteCooldown tooManyResponse]. by eexists.
Qed.

(** X11. The cooldown is charged for every submission that is let
    through, whatever [CreatePaste] answers it (also a 400 for an empty
    paste, a 413 or a 500): the next submission under the same key that
    comes less than five seconds after the recorded time is refused with
    status 429. *)
Theorem X11_cooldown_charged_on_any_answer (hr : HttpRoutes) (r1 r2 : Request) (w : World)
    (key : bytes) (now1 now2 now3 : Z) (rest : list Z) :
  lock w = false ->
  clientKey (RemoteAddr r1) = Some key ->
  clientKey (RemoteAddr r2) = Some key ->
  clock w = now1 :: now2 :: now3 :: rest ->
  default 0 (addrTimeMap w !! key) + PasteCooldown <= now1 ->
  now3 < now2 + PasteCooldown ->
  exists resp1 w1 retryAfter w2,
    run (RateLimit (CreatePaste hr) r1) w = Some (resp1, w1) /\
    Status resp1 ∈ [200; 400; 413; 500] /\
    run (RateLimit (CreatePaste hr) r2) w1 = Some (tooManyResponse retryAfter, w2) /\
    0 < retryAfter.
Proof.
  intros Hlock Hkey1 Hkey2 Hclock Hle Hlt.
  pose proof (run_RateLimit (CreatePaste hr) r1 w key now1 now2 (now3 :: rest)
                Hkey1 Hclock) as Hrun.
  cbn zeta in Hrun.
  destruct (Z.ltb_spec 0
              (ceilSeconds (Sub (default 0 (addrTimeMap w !! key) + PasteCooldown) now1)))
    as [Hpos|_].
  { apply ceilSeconds_sign, Sub_sign in Hpos. lia. }
  rewrite run_CreatePaste, run_AtLock in Hrun.
  destruct (run_code_answers hr (AtLock r1) (letThrough key now2 (now3 :: rest) w))
    as (reply & w1 & Hrun1 & Hfree & Htable & Hclock1); [done|].
  rewrite Hrun1 in Hrun. cbn [letThrough addrTimeMap clock] in Htable, Hclock1.
  destruct (run_RateLimit_refused (CreatePaste hr) r2 w1 key now3 rest Hkey2 Hclock1)
    as (w2 & Hrun2 & Hpos2 & _).
  { rewrite Htable, lookup_insert_eq. cbn. lia. }
  eexists _, w1, _, w2. split; [exact Hrun|]. split; [|by split].
  destruct reply; cbn; set_solver.
Qed.

Lemma X11_cooldown_charged_on_any_answer_witness :
  exists resp1 w1 retryAfter w2,
    run (RateLimit (CreatePaste Demo.demoRoutes) (Demo.post (str "10.0.0.1:40000") []))
        Cooldown.quietWorld = Some (resp1, w1) /\
    Status resp1 ∈ [200; 400; 413; 500] /\
    run (RateLimit (CreatePaste Demo.demoRoutes)
           (Demo.post (str "10.0.0.1:40001") (str "hello"))) w1
      = Some (tooManyResponse retryAfter, w2) /\
    0 < retryAfter.
Proof.
  apply (X11_cooldown_charged_on_any_answer Demo.demoRoutes
           (Demo.post (str "10.0.0.1:40000") [])
           (Demo.post (str "10.0.0.1:40001") (str "hello"))
           Cooldown.quietWorld (str "10.0.0.1")
           (100 * Second) (100 * Second + 7) (101 * Second) []).
  - reflexivity.
  - reflexivity.
  - reflexivity.
  - reflexivity.
  - by vm_compute.
  - by vm_compute.
Defined.

(** X12. When a submission is refused and the clock has not gone back
    behind the recorded time, the wait announced in the [Retry-After]
    header and in the text is a whole number of seconds from 1 to 5. *)
Theorem X12_retry_after_range (fn : Request -> Prog Response) (r : Request) (w : World)
    (key : bytes) (now : Z) (rest : list Z) :
  clientKey (RemoteAddr r) = Some key ->
  clock w = now :: rest ->
  default 0 (addrTimeMap w !! key) <= now ->
  now < default 0 (addrTimeMap w !! key) + PasteCooldown ->
  exists retryAfter w',
    run (RateLimit fn r) w = Some (tooManyResponse retryAfter, w') /\
    1 <= retryAfter <= 5 /\
    Headers (tooManyResponse retryAfter) = [(str "Retry-After", Sprint retryAfter)].
Proof.
  intros Hkey Hclock Hge Hlt.
  destruct (run_RateLimit_refused fn r w key now rest Hkey Hclock Hlt)
    as (w' & Hrun & Hpos & _).
  eexists _, w'. split; [exact Hrun|]. split; [|done].
  split; [lia|].
  pose proof (ceilSeconds_spec
                (Sub (default 0 (addrTimeMap w !! key) + PasteCooldown) now)) as Hspec.
  rewrite Sub_exact in Hspec |- *
    by (unfold minInt64, maxInt64, PasteCooldown, Second in *; lia).
  unfold PasteCooldown, Second in *. lia.
Qed.

Lemma X12_retry_after_range_witness :
  exists retryAfter w',
    run (RateLimit (CreatePaste Demo.demoRoutes)
           (Demo.post (str "10.0.0.1:40000") (str "hello"))) coolingWorld
      = Some (tooManyResponse retryAfter, w') /\
    1 <= retryAfter <= 5 /\
    Headers (tooManyResponse retryAfter) = [(str "Retry-After", Sprint retryAfter)].
Proof.
  apply (X12_retry_after_range (CreatePaste Demo.demoRoutes)
           (Demo.post (str "10.0.0.1:40000") (str "hello")) coolingWorld
           (str "10.0.0.1") (9 * Second) [9 * Second + 5]).
  - reflexivity.
  - reflexivity.
  - by vm_compute.
  - by vm_compute.
Defined.

Lemma Split_no_sep (s : bytes) (sep : ascii) :
  Forall (fun c => c <> sep) s -> Split s sep = [s].
Proof.
  induction 1 as [|c s Hc _ IH]; cbn; [done|].
  apply Ascii.eqb_neq in Hc. by rewrite Hc, IH.
Qed.

(** X13. For hosts without a colon (IPv4 addresses and names) the key of
    the throttle tells the hosts apart and nothing else: two remote
    addresses have the same key exactly when their hosts are the same,
    whatever their ports. *)
Theorem X13_key_is_the_host (host host' port port' : bytes) :
  Forall (fun c => c <> ":"%char) host ->
  Forall (fun c => c <> ":"%char) host' ->
  clientKey (hostPort host port) = clientKey (hostPort host' port') <-> host = host'.
Proof.
  intros Hhost Hhost'. rewrite !clientKey_host_port by done.
  split; [by intros [= ->] | by intros ->].
Qed.

Lemma X13_key_is_the_host_witness :
  clientKey (hostPort (str "10.0.0.1") (str "40000"))
  = clientKey (hostPort (str "10.0.0.1") (str "51234"))
  <-> str "10.0.0.1" = str "10.0.0.1".
Proof.
  apply (X13_key_is_the_host (str "10.0.0.1") (str "10.0.0.1") (str "40000") (str "51234")).
  - repeat constructor; discriminate.
  - repeat constructor; discriminate.
Defined.

(** X14. A remote address without a colon (an address that carries no
    port) has no key: the submission goes to the handler without the
    table being read or written, however soon after the one before, so
    that such a client is never answered 429. *)
Theorem X14_address_without_port_not_throttled (hr : HttpRoutes) (r : Request) (w : World) :
  Forall (fun c => c <> ":"%char) (RemoteAddr r) ->
  lock w = false ->
  exists resp w',
    run (RateLimit (CreatePaste hr) r) w = Some (resp, w') /\
    run (CreatePaste hr r) w = Some (resp, w') /\
    Status resp ∈ [200; 400; 413; 500] /\
    addrTimeMap w' = addrTimeMap w /\ clock w' = clock w.
Proof.
  intros Haddr Hlock.
  assert (Hkey : clientKey (RemoteAddr r) = None).
  { unfold clientKey. by rewrite Split_no_sep. }
  rewrite (run_RateLimit_no_key _ r w Hkey), run_CreatePaste, run_AtLock.
  destruct (run_code_answers hr (AtLock r) w) as (reply & w' & Hrun & _ & Htable & Hclock);
    [done|].
  rewrite Hrun. eexists _, w'. split; [done|]. split; [done|].
  split; [|done]. destruct reply; cbn; set_solver.
Qed.

Lemma X14_address_without_port_not_throttled_witness :
  exists resp w',
    run (RateLimit (CreatePaste Demo.demoRoutes) (Demo.post (str "10.0.0.1") (str "hello")))
        coolingWorld = Some (resp, w') /\
    run (CreatePaste Demo.demoRoutes (Demo.post (str "10.0.0.1") (str "hello")))
        coolingWorld = Some (resp, w') /\
    Status resp ∈ [200; 400; 413; 500] /\
    addrTimeMap w' = addrTimeMap coolingWorld /\ clock w' = clock coolingWorld.
Proof.
  apply (X14_address_without_port_not_throttled Demo.demoRoutes
           (Demo.post (str "10.0.0.1") (str "hello")) coolingWorld).
  - repeat constructor; discriminate.
  - reflexivity.
Defined.

End ThrottleProperties.

(** * Properties of a well-formed store *)

Module StoreProperties.
Import GoLibFacts NameFacts ExecFacts StoreFacts Machine Pool MachineFacts StepFacts
       Sequential SequentialFacts AllocationFacts RequestClaims.

Local Arguments counterName : simpl never.
Local Arguments pasteName : simpl never.
Local Arguments Sprint : simpl never.
Local Arguments writeAt : simpl never.
Local Arguments readValue : simpl never.
Local Arguments wrap64 : simpl never.
Local Arguments counterValue : simpl never.

(** Requests served one after the other, whatever fails on the way, keep
    the store well formed and count at most one ordinal each. *)
Lemma serve_keeps_store (hr : HttpRoutes) (rs : list Request) :
  forall w,
    worldOk hr w ->
    counterValue (files w) + Z.of_nat (length rs) <= maxInt64 ->
    exists replies w',
      serve hr rs w = Some (replies, w') /\ worldOk hr w' /\
      length replies = length rs /\
      counterValue (files w) <= counterValue (files w')
        <= counterValue (files w) + Z.of_nat (length rs).
Proof.
  induction rs as [|r rs IH]; intros w Hok Hbound.
  - exists [], w. split; [done|]. split; [done|]. split; [done|]. cbn [length]. lia.
  - cbn [length] in Hbound. rewrite Nat2Z.inj_succ in Hbound.
    destruct (CreatePasteReply_spec hr r w Hok) as (reply & w1 & Hrun & Hok1 & Hcv & _);
      [lia|].
    destruct (IH w1 Hok1) as (replies & w2 & Hserve & Hok2 & Hlen & Hcv2); [lia|].
    exists (reply :: replies), w2. cbn [serve]. rewrite Hrun, Hserve.
    split; [done|]. split; [done|]. cbn [length]. rewrite Nat2Z.inj_succ.
    split; [by rewrite Hlen|lia].
Qed.

(** X15. Starting from an empty data directory, any sequence of
    submissions served one after the other, with any of the calls to the
    file system failing, is answered in full and leaves a well-formed
    store: the counter file holds the decimal text of a number that is at
    most the number of submissions, every other file is the paste file of
    an ordinal from 1 to that number under the identifier the codec gives
    it, and the lock is free. *)
Theorem X15_store_stays_well_formed (hr : HttpRoutes) (rs : list Request)
    (fl : list (option error)) :
  Z.of_nat (length rs) <= maxInt64 ->
  exists replies w',
    serve hr rs (mkWorld ∅ false ∅ [] fl []) = Some (replies, w') /\
    length replies = length rs /\
    storeOk hr (files w') /\ lock w' = false /\
    0 <= counterValue (files w') <= Z.of_nat (length rs).
Proof.
  intros Hlen.
  destruct (serve_keeps_store hr rs (mkWorld ∅ false ∅ [] fl []))
    as (replies & w' & Hserve & [Hstore Hlock] & Hl & Hcv).
  - split; [apply storeOk_empty | done].
  - cbn [files]. by rewrite counterValue_absent.
  - cbn [files] in Hcv. rewrite counterValue_absent in Hcv by done.
    by exists replies, w'.
Qed.

Lemma X15_store_stays_well_formed_witness :
  exists replies w',
    serve Demo.demoRoutes
      [Demo.post (str "10.0.0.1:40000") (str "one");
       Demo.post (str "10.0.0.2:40000") [];
       Demo.post (str "10.0.0.3:40000") (str "three")]
      (mkWorld ∅ false ∅ [] [None; None; Some (ErrOther (str "input/output error"))] [])
    = Some (replies, w') /\
    length replies = 3%nat /\
    storeOk Demo.demoRoutes (files w') /\ lock w' = false /\
    0 <= counterValue (files w') <= Z.of_nat 3.
Proof.
  apply (X15_store_stays_well_formed Demo.demoRoutes
           [Demo.post (str "10.0.0.1:40000") (str "one");
            Demo.post (str "10.0.0.2:40000") [];
            Demo.post (str "10.0.0.3:40000") (str "three")]
           [None; None; Some (ErrOther (str "input/output error"))]).
  by vm_compute.
Defined.

Section WithRoutes.

Variable hr : HttpRoutes.

(** A step changes no file but the counter file and the paste file of
    the ordinal the thread has written to the counter. *)
Lemma stageStep_others (st : Stage) (w : World) (st' : Stage) (w' : World) (name : bytes) :
  stageStep hr st w = Some (st', w') ->
  stageOk hr st (files w) ->
  name <> counterName ->
  (forall c h, owned st = Some c -> name <> pasteName c h) ->
  files w' !! name = files w !! name.
Proof.
  intros Hstep Hstage Hname Hown.
  destruct st; cbn [stageOk owned] in *; revert Hstep; unfold stageStep;
    try done;
    match goal with
    | |- (exec ?op ?w ≫= _) = Some _ -> _ =>
        destruct (exec op w) as [[? ?]|] eqn:E; cbn; [|done]
    end;
    intros [= <- <-].
  - apply exec_lock in E as (_ & _ & ->). done.
  - apply exec_open_create in E as (_ & [(e & -> & ->)|(-> & [(_ & ->)|(_ & ->)])]);
      try done. by rewrite lookup_insert_ne.
  - apply exec_readAll in E as (_ & -> & _). done.
  - apply exec_seek in E as (_ & -> & _). done.
  - destruct Hstage as [-> _].
    apply exec_write in E as (_ & [(e & -> & ->)|(-> & ->)]); [done|].
    cbn [fname]. by rewrite lookup_insert_ne.
  - apply exec_open_create in E as (_ & [(e & -> & ->)|(-> & [(_ & ->)|(_ & ->)])]);
      try done. rewrite lookup_insert_ne; [done|].
    intros Heq. by apply (Hown counter counterHash).
  - destruct Hstage as (_ & _ & _ & ->).
    apply exec_write in E as (_ & [(e & -> & ->)|(-> & ->)]); [done|].
    cbn [fname]. rewrite lookup_insert_ne; [done|].
    intros Heq. by apply (Hown counter counterHash).
  - apply exec_close in E as (_ & ->). done.
  - apply exec_close in E as (_ & ->). done.
  - apply exec_unlock in E as (_ & ->). done.
Qed.

(** A file that was there before a request is as it was after it. *)
Lemma run_keeps_pastes (r : Request) (w : World) (name content : bytes) :
  worldOk hr w -> counterValue (files w) < maxInt64 ->
  files w !! name = Some content -> name <> counterName ->
  exists reply w',
    run (CreatePasteReply hr r) w = Some (reply, w') /\
    files w' !! name = Some content.
Proof.
  intros Hok Hlt Hfile Hname.
  pose proof (onTheWay_start hr r w Hok) as Hstart.
  pose proof (counterValue_range _ (proj1 (proj1 Hok))) as Hrange.
  assert (Hfresh : forall h, name <> pasteName (counterValue (files w) + 1) h).
  { intros h ->. rewrite (paste_fresh hr) in Hfile; [done|by destruct Hok|lia]. }
  rewrite run_AtLock.
  destruct (run_code_total hr _ _ _ Hlt Hstart) as [[reply w'] Hrun].
  exists reply, w'. split; [done|].
  pose proof (run_code_inv hr
                (fun st w1 => onTheWay hr (counterValue (files w)) st w1 /\
                              files w1 !! name = Some content)) as Hinv.
  apply (Hinv) in Hrun as [_ Hdone]; [done| |by split].
  intros st w1 st' w1' [Hway Hkept] Hstep. split.
  - by eapply onTheWay_step.
  - rewrite <- Hkept. eapply stageStep_others; [exact Hstep|apply Hway|done|].
    intros c h Hc. destruct Hway as (_ & _ & _ & _ & _ & Hown).
    destruct (Hown c Hc) as [-> _]. apply Hfresh.
Qed.

End WithRoutes.

(** X16. In a well-formed store a paste, once stored, is never changed by
    a later submission, whether that submission succeeds or fails at any
    point: every file other than the counter file holds afterwards what
    it held before. *)
Theorem X16_stored_pastes_never_change (hr : HttpRoutes) (r : Request) (w : World)
    (name content : bytes) :
  worldOk hr w -> counterValue (files w) < maxInt64 ->
  files w !! name = Some content -> name <> counterName ->
  exists resp w',
    run (CreatePaste hr r) w = Some (resp, w') /\
    files w' !! name = Some content.
Proof.
  intros Hok Hlt Hfile Hname.
  destruct (run_keeps_pastes hr r w name content Hok Hlt Hfile Hname)
    as (reply & w' & Hrun & Hkept).
  exists (CreatePasteResponse r reply), w'. by rewrite run_CreatePaste, Hrun.
Qed.

Lemma X16_stored_pastes_never_change_witness :
  exists resp w',
    run (CreatePaste Demo.demoRoutes (Demo.post (str "10.0.0.1:40000") (str "hello")))
        DemoWorlds.usedWorld = Some (resp, w') /\
    files w' !! pasteName 41 (str "id41") = Some (str "old").
Proof.
  apply (X16_stored_pastes_never_change Demo.demoRoutes
           (Demo.post (str "10.0.0.1:40000") (str "hello")) DemoWorlds.usedWorld
           (pasteName 41 (str "id41")) (str "old")).
  - split; [apply usedWorld_storeOk | reflexivity].
  - by vm_compute.
  - apply lookup_insert_eq.
  - intros Heq. symmetry in Heq. by apply counterName_not_paste in Heq.
Defined.

End StoreProperties.

(** * The order of the ordinals *)

Module OrdinalProperties.
Import GoLibFacts NameFacts ExecFacts StoreFacts Machine Pool MachineFacts StepFacts
       Sequential SequentialFacts AllocationFacts RequestClaims.

Local Arguments counterName : simpl never.
Local Arguments pasteName : simpl never.
Local Arguments Sprint : simpl never.
Local Arguments counterValue : simpl never.

(** X17. In a well-formed store, submissions with a payload served one
    after the other without a failure are given consecutive ordinals: the
    first one the counter value plus one, each next one the ordinal after
    it, with no gap. *)
Theorem X17_ordinals_are_consecutive (hr : HttpRoutes) (rs : list Request) (w : World) :
  worldOk hr w -> noFaults w ->
  counterValue (files w) + Z.of_nat (length rs) <= maxInt64 ->
  Forall (fun r => exists content, parseRequest r = Ok content /\ content <> []) rs ->
  (forall k, counterValue (files w) < k <= counterValue (files w) + Z.of_nat (length rs) ->
     exists h, EncodeInt64 (hashidMaker hr) [k] = Ok h) ->
  exists replies w',
    serve hr rs w = Some (replies, w') /\
    ordinals replies = seqZ (counterValue (files w) + 1) (Z.of_nat (length rs)).
Proof.
  revert w. induction rs as [|r rs IH]; intros w Hok Hnf Hbound Hrs Hcodec.
  - by exists [], w.
  - cbn [length] in Hbound, Hcodec. rewrite Nat2Z.inj_succ in Hbound, Hcodec.
    apply Forall_cons in Hrs as [(content & Hparse & Hne) Hrs].
    pose proof (counterValue_range _ (proj1 (proj1 Hok))) as Hrange.
    destruct (Hcodec (counterValue (files w) + 1)) as [h Henc]; [lia|].
    pose proof (run_created hr r w content h Hok Hnf) as Hrun.
    pose proof (allocatedWorld_ok hr r w content h Hok Hnf) as Hok1.
    pose proof (allocatedWorld_counter hr w h content Hok) as Hcv1.
    set (w1 := allocatedWorld w (counterValue (files w) + 1) h content) in *.
    destruct (IH w1) as (replies & w2 & Hserve & Hord).
    + apply Hok1; [lia|done..].
    + done.
    + rewrite Hcv1 by lia. lia.
    + done.
    + intros k Hk. rewrite Hcv1 in Hk by lia. apply Hcodec. lia.
    + exists (ReplyCreated (counterValue (files w) + 1) h :: replies), w2.
      cbn [serve]. rewrite Hrun, Hserve by (done || lia). split; [done|].
      cbn [ordinals length]. rewrite Hord, Hcv1 by lia.
      rewrite Nat2Z.inj_succ.
      rewrite (seqZ_cons (counterValue (files w) + 1)) by lia.
      f_equal. f_equal; lia.
Qed.

Lemma X17_ordinals_are_consecutive_witness :
  exists replies w',
    serve Demo.demoRoutes
      [Demo.post (str "10.0.0.1:40000") (str "one");
       Demo.post (str "10.0.0.2:40000") (str "two")]
      Demo.emptyWorld = Some (replies, w') /\
    ordinals replies = seqZ (counterValue (files Demo.emptyWorld) + 1) (Z.of_nat 2).
Proof.
  apply (X17_ordinals_are_consecutive Demo.demoRoutes
           [Demo.post (str "10.0.0.1:40000") (str "one");
            Demo.post (str "10.0.0.2:40000") (str "two")]
           Demo.emptyWorld).
  - split; [apply storeOk_empty | reflexivity].
  - reflexivity.
  - by vm_compute.
  - repeat constructor; eexists; (split; [reflexivity|discriminate]).
  - intros k Hk. exists (str "id" ++ Sprint k). cbn.
    destruct (Z.ltb_spec k 0) as [Hneg|_]; [|done].
    change (counterValue (files Demo.emptyWorld)) with 0 in Hk. lia.
Defined.

(** X18. The name of a paste file tells the ordinal and the identifier:
    two allocations with different ordinals are never written to the same
    file, whatever identifiers the codec gives them, and neither is ever
    written to the counter file. *)
Theorem X18_one_file_per_ordinal (k k' : Z) (h h' : bytes) :
  0 <= k <= maxInt64 -> 0 <= k' <= maxInt64 ->
  (pasteName k h = pasteName k' h' <-> k = k' /\ h = h') /\
  pasteName k h <> counterName.
Proof.
  intros Hk Hk'. split.
  - split; [by apply pasteName_inj | by intros [-> ->]].
  - intros Heq. symmetry in Heq. by apply counterName_not_paste in Heq.
Qed.

Lemma X18_one_file_per_ordinal_witness :
  (pasteName 1 (str "id1") = pasteName 1000000000 (str "id1")
   <-> 1 = 1000000000 /\ str "id1" = str "id1") /\
  pasteName 1 (str "id1") <> counterName.
Proof.
  apply (X18_one_file_per_ordinal 1 1000000000 (str "id1") (str "id1")).
  - by vm_compute.
  - by vm_compute.
Defined.

End OrdinalProperties.

(** * Progress of concurrent submissions *)

Module ProgressFacts.
Import ExecFacts StoreFacts Machine Pool ProgFacts MachineFacts StepFacts Sequential
       SequentialFacts PoolFacts AnswerFacts.

Section WithRoutes.

Variable hr : HttpRoutes.



End WithRoutes.

End ProgressFacts.

Module ProgressProperties.
Import ExecFacts StoreFacts Machine Pool ProgFacts MachineFacts StepFacts Sequential
       SequentialFacts Schedule PoolFacts AnswerFacts ProgressFacts.




End ProgressProperties.

(** * Reading and writing the counter *)

Module CounterFacts.
Import GoLibFacts.

Lemma trimLeading_spaces (pats : list (list Z)) (ws t : bytes) :
  Forall (fun c => asciiSpace c = true) ws ->
  forall fuel, (length ws <= fuel)%nat ->
    trimLeading fuel pats (ws ++ t) = trimLeading (fuel - length ws) pats t.
Proof.
  induction 1 as [|c ws Hc _ IH]; intros fuel Hlen; cbn [length app] in *.
  - by rewrite Nat.sub_0_r.
  - destruct fuel as [|fuel]; [lia|].
    cbn [trimLeading dropSpace]. rewrite Hc. rewrite IH by lia. done.
Qed.

(** [strings.TrimSpace] takes the ASCII white space off both ends of a
    number. *)
Lemma TrimSpace_padded (before s after : bytes) :
  Forall (fun c => asciiSpace c = true) before ->
  Forall (fun c => asciiSpace c = true) after ->
  s <> [] -> Forall (fun c => numChar c = true) s ->
  TrimSpace (before ++ s ++ after) = s.
Proof.
  intros Hb Ha Hne Hs. unfold TrimSpace, TrimLeft, TrimRight.
  rewrite trimLeading_spaces by (done || rewrite length_app; lia).
  destruct s as [|c s]; [done|].
  change ((c :: s) ++ after) with (c :: (s ++ after)).
  rewrite trimLeading_keep; [|apply unicodeSpaces_high|by inversion Hs].
  change (c :: (s ++ after)) with ((c :: s) ++ after).
  rewrite rev_app_distr.
  rewrite trimLeading_spaces
    by (try (by apply Forall_rev); rewrite length_rev, length_app; lia).
  assert (Hrev : Forall (fun c => numChar c = true) (rev (c :: s))) by (by apply Forall_rev).
  destruct (rev (c :: s)) as [|c' s'] eqn:E.
  { apply (f_equal (@length ascii)) in E. rewrite length_rev in E. done. }
  rewrite trimLeading_keep; [|apply unicodeSpaces_rev_high|by inversion Hrev].
  by rewrite <- E, rev_involutive.
Qed.

End CounterFacts.

Module CounterProperties.
Import GoLibFacts NameFacts ExecFacts StoreFacts Machine Pool MachineFacts StepFacts
       Sequential SequentialFacts AllocationFacts RequestClaims AnyStoreFacts CounterFacts.

Local Arguments counterName : simpl never.
Local Arguments pasteName : simpl never.
Local Arguments Sprint : simpl never.
Local Arguments writeAt : simpl never.
Local Arguments readValue : simpl never.
Local Arguments wrap64 : simpl never.

(** What [ReadCounter] makes of a number with white space after it. *)
Lemma readValue_trailing (v : Z) (after : bytes) :
  minInt64 <= v <= maxInt64 ->
  Forall (fun c => asciiSpace c = true) after ->
  readValue (Sprint v ++ after) = v.
Proof.
  intros Hv Ha. unfold readValue.
  pose proof (TrimSpace_padded [] (Sprint v) after (Forall_nil_2 _) Ha
                (Sprint_not_nil v) (fmtInteger_numChars 0 v)) as Htrim.
  change ([] ++ Sprint v ++ after) with (Sprint v ++ after) in Htrim.
  by rewrite Htrim, ParseInt_Sprint.
Qed.

(** Writing the next number over a number with white space after it
    leaves a number with white space after it. *)
Lemma trailing_overwrite (v : Z) (after : bytes) :
  0 <= v ->
  Forall (fun c => asciiSpace c = true) after ->
  exists after',
    writeAt 0 (Sprint (v + 1)) (Sprint v ++ after) = Sprint (v + 1) ++ after' /\
    Forall (fun c => asciiSpace c = true) after'.
Proof.
  intros Hv Ha. rewrite writeAt_0.
  exists (drop (length (Sprint (v + 1))) (Sprint v ++ after)). split; [done|].
  rewrite drop_app_ge by (apply Sprint_length_mono; lia). by apply Forall_drop.
Qed.

(** X20. White space after the number in the counter file is harmless:
    when the file holds the decimal text of [v], not negative, followed by
    ASCII blanks, tabs or line ends (as [echo] or an editor leaves it),
    [ReadCounter] reads [v], and submissions with a payload served one
    after the other without a failure are given the ordinals [v + 1],
    [v + 2] and so on, the file holding after each of them the new number
    followed by white space.  White space before the number is not
    covered, and is not harmless: see [leading_white_space_shifts]. *)
Theorem X20_trailing_white_space_is_harmless (hr : HttpRoutes) (rs : list Request)
    (w : World) (v : Z) (after : bytes) :
  lock w = false -> noFaults w ->
  Forall (fun c => asciiSpace c = true) after ->
  0 <= v -> v + Z.of_nat (length rs) <= maxInt64 ->
  files w !! counterName = Some (Sprint v ++ after) ->
  Forall (fun r => exists content, parseRequest r = Ok content /\ content <> []) rs ->
  (forall k, v < k <= v + Z.of_nat (length rs) ->
     exists h, EncodeInt64 (hashidMaker hr) [k] = Ok h) ->
  (exists w1, run (ReadCounter (mkFile counterName 0)) w = Some (Ok v, w1)) /\
  (exists replies w',
     serve hr rs w = Some (replies, w') /\
     ordinals replies = seqZ (v + 1) (Z.of_nat (length rs)) /\
     exists after',
       files w' !! counterName = Some (Sprint (v + Z.of_nat (length rs)) ++ after') /\
       Forall (fun c => asciiSpace c = true) after').
Proof.
  intros Hlock Hnf Ha Hv Hbound Hfile Hrs Hcodec. split.
  { assert (Hread : readValue (Sprint v ++ after) = v).
    { apply readValue_trailing; [unfold minInt64; lia|done]. }
    destruct w as [fs lk atm clk fl tr]. unfold noFaults in Hnf. cbn in Hnf, Hfile.
    subst fl. eexists. cbn -[TrimSpace ParseInt]. rewrite Hfile.
    cbn -[TrimSpace ParseInt]. rewrite drop_0.
    unfold readValue in Hread. destruct (ParseInt _); by subst. }
  revert w v after Hlock Hnf Ha Hv Hbound Hfile Hcodec.
  induction Hrs as [|r rs (content & Hparse & Hne) _ IH];
    intros w v after Hlock Hnf Ha Hv Hbound Hfile Hcodec.
  - exists [], w. split; [done|]. split; [done|]. exists after.
    cbn [length]. by rewrite Z.add_0_r.
  - cbn [length] in Hbound, Hcodec |- *. rewrite Nat2Z.inj_succ in Hbound, Hcodec |- *.
    destruct (Hcodec (v + 1)) as [h Henc]; [lia|].
    assert (Hc : wrap64 (readValue (default [] (files w !! counterName)) + 1) = v + 1).
    { rewrite Hfile. cbn [default from_option id].
      rewrite readValue_trailing by (done || unfold minInt64; lia).
      apply wrap64_small. unfold minInt64. lia. }
    pose proof (run_allocated hr r w content h Hlock Hnf Hparse Hne) as Hrun.
    cbn zeta in Hrun. rewrite Hc in Hrun. specialize (Hrun Henc).
    rewrite Hfile in Hrun. cbn [default from_option id] in Hrun.
    destruct (trailing_overwrite v after Hv Ha) as (after1 & Hover & Ha1).
    rewrite Hover in Hrun.
    match type of Hrun with _ = Some (_, ?x) => set (w1 := x) in * end.
    assert (Hfile1 : files w1 !! counterName = Some (Sprint (v + 1) ++ after1)).
    { unfold w1. cbn [files].
      rewrite lookup_insert_ne
        by (intros Heq; symmetry in Heq; by apply counterName_not_paste in Heq).
      apply lookup_insert_eq. }
    destruct (IH w1 (v + 1) after1 eq_refl eq_refl Ha1) as (replies & w' & Hserve & Hord & Hend);
      [lia|lia|done| |].
    { intros k Hk. apply Hcodec. lia. }
    exists (ReplyCreated (v + 1) h :: replies), w'. cbn [serve].
    rewrite Hrun, Hserve. split; [done|]. split.
    + cbn [ordinals]. rewrite Hord, (seqZ_cons (v + 1)) by lia.
      f_equal. f_equal; lia.
    + destruct Hend as (after' & Hend & Ha'). exists after'. split; [|done].
      rewrite Hend. do 3 f_equal. lia.
Qed.

Lemma X20_trailing_white_space_is_harmless_witness :
  (exists w1, run (ReadCounter (mkFile counterName 0)) EditedCounter.trailingWorld
              = Some (Ok 41, w1)) /\
  (exists replies w',
     serve Demo.demoRoutes
       [Demo.post (str "10.0.0.1:40000") (str "one");
        Demo.post (str "10.0.0.2:40000") (str "two")]
       EditedCounter.trailingWorld = Some (replies, w') /\
     ordinals replies = seqZ (41 + 1) (Z.of_nat 2) /\
     exists after',
       files w' !! counterName = Some (Sprint (41 + Z.of_nat 2) ++ after') /\
       Forall (fun c => asciiSpace c = true) after').
Proof.
  apply (X20_trailing_white_space_is_harmless Demo.demoRoutes
           [Demo.post (str "10.0.0.1:40000") (str "one");
            Demo.post (str "10.0.0.2:40000") (str "two")]
           EditedCounter.trailingWorld 41 nl).
  - reflexivity.
  - reflexivity.
  - repeat constructor.
  - lia.
  - by vm_compute.
  - apply lookup_singleton_eq.
  - repeat constructor; eexists; (split; [reflexivity|discriminate]).
  - intros k Hk. exists (str "id" ++ Sprint k). cbn.
    destruct (Z.ltb_spec k 0) as [Hneg|_]; [lia|done].
Defined.

(** White space before the number is read over once, and then moves the
    digits: after [ 41] and a line end the first ordinal is 42, written at
    the start of the file, which leaves [421] and a line end, and the
    second ordinal is 422. *)
Example leading_white_space_shifts :
  (fun served => ordinals served.1) <$>
    serve Demo.demoRoutes
      [Demo.post (str "10.0.0.1:40000") (str "one");
       Demo.post (str "10.0.0.2:40000") (str "two")]
      EditedCounter.editedWorld
  = Some [42; 422].
Proof. by vm_compute. Qed.

(** X21. What [WriteCounter] writes, [ReadCounter] reads back: after
    [WriteCounter(file, v)] on a file not longer than the decimal text of
    [v], for any [int64] value [v], negative ones included, and wherever
    the offset of the file was, the file holds exactly that text and
    [ReadCounter] on the file opened anew returns [v]. *)
Theorem X21_counter_round_trip (file : File) (v : Z) (w : World) :
  noFaults w ->
  minInt64 <= v <= maxInt64 ->
  (length (default [] (files w !! fname file)) <= length (Sprint v))%nat ->
  exists w1 w2,
    run (WriteCounter file v) w = Some (Ok tt, w1) /\
    files w1 !! fname file = Some (Sprint v) /\
    run (ReadCounter (mkFile (fname file) 0)) w1 = Some (Ok v, w2).
Proof.
  intros Hnf Hv Hlen. destruct w as [fs lk atm clk fl tr].
  unfold noFaults in Hnf. cbn in Hnf, Hlen. subst fl.
  eexists _, _. cbn -[TrimSpace ParseInt].
  rewrite writeAt_0_cover by done.
  split; [reflexivity|]. cbn -[TrimSpace ParseInt].
  rewrite lookup_insert_eq. split; [done|].
  cbn -[TrimSpace ParseInt]. rewrite drop_0, TrimSpace_Sprint, ParseInt_Sprint by done.
  reflexivity.
Qed.

Lemma X21_counter_round_trip_witness :
  exists w1 w2,
    run (WriteCounter (mkFile counterName 2) (-42)) DemoWorlds.garbageWorld
      = Some (Ok tt, w1) /\
    files w1 !! fname (mkFile counterName 2) = Some (Sprint (-42)) /\
    run (ReadCounter (mkFile (fname (mkFile counterName 2)) 0)) w1 = Some (Ok (-42), w2).
Proof.
  apply (X21_counter_round_trip (mkFile counterName 2) (-42) DemoWorlds.garbageWorld).
  - reflexivity.
  - by vm_compute.
  - vm_compute. lia.
Defined.

End CounterProperties.

(** * The manual page *)

Module ManpageProperties.

(** X22. [Manpage] answers every request with status 200 and the manual
    text in which each of the four places marked [{HOST}] (the four
    example commands) holds the host of the request; the rest of the text,
    which has no other brace, is as in [ManpageText], and the handler
    touches neither the lock nor the files nor the throttle table. *)
Theorem X22_manual_page_names_the_host (hr : HttpRoutes) :
  exists p0 p1 p2 p3 p4 : bytes,
    ManpageText
      = p0 ++ str "{HOST}" ++ p1 ++ str "{HOST}" ++ p2 ++ str "{HOST}" ++ p3
           ++ str "{HOST}" ++ p4 /\
    Forall (fun p => Forall (fun c => c <> "{"%char) p) [p0; p1; p2; p3; p4] /\
    forall (r : Request) (w : World),
      run (Manpage hr r) w
      = Some (mkResponse 200 []
                (p0 ++ Host r ++ p1 ++ Host r ++ p2 ++ Host r ++ p3 ++ Host r ++ p4), w).
Proof.
  exists (take 82 ManpageText), (take 39 (drop 88 ManpageText)),
         (take 34 (drop 133 ManpageText)), (take 31 (drop 173 ManpageText)),
         (drop 210 ManpageText).
  split; [by vm_compute|]. split.
  - apply (bool_decide_unpack _). by vm_compute.
  - intros r w. unfold Manpage. cbn [run].
    apply (f_equal (fun t => Some (mkResponse 200 [] t, w))).
    generalize (Host r). intros host. by vm_compute.
Qed.

End ManpageProperties.

(** * A fetch while a submission is under way *)

Module HalfwayFacts.
Import GoLibFacts NameFacts ExecFacts StoreFacts Machine Pool ProgFacts MachineFacts
       StepFacts Sequential SequentialFacts AllocationFacts AnyStoreFacts.

Local Arguments counterName : simpl never.
Local Arguments pasteName : simpl never.
Local Arguments Sprint : simpl never.
Local Arguments writeAt : simpl never.
Local Arguments readValue : simpl never.
Local Arguments wrap64 : simpl never.
Local Arguments counterValue : simpl never.

Lemma steps_sameProg {A : Type} (n : nat) :
  forall (p q p' : Prog A) (w w' : World),
    sameProg p q -> steps n p w = Some (p', w') ->
    exists q', steps n q w = Some (q', w') /\ sameProg p' q'.
Proof.
  induction n as [|n IH]; intros p q p' w w' Hsame; cbn [steps].
  - intros [= <- <-]. by exists q.
  - destruct p as [a|X op k]; cbn [threadStep]; [done|].
    destruct Hsame as (k' & -> & Hk). cbn [threadStep].
    destruct (exec op w) as [[x w1]|]; [|done].
    apply IH, Hk.
Qed.

Lemma steps_code (hr : HttpRoutes) (n : nat) (st : Stage) (w : World) :
  steps (S n) (code hr st) w =
  match stageStep hr st w with
  | Some (st', w') => steps n (code hr st') w'
  | None => None
  end.
Proof.
  cbn [steps]. rewrite threadStep_code.
  by destruct (stageStep hr st w) as [[st' w']|].
Qed.

(** The first six steps of an allocation that meets no failure: the lock
    is taken, the counter is read and written, and the paste file is
    there, empty. *)
Lemma steps_to_the_write (hr : HttpRoutes) (r : Request) (w : World) (content h : bytes) :
  lock w = false -> noFaults w ->
  parseRequest r = Ok content -> content <> [] ->
  let old := default [] (files w !! counterName) in
  let c := wrap64 (readValue old + 1) in
  EncodeInt64 (hashidMaker hr) [c] = Ok h ->
  files w !! pasteName c h = None ->
  exists st w',
    steps 6 (code hr (AtLock r)) w = Some (code hr st, w') /\
    inCS st = true /\ noFaults w' /\
    files w' !! pasteName c h = Some [] /\ lock w' = true.
Proof.
  intros Hlock Hnf Hparse Hne old c Henc Hfresh.
  destruct w as [fs lk atm clk fl tr]. unfold noFaults in Hnf.
  cbn in Hlock, Hnf, old, Hfresh. subst lk fl.
  assert (Hnot : counterName <> pasteName c h) by apply counterName_not_paste.
  rewrite steps_code. cbn -[afterLock code steps]. tidy.
  unfold afterLock. rewrite Hparse.
  destruct content as [|c0 content0]; [done|]. cbn [length Nat.eqb].
  set (content := c0 :: content0) in *.
  rewrite steps_code. cbn -[code steps]. tidy.
  destruct (fs !! counterName) as [oldc|] eqn:Hold; cbn -[code steps]; tidy.
  - cbn in old. subst old.
    rewrite steps_code. cbn -[code steps]. tidy.
    rewrite Hold. cbn -[code steps]; tidy. rewrite drop_0. fold c.
    rewrite steps_code. cbn -[code steps]. tidy.
    rewrite steps_code. cbn -[code steps]. tidy.
    rewrite Hold. cbn -[code steps]; tidy.
    unfold afterWriteCounter. rewrite Henc.
    rewrite steps_code. cbn -[code steps]. tidy.
    rewrite lookup_insert_ne by done. rewrite Hfresh. cbn -[code steps]; tidy.
    eexists _, _. split; [reflexivity|]. split; [done|]. split; [done|].
    split; [|done]. cbn [files]. apply lookup_insert_eq.
  - cbn in old. subst old.
    rewrite steps_code. cbn -[code steps]. tidy.
    rewrite lookup_insert_eq. cbn -[code steps]; tidy. rewrite ?drop_0. fold c.
    rewrite steps_code. cbn -[code steps]. tidy.
    rewrite steps_code. cbn -[code steps]. tidy.
    rewrite lookup_insert_eq. cbn -[code steps]; tidy.
    unfold afterWriteCounter. rewrite Henc.
    rewrite steps_code. cbn -[code steps]. tidy.
    rewrite lookup_insert_ne by done. rewrite lookup_insert_ne by done.
    rewrite Hfresh. cbn -[code steps]; tidy.
    eexists _, _. split; [reflexivity|]. split; [done|]. split; [done|].
    split; [|done]. cbn [files]. apply lookup_insert_eq.
Qed.

End HalfwayFacts.

Module HalfwayProperties.
Import GoLibFacts NameFacts ExecFacts StoreFacts Machine Pool ProgFacts MachineFacts
       StepFacts Sequential SequentialFacts RequestClaims HalfwayFacts.

Local Arguments counterName : simpl never.
Local Arguments pasteName : simpl never.
Local Arguments Sprint : simpl never.

(** X23. [RetrievePaste] does not wait for a submission under way: once
    the submission has created its paste file and before it has written
    the payload (six steps into [CreatePaste], the lock still held), a
    fetch of the new identifier is answered with status 200 and an empty
    body, not with 404. *)
Theorem X23_fetch_during_submission (hr : HttpRoutes) (posted fetch : Request) (w : World)
    (content h : bytes) :
  lock w = false -> noFaults w ->
  parseRequest posted = Ok content -> content <> [] ->
  let c := wrap64 (readValue (default [] (files w !! counterName)) + 1) in
  EncodeInt64 (hashidMaker hr) [c] = Ok h ->
  files w !! pasteName c h = None ->
  fst (DecodeInt64WithError (hashidMaker hr) h) = [c] ->
  VarsHash fetch = h ->
  exists p w1 w2,
    steps 6 (CreatePasteReply hr posted) w = Some (p, w1) /\
    insideCS p = true /\ lock w1 = true /\
    run (RetrievePaste hr fetch) w1 = Some (mkResponse 200 [] [], w2).
Proof.
  intros Hlock Hnf Hparse Hne c Henc Hfresh Hdec Hfetch.
  destruct (steps_to_the_write hr posted w content h Hlock Hnf Hparse Hne Henc Hfresh)
    as (st & w1 & Hsteps & Hin & Hnf1 & Hfile & Hheld).
  destruct (steps_sameProg 6 _ _ _ _ _ (sameProg_AtLock hr posted) Hsteps)
    as (p & Hsteps' & Hsame).
  destruct (run_RetrievePaste_present hr fetch w1 []) as (w2 & Hrun & _); [done| |].
  { rewrite Hfetch. unfold lookupName. rewrite Hdec. exact Hfile. }
  exists p, w1, w2. split; [done|]. split.
  { by rewrite (insideCS_sameProg _ _ Hsame), PoolClaims.insideCS_code. }
  split; [done|]. by rewrite run_RetrievePaste, Hrun.
Qed.

Lemma X23_fetch_during_submission_witness :
  exists p w1 w2,
    steps 6 (CreatePasteReply Demo.demoRoutes
               (Demo.post (str "10.0.0.1:40000") (str "hello"))) Demo.emptyWorld
      = Some (p, w1) /\
    insideCS p = true /\ lock w1 = true /\
    run (RetrievePaste Demo.demoRoutes (Demo.get (str "id1"))) w1
      = Some (mkResponse 200 [] [], w2).
Proof.
  apply (X23_fetch_during_submission Demo.demoRoutes
           (Demo.post (str "10.0.0.1:40000") (str "hello")) (Demo.get (str "id1"))
           Demo.emptyWorld (str "hello") (str "id1")).
  - reflexivity.
  - reflexivity.
  - reflexivity.
  - discriminate.
  - reflexivity.
  - apply lookup_empty.
  - reflexivity.
  - reflexivity.
Defined.

End HalfwayProperties.
